(** * lld/MachO/SymbolTable.cpp: the symbol resolution core

    A shallow embedding of [SymbolTable.cpp] (and the declarations of
    [SymbolTable.h]) of the Mach-O linker, with the properties its
    specification states about it.

    The symbol table maps a name to a slot ([Symbol*]); the slot is
    overwritten in place and never moves, so a pointer to a slot is modelled
    by the slot's name.  The process-wide singletons of the source (the
    table, the two pools of pending diagnostics) are the fields of one
    explicit state; a null-pointer dereference or a failed [assert] ends a
    run in [Crash]. *)

From Stdlib Require Import ZArith String Ascii List Bool Lia.
From stdpp Require Import base option list strings gmap pretty.

Local Open Scope Z_scope.
Local Open Scope string_scope.

(** ** Data model *)

(** [InputFile::Kind], as far as this file inspects it with [isa<>] and
    [kind()]. *)
Inductive Kind := ObjKind | DylibKind | ArchiveKind | BitcodeKind.

Definition Kind_eqb (a b : Kind) : bool :=
  match a, b with
  | ObjKind, ObjKind | DylibKind, DylibKind
  | ArchiveKind, ArchiveKind | BitcodeKind, BitcodeKind => true
  | _, _ => false
  end.

(** A symbol of a file that is not in the symbol table: a file-local
    [Defined].  The typo search reads its name and [isExternal()]. *)
Record LocalDefined := {
  localName : string;
  localIsExternal : bool
}.

(** An entry of [InputFile::symbols], and the [const Symbol *] the typo
    search returns: a symbol owned by the file, or a slot of the table. *)
Inductive SymRef :=
  | Local (d : LocalDefined)
  | Global (name : string).

(** What this translation unit reads of an [InputFile]: none of these
    fields is written here.  [symbols] holds null entries as [None]. *)
Record InputFile := {
  fileName : string;
  kind : Kind;
  priority : Z;
  lazyArchiveMember : bool;
  symbols : list (option SymRef)
}.

Record InputSection := {
  isecName : string;
  isecFile : option InputFile
}.

(** [RefState], ordered [Unreferenced < Weak < Strong]. *)
Inductive RefState := Unreferenced | Weak | Strong.

Definition RefState_rank (r : RefState) : nat :=
  match r with Unreferenced => 0 | Weak => 1 | Strong => 2 end.

Definition RefState_le (a b : RefState) : Prop :=
  (RefState_rank a <= RefState_rank b)%nat.

(** [std::max] on [RefState]: the second argument only when it is
    strictly greater. *)
Definition RefState_max (a b : RefState) : RefState :=
  if (RefState_rank a <? RefState_rank b)%nat then b else a.

Record Defined := {
  definedName : string;
  definedFile : option InputFile;
  isec : option InputSection;
  value : Z;
  size : Z;
  weakDef : bool;
  isExternal : bool;
  privateExtern : bool;
  includeInSymtab : bool;
  thumb : bool;
  referencedDynamically : bool;
  noDeadStrip : bool;
  overridesWeakDef : bool;
  weakDefCanBeHidden : bool;
  interposable : bool
}.

Record Undefined := {
  undefName : string;
  undefFile : option InputFile;
  refState : RefState;
  wasBitcodeSymbol : bool
}.

Record CommonSymbol := {
  commonName : string;
  commonFile : option InputFile;
  commonSize : Z;
  commonAlign : Z;
  commonPrivateExtern : bool
}.

Record DylibSymbol := {
  dylibFile : option InputFile;
  dylibName : string;
  dylibWeakDef : bool;
  dylibRefState : RefState;
  dylibTlv : bool
}.

(** [object::Archive::Symbol] is opaque to the table, a cookie of the
    archive; the table reads its name only. *)
Record ArchiveSymbol := {
  archiveSymName : string;
  archiveSymIndex : nat
}.

Record LazyArchive := {
  lazyArchiveFile : InputFile;
  lazyArchiveSym : ArchiveSymbol
}.

Record LazyObject := {
  lazyObjectFile : InputFile;
  lazyObjectName : string
}.

(** The variants a slot ([SymbolUnion]) can hold; [Blank] is the storage
    that [new SymbolUnion()] returns before [replaceSymbol] fills it. *)
Inductive SymBody :=
  | Blank
  | IsDefined (d : Defined)
  | IsUndefined (u : Undefined)
  | IsCommon (c : CommonSymbol)
  | IsDylib (d : DylibSymbol)
  | IsLazyArchive (l : LazyArchive)
  | IsLazyObject (l : LazyObject).

Record Symbol := {
  isUsedInRegularObj : bool;
  body : SymBody
}.

Definition getFile (s : Symbol) : option InputFile :=
  match body s with
  | Blank => None
  | IsDefined d => definedFile d
  | IsUndefined u => undefFile u
  | IsCommon c => commonFile c
  | IsDylib d => dylibFile d
  | IsLazyArchive l => Some (lazyArchiveFile l)
  | IsLazyObject l => Some (lazyObjectFile l)
  end.

Definition getName (s : Symbol) : string :=
  match body s with
  | Blank => ""
  | IsDefined d => definedName d
  | IsUndefined u => undefName u
  | IsCommon c => commonName c
  | IsDylib d => dylibName d
  | IsLazyArchive l => archiveSymName (lazyArchiveSym l)
  | IsLazyObject l => lazyObjectName l
  end.

(** The compound assignments [addDefined] makes to the flags of a weak
    definition: [privateExtern &= b], [weakDefCanBeHidden &= b],
    [referencedDynamically |= b] and [noDeadStrip |= b]. *)
Definition andPrivateExtern (b : bool) (d : Defined) : Defined :=
  {| definedName := definedName d; definedFile := definedFile d;
     isec := isec d; value := value d; size := size d; weakDef := weakDef d;
     isExternal := isExternal d; privateExtern := privateExtern d && b;
     includeInSymtab := includeInSymtab d; thumb := thumb d;
     referencedDynamically := referencedDynamically d;
     noDeadStrip := noDeadStrip d; overridesWeakDef := overridesWeakDef d;
     weakDefCanBeHidden := weakDefCanBeHidden d;
     interposable := interposable d |}.

Definition andWeakDefCanBeHidden (b : bool) (d : Defined) : Defined :=
  {| definedName := definedName d; definedFile := definedFile d;
     isec := isec d; value := value d; size := size d; weakDef := weakDef d;
     isExternal := isExternal d; privateExtern := privateExtern d;
     includeInSymtab := includeInSymtab d; thumb := thumb d;
     referencedDynamically := referencedDynamically d;
     noDeadStrip := noDeadStrip d; overridesWeakDef := overridesWeakDef d;
     weakDefCanBeHidden := weakDefCanBeHidden d && b;
     interposable := interposable d |}.

Definition orReferencedDynamically (b : bool) (d : Defined) : Defined :=
  {| definedName := definedName d; definedFile := definedFile d;
     isec := isec d; value := value d; size := size d; weakDef := weakDef d;
     isExternal := isExternal d; privateExtern := privateExtern d;
     includeInSymtab := includeInSymtab d; thumb := thumb d;
     referencedDynamically := referencedDynamically d || b;
     noDeadStrip := noDeadStrip d; overridesWeakDef := overridesWeakDef d;
     weakDefCanBeHidden := weakDefCanBeHidden d;
     interposable := interposable d |}.

Definition orNoDeadStrip (b : bool) (d : Defined) : Defined :=
  {| definedName := definedName d; definedFile := definedFile d;
     isec := isec d; value := value d; size := size d; weakDef := weakDef d;
     isExternal := isExternal d; privateExtern := privateExtern d;
     includeInSymtab := includeInSymtab d; thumb := thumb d;
     referencedDynamically := referencedDynamically d;
     noDeadStrip := noDeadStrip d || b; overridesWeakDef := overridesWeakDef d;
     weakDefCanBeHidden := weakDefCanBeHidden d;
     interposable := interposable d |}.

(** [undefined->refState = std::max(undefined->refState, r)] *)
Definition maxRefState (r : RefState) (u : Undefined) : Undefined :=
  {| undefName := undefName u; undefFile := undefFile u;
     refState := RefState_max (refState u) r;
     wasBitcodeSymbol := wasBitcodeSymbol u |}.

(** [s->includeInSymtab = b] *)
Definition setIncludeInSymtab (b : bool) (d : Defined) : Defined :=
  {| definedName := definedName d; definedFile := definedFile d;
     isec := isec d; value := value d; size := size d; weakDef := weakDef d;
     isExternal := isExternal d; privateExtern := privateExtern d;
     includeInSymtab := b; thumb := thumb d;
     referencedDynamically := referencedDynamically d;
     noDeadStrip := noDeadStrip d; overridesWeakDef := overridesWeakDef d;
     weakDefCanBeHidden := weakDefCanBeHidden d;
     interposable := interposable d |}.

Definition isUndefined (s : Symbol) : bool :=
  match body s with IsUndefined _ => true | _ => false end.

Definition isDefined (s : Symbol) : bool :=
  match body s with IsDefined _ => true | _ => false end.

(** ** getRank *)

(** The conversion of an integer to [uint64_t]. *)
Definition to_uint64 (z : Z) : Z := z mod 2 ^ 64.

Definition isa (k : Kind) (f : InputFile) : bool := Kind_eqb (kind f) k.

Definition getRank (file : option InputFile) (isCommon isWeak : bool) : Z :=
  match file with
  | None => to_uint64 (Z.shiftl 7 24)
  | Some file =>
      if isCommon then
        if lazyArchiveMember file
        then to_uint64 (Z.shiftl 6 24 + priority file)
        else to_uint64 (Z.shiftl 5 24 + priority file)
      else if isa DylibKind file || lazyArchiveMember file then
        if isWeak
        then to_uint64 (Z.shiftl 4 24 + priority file)
        else to_uint64 (Z.shiftl 3 24 + priority file)
      else
        if isWeak
        then to_uint64 (Z.shiftl 2 24 + priority file)
        else to_uint64 (Z.shiftl 1 24 + priority file)
  end.

(** ** Configuration and collaborators *)

Inductive NamespaceKind := twolevel | flat.

Inductive UndefinedSymbolTreatment :=
  | treat_error | treat_warning | treat_suppress | treat_dynamic_lookup.

(** [MachO::MH_EXECUTE] of llvm/BinaryFormat/MachO.h. *)
Definition MH_EXECUTE : Z := 2.

Record Config := {
  namespaceKind : NamespaceKind;
  outputType : Z;
  undefinedSymbolTreatment : UndefinedSymbolTreatment;
  archMultiple : bool;
  arch : nat;
  deadStripDuplicates : bool
}.

(** What the table calls but does not define: the frozen [config], the
    printers and source-location lookups of the other translation units,
    ([toStringLocal] is [toString] on a symbol that only its file
    holds), the liveness query and the Itanium partial demangler
    ([getFunctionName] is [partialDemangle] followed by
    [getFunctionName], [None] when either fails). *)
Class Collaborators := {
  config : Config;
  toStringFile : option InputFile -> string;
  toStringSymbol : Symbol -> string;
  toStringLocal : LocalDefined -> string;
  definedSourceLocation : Defined -> string;
  isecSourceLocation : InputSection -> Z -> string;
  isecLocation : InputSection -> Z -> string;
  isLive : Symbol -> bool;
  getArchitectureName : nat -> string;
  getFunctionName : string -> option string
}.

(** ** The state of a link *)

Record DuplicateSymbolDiag := {
  src1 : string * string;
  src2 : string * string;
  dupSym : string
}.

Record SectionAndOffset := {
  refIsec : InputSection;
  refOffset : Z
}.

Record UndefinedDiag := {
  codeReferences : list SectionAndOffset;
  otherReferences : list string
}.

Inductive Diagnostic :=
  | Warn (msg : string)
  | Error (msg : string).

(** A call of [DylibSymbol::reference] or [DylibSymbol::unreference], with
    the symbol as it was when called.  Both are declared in Symbols.h and
    keep a counter in the [DylibFile]; the state records the calls. *)
Inductive RefCall :=
  | CallReference (d : DylibSymbol) (newState : RefState)
  | CallUnreference (d : DylibSymbol).

(** [symMap], [dupSymDiags] and [undefs] are the globals of the source
    ([undefs] is a [MapVector] keyed by the slot, in insertion order);
    [refCalls] and [fetched] record the calls into the dylib counters and
    into [ArchiveFile::fetch]; [diagnostics] is what [warn] and [error]
    have been given. *)
Record State := {
  symMap : gmap string Symbol;
  dupSymDiags : list DuplicateSymbolDiag;
  undefs : list (string * UndefinedDiag);
  refCalls : list RefCall;
  fetched : list (InputFile * ArchiveSymbol);
  diagnostics : list Diagnostic
}.

Definition setSymMap (m : gmap string Symbol) (st : State) : State :=
  {| symMap := m; dupSymDiags := dupSymDiags st; undefs := undefs st;
     refCalls := refCalls st; fetched := fetched st;
     diagnostics := diagnostics st |}.

Definition setDupSymDiags (l : list DuplicateSymbolDiag) (st : State) : State :=
  {| symMap := symMap st; dupSymDiags := l; undefs := undefs st;
     refCalls := refCalls st; fetched := fetched st;
     diagnostics := diagnostics st |}.

Definition setUndefs (l : list (string * UndefinedDiag)) (st : State) : State :=
  {| symMap := symMap st; dupSymDiags := dupSymDiags st; undefs := l;
     refCalls := refCalls st; fetched := fetched st;
     diagnostics := diagnostics st |}.

Definition setRefCalls (l : list RefCall) (st : State) : State :=
  {| symMap := symMap st; dupSymDiags := dupSymDiags st; undefs := undefs st;
     refCalls := l; fetched := fetched st;
     diagnostics := diagnostics st |}.

Definition setFetched (l : list (InputFile * ArchiveSymbol)) (st : State) : State :=
  {| symMap := symMap st; dupSymDiags := dupSymDiags st; undefs := undefs st;
     refCalls := refCalls st; fetched := l;
     diagnostics := diagnostics st |}.

Definition setDiagnostics (l : list Diagnostic) (st : State) : State :=
  {| symMap := symMap st; dupSymDiags := dupSymDiags st; undefs := undefs st;
     refCalls := refCalls st; fetched := fetched st;
     diagnostics := l |}.

Definition emptyState : State :=
  {| symMap := ∅; dupSymDiags := []; undefs := []; refCalls := [];
     fetched := []; diagnostics := [] |}.

(** ** Runs that can crash *)

Inductive Fault := NullDereference | AssertionFailure.

Inductive Res (A : Type) :=
  | Ok (a : A)
  | Crash (f : Fault).
Arguments Ok {A} a.
Arguments Crash {A} f.

Definition M (A : Type) : Type := State -> Res (A * State).

Definition ret {A} (a : A) : M A := fun st => Ok (a, st).

Definition bind {A B} (m : M A) (k : A -> M B) : M B :=
  fun st => match m st with
            | Ok (a, st') => k a st'
            | Crash f => Crash f
            end.

Notation "'let*' x ':=' m 'in' k" := (bind m (fun x => k))
  (at level 10, x pattern, m at level 200, k at level 200).

Definition crash {A} (f : Fault) : M A := fun _ => Crash f.

Definition get : M State := fun st => Ok (st, st).

Definition modify (f : State -> State) : M unit := fun st => Ok (tt, f st).

Definition isNull {A} (p : option A) : bool :=
  match p with Some _ => false | None => true end.

(** [p->...] on a pointer that may be null. *)
Definition deref {A} (p : option A) : M A :=
  match p with
  | Some a => ret a
  | None => crash NullDereference
  end.

Definition assert (b : bool) : M unit :=
  if b then ret tt else crash AssertionFailure.

(** The state a run ends in, and its result. *)
Definition finalState {A} (r : Res (A * State)) : option State :=
  match r with Ok (_, st) => Some st | Crash _ => None end.

Definition result {A} (r : Res (A * State)) : option A :=
  match r with Ok (a, _) => Some a | Crash _ => None end.

(** ** The name index *)

Definition find (name : string) (st : State) : option Symbol :=
  symMap st !! name.

(** [*s = sym] for the slot [s] of [name]. *)
Definition writeSlot (name : string) (sym : Symbol) : M unit :=
  modify (fun st => setSymMap (<[name := sym]> (symMap st)) st).

(** [!file || isa<ObjFile>(file)] *)
Definition fromRegularObj (file : option InputFile) : bool :=
  match file with
  | None => true
  | Some f => isa ObjKind f
  end.

(** [sym->isUsedInRegularObj |= !file || isa<ObjFile>(file)] *)
Definition markUsed (file : option InputFile) (sym : Symbol) : Symbol :=
  {| isUsedInRegularObj := isUsedInRegularObj sym || fromRegularObj file;
     body := body sym |}.

(** [insert] returns the slot of [name], as it is after the update of
    [isUsedInRegularObj], and whether the name is new. *)
Definition insert (name : string) (file : option InputFile) : M (Symbol * bool) :=
  let* st := get in
  let (sym, result) :=
    match symMap st !! name with
    | Some sym => (sym, false)
    | None => ({| isUsedInRegularObj := false; body := Blank |}, true)
    end in
  let* _ := writeSlot name (markUsed file sym) in
  ret (markUsed file sym, result).

(** Modelled from the spec: [replaceSymbol] is defined in Symbols.h, which
    is not among the sources.  The spec: slots are "mutated in place by the
    Resolver using a placement-style overwrite that preserves address
    identity", and [isUsedInRegularObj] is a "sticky OR": the new variant
    is written into the slot [s], whose flag stays. *)
Definition replaceSymbol (name : string) (s : Symbol) (b : SymBody) : M unit :=
  writeSlot name {| isUsedInRegularObj := isUsedInRegularObj s; body := b |}.

(** Modelled from the spec: [DylibSymbol::reference] is defined in
    Symbols.h, which is not among the sources.  The spec, on
    [addUndefined] finding a [DylibSymbol]: "bump its [refState] upward",
    [refState] being "the strongest reference observed".  The call is
    recorded for the counter of the dylib. *)
Definition reference (name : string) (s : Symbol) (d : DylibSymbol)
    (newState : RefState) : M unit :=
  let* _ := modify (fun st => setRefCalls (refCalls st ++ [CallReference d newState]) st) in
  writeSlot name
    {| isUsedInRegularObj := isUsedInRegularObj s;
       body := IsDylib {| dylibFile := dylibFile d; dylibName := dylibName d;
                          dylibWeakDef := dylibWeakDef d;
                          dylibRefState := RefState_max (dylibRefState d) newState;
                          dylibTlv := dylibTlv d |} |}.

(** Modelled from the spec: [DylibSymbol::unreference] is defined in
    Symbols.h, which is not among the sources.  The spec: "Drop the dylib's
    reference count."  The counter belongs to the dylib; the call is
    recorded with the symbol it is made on. *)
Definition unreference (d : DylibSymbol) : M unit :=
  modify (fun st => setRefCalls (refCalls st ++ [CallUnreference d]) st).

(** ** The resolver *)

(** Where the dispatch of [addDefined] on the existing variant ends: in a
    [return], or at the [replaceSymbol] call below it, with the values of
    [file] and [overridesWeakDef] it has assigned. *)
Inductive Flow :=
  | ReturnEarly (p : option string)
  | FallThrough (file : option InputFile) (overridesWeakDef : bool).

Definition NamespaceKind_eqb (a b : NamespaceKind) : bool :=
  match a, b with
  | twolevel, twolevel | flat, flat => true
  | _, _ => false
  end.

(** [!file || !isa<BitcodeFile>(file) || !isec], which [addDefined]
    asserts. *)
Definition bitcodeHasNoSection (file : option InputFile)
    (isec : option InputSection) : bool :=
  match file with
  | None => true
  | Some f => negb (isa BitcodeKind f) || isNull isec
  end.

(** [!isec || !isec->getFile()], which [addSynthetic] asserts. *)
Definition sectionIsSynthetic (isec : option InputSection) : bool :=
  match isec with
  | None => true
  | Some i => isNull (isecFile i)
  end.

Section Resolver.
Context `{Collaborators}.

Definition interposableFor (isPrivateExtern : bool) : bool :=
  NamespaceKind_eqb (namespaceKind config) flat
  && negb (Z.eqb (outputType config) MH_EXECUTE)
  && negb isPrivateExtern.

Definition addDefined (name : string) (file : option InputFile)
    (isec : option InputSection) (value size : Z)
    (isWeakDef isPrivateExtern isThumb isReferencedDynamically noDeadStrip
     isWeakDefCanBeHidden : bool) : M (option string) :=
  let* (s, wasInserted) := insert name file in
  let* _ := assert (bitcodeHasNoSection file isec) in
  let recordDuplicate (defined : Defined) : M Flow :=
    let srcLoc1 := definedSourceLocation defined in
    let srcLoc2 := match isec with
                   | Some i => isecSourceLocation i value
                   | None => ""
                   end in
    let srcFile1 := toStringFile (definedFile defined) in
    let srcFile2 := toStringFile file in
    let* _ := modify (fun st =>
          setDupSymDiags (dupSymDiags st ++
            [{| src1 := (srcLoc1, srcFile1); src2 := (srcLoc2, srcFile2);
                dupSym := name |}]) st) in
    ret (FallThrough file false) in
  let* flow :=
    (if wasInserted then ret (FallThrough file false) else
     match body s with
     | IsDefined defined =>
         if isWeakDef then
           if (getRank file false isWeakDef
              <? getRank (definedFile defined) false (weakDef defined))%Z then
             let* _ := replaceSymbol name s
                   (IsDefined (Build_Defined name file isec value size isWeakDef
                      true isPrivateExtern true isThumb isReferencedDynamically
                      noDeadStrip false isWeakDefCanBeHidden
                      (interposableFor isPrivateExtern))) in
             ret (ReturnEarly (Some name))
           else
             let* _ := (if weakDef defined then
                    writeSlot name
                      {| isUsedInRegularObj := isUsedInRegularObj s;
                         body := IsDefined
                           (orNoDeadStrip noDeadStrip
                             (orReferencedDynamically isReferencedDynamically
                               (andWeakDefCanBeHidden isWeakDefCanBeHidden
                                 (andPrivateExtern isPrivateExtern defined)))) |}
                  else ret tt) in
             ret (ReturnEarly (Some name))
         else if weakDef defined then ret (FallThrough file false)
         else
           match file with
           | Some f =>
               if lazyArchiveMember f then
                 let* ef := deref (definedFile defined) in
                 if negb (isa BitcodeKind ef) then
                   if lazyArchiveMember ef then
                     if (priority f <? priority ef)%Z
                     then ret (ReturnEarly (Some name))
                     else ret (FallThrough file false)
                   else ret (ReturnEarly (Some name))
                 else ret (FallThrough file false)
               else recordDuplicate defined
           | None => recordDuplicate defined
           end
     | IsDylib dysym =>
         let* f := deref file in
         (* [return defined;] where [defined] is the result of the
            [dyn_cast<Defined>] that has just failed: null. *)
         if lazyArchiveMember f then ret (ReturnEarly None)
         else
           let* _ := unreference dysym in
           ret (FallThrough file (negb isWeakDef && dylibWeakDef dysym))
     | IsUndefined undef =>
         ret (FallThrough (if wasBitcodeSymbol undef then undefFile undef else file)
                           false)
     | IsCommon common =>
         let* cf := deref (commonFile common) in
         if lazyArchiveMember cf then
           let* f := deref file in
           (* [return nullptr;] *)
           if lazyArchiveMember f && (priority f <? priority cf)%Z
           then ret (ReturnEarly None)
           else ret (FallThrough file false)
         else ret (FallThrough file false)
     | _ => ret (FallThrough file false)
     end) in
  match flow with
  | ReturnEarly p => ret p
  | FallThrough file overridesWeakDef =>
      let* _ := replaceSymbol name s
            (IsDefined (Build_Defined name file isec value size isWeakDef
               true isPrivateExtern true isThumb isReferencedDynamically
               noDeadStrip overridesWeakDef isWeakDefCanBeHidden
               (interposableFor isPrivateExtern))) in
      ret (Some name)
  end.

(** [s->includeInSymtab = includeInSymtab] writes through the pointer
    that [addDefined] returned. *)
Definition addSynthetic (name : string) (isec : option InputSection)
    (value : Z) (isPrivateExtern includeInSymtab referencedDynamically : bool)
    : M (option string) :=
  let* _ := assert (sectionIsSynthetic isec) in
  let* s := addDefined name None isec value 0 false isPrivateExtern false
              referencedDynamically false false in
  let* n := deref s in
  let* st := get in
  let* sym := deref (symMap st !! n) in
  match body sym with
  | IsDefined d =>
      let* _ := writeSlot n
                  {| isUsedInRegularObj := isUsedInRegularObj sym;
                     body := IsDefined (setIncludeInSymtab includeInSymtab d) |} in
      ret s
  | _ => crash NullDereference
  end.

Definition addUndefined (name : string) (file : option InputFile)
    (isWeakRef : bool) : M string :=
  let* (s, wasInserted) := insert name file in
  let refState := if isWeakRef then Weak else Strong in
  let* _ :=
    (if wasInserted then
       replaceSymbol name s
         (IsUndefined (Build_Undefined name file refState false))
     else
       match body s with
       | IsDylib dynsym => reference name s dynsym refState
       | IsUndefined undefined =>
           writeSlot name
             {| isUsedInRegularObj := isUsedInRegularObj s;
                body := IsUndefined (maxRefState refState undefined) |}
       | _ => ret tt
       end) in
  ret name.

(** [addDylib] builds the symbol in fresh storage and hands it to
    [symMap.insert], which leaves an entry that is already there alone. *)
Definition addDylib (name : string) (file : option InputFile)
    (isWeakDef isTlv : bool) : M string :=
  let* st := get in
  let* _ :=
    match symMap st !! name with
    | Some _ => ret tt
    | None =>
        replaceSymbol name {| isUsedInRegularObj := false; body := Blank |}
          (IsDylib {| dylibFile := file; dylibName := name;
                      dylibWeakDef := isWeakDef;
                      dylibRefState := Unreferenced; dylibTlv := isTlv |})
    end in
  ret name.

End Resolver.

(** [ArchiveFile::fetch], of InputFiles.cpp: it extracts the member and
    feeds its symbols to the table, through the [add*] entry points. *)
Class ArchiveLoader := {
  fetchArchiveMember : InputFile -> ArchiveSymbol -> M unit
}.

Section Lazy.
Context `{Collaborators} `{ArchiveLoader}.

(** [file->fetch(sym)], recorded. *)
Definition fetch (file : InputFile) (sym : ArchiveSymbol) : M unit :=
  let* _ := modify (fun st => setFetched (fetched st ++ [(file, sym)]) st) in
  fetchArchiveMember file sym.

Definition addLazyArchive (name : string) (file : InputFile)
    (sym : ArchiveSymbol) : M string :=
  let* (s, wasInserted) := insert name (Some file) in
  let* _ :=
    (if wasInserted then
       replaceSymbol name s
         (IsLazyArchive {| lazyArchiveFile := file; lazyArchiveSym := sym |})
     else
       match body s with
       | IsUndefined _ => fetch file sym
       | IsDylib dysym =>
           if dylibWeakDef dysym then
             match dylibRefState dysym with
             | Unreferenced =>
                 replaceSymbol name s
                   (IsLazyArchive {| lazyArchiveFile := file;
                                     lazyArchiveSym := sym |})
             | _ => fetch file sym
             end
           else ret tt
       | _ => ret tt
       end) in
  ret name.

End Lazy.

(** ** Strings, as the diagnostics use them *)

Definition newline : string := String (ascii_of_nat 10) EmptyString.
Definition dquote : string := String (ascii_of_nat 34) EmptyString.

(** [name.substr(i)] *)
Definition substrFrom (i : nat) (s : string) : string :=
  String.substring i (String.length s - i) s.

(** [s[i] = c], for [i] inside [s]. *)
Fixpoint setChar (s : string) (i : nat) (c : ascii) : string :=
  match s, i with
  | EmptyString, _ => EmptyString
  | String _ t, O => String c t
  | String a t, S j => String a (setChar t j c)
  end.

(** [s[i]]; the searches below only read inside the string. *)
Definition charAt (s : string) (i : nat) : ascii :=
  match String.get i s with
  | Some c => c
  | None => zero
  end.

(** The characters of [for (char c = '0'; c <= 'z'; ++c)]. *)
Definition candidateChars : list ascii :=
  map ascii_of_nat (seq 48 75).

(** [StringRef::equals_insensitive] compares the ASCII lower-case forms. *)
Definition toLowerAscii (c : ascii) : ascii :=
  let n := nat_of_ascii c in
  if ((65 <=? n) && (n <=? 90))%nat then ascii_of_nat (n + 32) else c.

Fixpoint toLower (s : string) : string :=
  match s with
  | EmptyString => EmptyString
  | String c t => String (toLowerAscii c) (toLower t)
  end.

Definition equals_insensitive (a b : string) : bool :=
  String.eqb (toLower a) (toLower b).

Definition startswith (p s : string) : bool := String.prefix p s.

(** [consume_front]: the string without the prefix, when it has it. *)
Definition consume_front (p s : string) : string :=
  if String.prefix p s then substrFrom (String.length p) s else s.

(** The first result of a scan that returns at its first hit. *)
Fixpoint firstSome {A B} (f : A -> option B) (l : list A) : option B :=
  match l with
  | [] => None
  | x :: l' =>
      match f x with
      | Some b => Some b
      | None => firstSome f l'
      end
  end.

(** ** Pending diagnostics *)

Definition warn (msg : string) : M unit :=
  modify (fun st => setDiagnostics (diagnostics st ++ [Warn msg]) st).

Definition error (msg : string) : M unit :=
  modify (fun st => setDiagnostics (diagnostics st ++ [Error msg]) st).

(** The body of a [for] over a container, run on each element in turn. *)
Fixpoint forEach {A} (f : A -> M unit) (l : list A) : M unit :=
  match l with
  | [] => ret tt
  | x :: l' => let* _ := f x in forEach f l'
  end.

Section Diagnostics.
Context `{Collaborators}.

Definition reportDuplicate (duplicate : DuplicateSymbolDiag) : M unit :=
  let* st := get in
  let* sym := deref (symMap st !! dupSym duplicate) in
  if negb (deadStripDuplicates config) || isLive sym then
    let message :=
      "duplicate symbol: " ++ toStringSymbol sym ++ newline ++ ">>> defined in " in
    let message :=
      if negb (String.eqb (fst (src1 duplicate)) "")
      then message ++ fst (src1 duplicate) ++ newline ++ ">>>            "
      else message in
    let message := message ++ snd (src1 duplicate) ++ newline ++ ">>> defined in " in
    let message :=
      if negb (String.eqb (fst (src2 duplicate)) "")
      then message ++ fst (src2 duplicate) ++ newline ++ ">>>            "
      else message in
    warn (message ++ snd (src2 duplicate))
  else ret tt.

Definition reportPendingDuplicateSymbols : M unit :=
  let* st := get in
  forEach reportDuplicate (dupSymDiags st).

Definition canSuggestExternCForCXX (ref def : string) : bool :=
  match getFunctionName def with
  | None => false
  | Some buf => String.eqb ref buf
  end.

(** The [DenseMap] of the non-external [Defined]s of the file of [sym];
    [try_emplace] keeps the entry a name already has. *)
Definition localDefinedMap (st : State) (sym : Symbol) : gmap string SymRef :=
  match getFile sym with
  | Some file =>
      if isa ObjKind file then
        fold_left
          (fun (map : gmap string SymRef) (s : option SymRef) =>
             match s with
             | Some (Local d) =>
                 if negb (localIsExternal d) then
                   match map !! localName d with
                   | Some _ => map
                   | None => <[localName d := Local d]> map
                   end
                 else map
             | Some (Global n) =>
                 match symMap st !! n with
                 | Some {| body := IsDefined d |} =>
                     if negb (isExternal d) then
                       match map !! definedName d with
                       | Some _ => map
                       | None => <[definedName d := Global n]> map
                       end
                     else map
                 | _ => map
                 end
             | None => map
             end)
          (symbols file) ∅
      else ∅
  | None => ∅
  end.

(** The lambda [suggest] of [getAlternativeSpelling]. *)
Definition suggest (st : State) (map : gmap string SymRef) (newName : string)
    : option SymRef :=
  match map !! newName with
  | Some s => Some s
  | None =>
      match find newName st with
      | Some s => if negb (isUndefined s) then Some (Global newName) else None
      | None => None
      end
  end.

(** One round of the edit-distance loop, for the index [i]. *)
Definition spellingsAt (st : State) (map : gmap string SymRef) (name : string)
    (i : nat) : option SymRef :=
  let e := String.length name in
  (* Insert a character before name[i]. *)
  let newName := String.substring 0 i name ++ "0" ++ substrFrom i name in
  match firstSome (fun c => suggest st map (setChar newName i c)) candidateChars with
  | Some s => Some s
  | None =>
      if (i =? e)%nat then None else
      (* Substitute name[i]. *)
      let newName := name in
      match firstSome (fun c => suggest st map (setChar newName i c)) candidateChars with
      | Some s => Some s
      | None =>
          let newName := setChar newName i "z"%char in
          (* Transpose name[i] and name[i+1]. *)
          match
            (if (i + 1 <? e)%nat then
               let newName := setChar newName i (charAt name (i + 1)) in
               let newName := setChar newName (i + 1) (charAt name i) in
               suggest st map newName
             else None)
          with
          | Some s => Some s
          | None =>
              (* Delete name[i]. *)
              let newName := String.substring 0 i name ++ substrFrom (i + 1) name in
              suggest st map newName
          end
      end
  end.

(** [getAlternativeSpelling] returns the suggestion with the values it
    leaves in [pre_hint] and [post_hint]. *)
Definition getAlternativeSpelling (st : State) (sym : Symbol)
    (pre_hint post_hint : string) : option SymRef * string * string :=
  let map := localDefinedMap st sym in
  let name := getName sym in
  match firstSome (spellingsAt st map name) (seq 0 (String.length name + 1)) with
  | Some s => (Some s, pre_hint, post_hint)
  | None =>
  (* Case mismatch, e.g. Foo vs FOO. *)
  match firstSome (fun it : string * SymRef =>
                     if equals_insensitive name (fst it) then Some (snd it) else None)
                  (map_to_list map) with
  | Some s => (Some s, pre_hint, post_hint)
  | None =>
  match firstSome (fun iter : string * Symbol =>
                     if negb (isUndefined (snd iter))
                        && equals_insensitive name (getName (snd iter))
                     then Some (Global (fst iter)) else None)
                  (map_to_list (symMap st)) with
  | Some s => (Some s, pre_hint, post_hint)
  | None =>
  (* The reference may be a mangled name while the definition is not. *)
  if startswith "__Z" name then
    match getFunctionName name with
    | Some buf =>
        match suggest st map ("_" ++ buf) with
        | Some s => (Some s, ": extern " ++ dquote ++ "C" ++ dquote ++ " ", post_hint)
        | None => (None, pre_hint, post_hint)
        end
    | None => (None, pre_hint, post_hint)
    end
  else
    let name_without_underscore := consume_front "_" name in
    let s :=
      match firstSome (fun it : string * SymRef =>
                         if canSuggestExternCForCXX name_without_underscore (fst it)
                         then Some (snd it) else None)
                      (map_to_list map) with
      | Some s => Some s
      | None =>
          firstSome (fun iter : string * Symbol =>
                       if canSuggestExternCForCXX name_without_underscore
                            (getName (snd iter))
                       then Some (Global (fst iter)) else None)
                    (map_to_list (symMap st))
      end in
    match s with
    | Some s => (Some s, " to declare ", " as extern " ++ dquote ++ "C" ++ dquote ++ "?")
    | None => (None, pre_hint, post_hint)
    end
  end end end.

Definition maxUndefinedReferences : nat := 3.

(** [corrected->getFile()] of a symbol that only its file holds is the
    file that lists it, the file of [sym]. *)
Definition reportUndefinedSymbol (sym : Symbol) (locations : UndefinedDiag)
    (correctSpelling : bool) : M unit :=
  let message := "undefined symbol" in
  let message :=
    if archMultiple config
    then message ++ " for arch " ++ getArchitectureName (arch config)
    else message in
  let message := message ++ ": " ++ toStringSymbol sym in
  let others := take maxUndefinedReferences (otherReferences locations) in
  let message :=
    fold_left (fun message loc => message ++ newline ++ ">>> referenced by " ++ loc)
      others message in
  let i := length others in
  let codes := take (maxUndefinedReferences - i) (codeReferences locations) in
  let message :=
    fold_left
      (fun message loc =>
         let message := message ++ newline ++ ">>> referenced by " in
         let src := isecSourceLocation (refIsec loc) (refOffset loc) in
         let message :=
           if negb (String.eqb src "")
           then message ++ src ++ newline ++ ">>>               "
           else message in
         message ++ isecLocation (refIsec loc) (refOffset loc))
      codes message in
  let i := (i + length codes)%nat in
  let totalReferences :=
    (length (otherReferences locations) + length (codeReferences locations))%nat in
  let message :=
    if (i <? totalReferences)%nat
    then message ++ newline ++ ">>> referenced "
         ++ pretty (totalReferences - i)%nat ++ " more times"
    else message in
  let* st := get in
  let* message :=
    (if correctSpelling then
       match getAlternativeSpelling st sym ": " "" with
       | (Some corrected, pre_hint, post_hint) =>
           match corrected with
           | Local d =>
               let message :=
                 message ++ newline ++ ">>> did you mean" ++ pre_hint
                 ++ toStringLocal d ++ post_hint in
               ret (match getFile sym with
                    | Some f => message ++ newline ++ ">>> defined in: "
                                ++ toStringFile (Some f)
                    | None => message
                    end)
           | Global n =>
               let* c := deref (symMap st !! n) in
               let message :=
                 message ++ newline ++ ">>> did you mean" ++ pre_hint
                 ++ toStringSymbol c ++ post_hint in
               ret (match getFile c with
                    | Some f => message ++ newline ++ ">>> defined in: "
                                ++ toStringFile (Some f)
                    | None => message
                    end)
           end
       | (None, _, _) => ret message
       end
     else ret message) in
  match undefinedSymbolTreatment config with
  | treat_error => error message
  | treat_warning => warn message
  | _ => crash AssertionFailure
  end.

(** The loop of [reportPendingUndefinedSymbols] over [llvm::enumerate(undefs)],
    from the index [i] on. *)
Fixpoint reportUndefinedFrom (i : nat) (l : list (string * UndefinedDiag)) : M unit :=
  match l with
  | [] => ret tt
  | undef :: l' =>
      let* st := get in
      let* sym := deref (symMap st !! fst undef) in
      let* _ := reportUndefinedSymbol sym (snd undef) (i <? 2)%nat in
      reportUndefinedFrom (S i) l'
  end.

Definition reportPendingUndefinedSymbols : M unit :=
  let* st := get in
  let* _ := reportUndefinedFrom 0 (undefs st) in
  modify (setUndefs []).

End Diagnostics.

(** ** The other entry points of the resolver *)

(** [defined->overridesWeakDef = b] *)
Definition setOverridesWeakDef (b : bool) (d : Defined) : Defined :=
  {| definedName := definedName d; definedFile := definedFile d;
     isec := isec d; value := value d; size := size d; weakDef := weakDef d;
     isExternal := isExternal d; privateExtern := privateExtern d;
     includeInSymtab := includeInSymtab d; thumb := thumb d;
     referencedDynamically := referencedDynamically d;
     noDeadStrip := noDeadStrip d; overridesWeakDef := b;
     weakDefCanBeHidden := weakDefCanBeHidden d;
     interposable := interposable d |}.

(** The storage that [new SymbolUnion()] returns. *)
Definition freshSlot : Symbol := {| isUsedInRegularObj := false; body := Blank |}.

(** The slot that [symMap.insert(accessor, {name, sym})] leaves the
    accessor on: the entry that is there, or else the new one, [sym]. *)
Definition insertedOr (name : string) (sym : Symbol) (st : State) : Symbol :=
  match symMap st !! name with
  | Some existing => existing
  | None => sym
  end.

Section OtherEntryPoints.
Context `{Collaborators}.

Definition addDefinedEager (name : string) (file : option InputFile)
    (isec : option InputSection) (value size : Z)
    (isWeakDef isPrivateExtern isThumb isReferencedDynamically noDeadStrip
     isWeakDefCanBeHidden : bool) : M (option string) :=
  let overridesWeakDef := false in
  let* st := get in
  let s := insertedOr name freshSlot st in
  let* _ := writeSlot name s in
  let defined :=
    IsDefined (Build_Defined name file isec value size isWeakDef
                 true isPrivateExtern true isThumb isReferencedDynamically
                 noDeadStrip overridesWeakDef isWeakDefCanBeHidden
                 (interposableFor isPrivateExtern)) in
  let* _ := replaceSymbol name s defined in
  let* _ := writeSlot name
              (markUsed file {| isUsedInRegularObj := isUsedInRegularObj s;
                                body := defined |}) in
  ret (Some name).

(** Modelled from the spec: [Defined::isWeakDef()] is declared in
    Symbols.h, which is not among the sources; it reads the [weakDef] flag
    of the data model ("shares the source's section, value, size, and flag
    set").  [src] is the [Defined] that the pointer is on. *)
Definition aliasDefined (src : Defined) (target : string)
    (newFile : option InputFile) (makePrivateExtern : bool) : M (option string) :=
  let isPrivateExtern := makePrivateExtern || privateExtern src in
  addDefined target newFile (isec src) (value src) (size src) (weakDef src)
    isPrivateExtern (thumb src) (referencedDynamically src) (noDeadStrip src)
    (weakDefCanBeHidden src).

End OtherEntryPoints.

(** [addUndefinedEager] builds the symbol in fresh storage and hands it
    to [symMap.insert]; the flag is set on the entry the accessor is on. *)
Definition addUndefinedEager (name : string) (file : option InputFile)
    (isWeakRef : bool) : M string :=
  let refState := if isWeakRef then Weak else Strong in
  let* st := get in
  let s := insertedOr name
             {| isUsedInRegularObj := false;
                body := IsUndefined (Build_Undefined name file refState false) |}
             st in
  let* _ := writeSlot name (markUsed file s) in
  ret name.

(** [fallThrough] tells whether the dispatch on the existing variant ends
    at the [replaceSymbol] call below it or in a [return s]. *)
Definition addCommon (name : string) (file : option InputFile)
    (size align : Z) (isPrivateExtern : bool) : M string :=
  let* (s, wasInserted) := insert name file in
  let common' := IsCommon (Build_CommonSymbol name file size align isPrivateExtern) in
  let* fallThrough :=
    (if wasInserted then ret true else
     match body s with
     | IsCommon common =>
         if (size <? commonSize common)%Z then ret false
         else
           let* cf := deref (commonFile common) in
           if lazyArchiveMember cf then
             let* f := deref file in
             if lazyArchiveMember f && (priority f <? priority cf)%Z
             then ret false
             else ret true
           else ret true
     | IsDefined defined =>
         let* df := deref (definedFile defined) in
         let* _ :=
           (if lazyArchiveMember df then
              let* f := deref file in
              if lazyArchiveMember f then
                if (priority f <? priority df)%Z
                then replaceSymbol name s common'
                else ret tt
              else replaceSymbol name s common'
            else ret tt) in
         ret false
     | _ => ret true
     end) in
  let* _ := (if fallThrough then replaceSymbol name s common' else ret tt) in
  ret name.

Definition addCommonEager (name : string) (file : option InputFile)
    (size align : Z) (isPrivateExtern : bool) : M string :=
  let* st := get in
  let s := insertedOr name
             {| isUsedInRegularObj := false;
                body := IsCommon (Build_CommonSymbol name file size align
                                    isPrivateExtern) |}
             st in
  let* _ := writeSlot name (markUsed file s) in
  ret name.

(** Modelled from the spec: [DylibSymbol::isDynamicLookup()] is declared
    in Symbols.h, which is not among the sources.  The spec: "A null file
    means dynamic lookup." *)
Definition isDynamicLookup (d : DylibSymbol) : bool := isNull (dylibFile d).

Definition resolveDylib (name : string) (file : option InputFile)
    (isWeakDef isTlv : bool) : M string :=
  let* (s, wasInserted) := insert name file in
  let* refState :=
    (if wasInserted then ret Unreferenced else
     match body s with
     | IsDefined defined =>
         let* _ :=
           (if isWeakDef && negb (weakDef defined) then
              writeSlot name
                {| isUsedInRegularObj := isUsedInRegularObj s;
                   body := IsDefined (setOverridesWeakDef true defined) |}
            else ret tt) in
         ret Unreferenced
     | IsUndefined undefined => ret (refState undefined)
     | IsDylib dysym => ret (dylibRefState dysym)
     | _ => ret Unreferenced
     end) in
  let fileIsDynamicLookup := isNull file in
  let* _ :=
    (if wasInserted || isUndefined s
        || match body s with
           | IsDylib d =>
               (negb isWeakDef && dylibWeakDef d)
               || (negb fileIsDynamicLookup && isDynamicLookup d)
           | _ => false
           end
     then
       let* _ := match body s with
                 | IsDylib dynsym => unreference dynsym
                 | _ => ret tt
                 end in
       replaceSymbol name s
         (IsDylib (Build_DylibSymbol file name isWeakDef refState isTlv))
     else ret tt) in
  ret name.

Definition addDynamicLookup (name : string) : M string :=
  resolveDylib name None false false.

(** [extract], of InputFiles.cpp: it loads the lazy object file and feeds
    its symbols to the table. *)
Class ObjectLoader := {
  extract : InputFile -> string -> M unit
}.

Section LazyObjects.
Context `{ObjectLoader}.

Definition addLazyObject (name : string) (file : InputFile) : M string :=
  let* (s, wasInserted) := insert name (Some file) in
  let* _ :=
    (if wasInserted then
       replaceSymbol name s
         (IsLazyObject {| lazyObjectFile := file; lazyObjectName := name |})
     else
       match body s with
       | IsUndefined _ => extract file name
       | IsDylib dysym =>
           if dylibWeakDef dysym then
             match dylibRefState dysym with
             | Unreferenced =>
                 replaceSymbol name s
                   (IsLazyObject {| lazyObjectFile := file;
                                    lazyObjectName := name |})
             | _ => extract file name
             end
           else ret tt
       | _ => ret tt
       end) in
  ret name.

End LazyObjects.

(** ** Recovery of undefined symbols *)

Inductive Boundary := BoundaryStart | BoundaryEnd.

(** [segSect.split('$')]: the parts before and after the first [c], the
    whole string and the empty one when there is none. *)
Fixpoint splitFirst (c : ascii) (s : string) : string * string :=
  match s with
  | EmptyString => (EmptyString, EmptyString)
  | String a t =>
      if Ascii.eqb a c then (EmptyString, t)
      else let (l, r) := splitFirst c t in (String a l, r)
  end.

(** The field of [config] that [-U] fills. *)
Class DynamicLookups := {
  explicitDynamicLookups : gset string
}.

(** What the boundary handlers use of the output sections and segments,
    which other translation units define.  [Layout] is the state of those
    objects; [OutputSection], [OutputSegment] and [ConcatInputSection] are
    pointers to them that are not null.  [syntheticSections] lists
    [segname], [name] and [isec->parent] of each synthetic section; the
    other members are the calls and the assignments that the handlers
    make. *)
Class OutputLayout := {
  Layout : Type;
  OutputSection : Type;
  OutputSegment : Type;
  ConcatInputSection : Type;
  syntheticSections : Layout -> list (string * string * option OutputSection);
  makeSyntheticInputSection :
    string -> string -> Layout -> ConcatInputSection * Layout;
  setLive : ConcatInputSection -> Layout -> Layout;
  getOrCreateForInput : ConcatInputSection -> Layout -> OutputSection * Layout;
  setParent : ConcatInputSection -> OutputSection -> Layout -> Layout;
  pushInputSection : ConcatInputSection -> Layout -> Layout;
  pushSectionStartSymbol : OutputSection -> option string -> Layout -> Layout;
  pushSectionEndSymbol : OutputSection -> option string -> Layout -> Layout;
  getOrCreateOutputSegment : string -> Layout -> OutputSegment * Layout;
  pushSegmentStartSymbol : OutputSegment -> option string -> Layout -> Layout;
  pushSegmentEndSymbol : OutputSegment -> option string -> Layout -> Layout
}.

(** [undefs[&sym]] followed by an update of the entry: [operator[]] of a
    [MapVector] finds the entry of the key or appends an empty one. *)
Fixpoint updateUndefs (sym : string) (f : UndefinedDiag -> UndefinedDiag)
    (l : list (string * UndefinedDiag)) : list (string * UndefinedDiag) :=
  match l with
  | [] => [(sym, f {| codeReferences := []; otherReferences := [] |})]
  | (k, d) :: l' =>
      if String.eqb k sym then (k, f d) :: l'
      else (k, d) :: updateUndefs sym f l'
  end.

Section Recovery.
Context `{Collaborators} `{DynamicLookups} `{OutputLayout}.

(** [sym] is the [Undefined] that the reference is on. *)
Definition createBoundarySymbol (sym : Symbol) : M (option string) :=
  addSynthetic (getName sym) None (to_uint64 (-1)) true false false.

Definition handleSectionBoundarySymbol (sym : Symbol) (segSect : string)
    (which : Boundary) (layout : Layout) : M Layout :=
  let (segName, sectName) := splitFirst "$"%char segSect in
  let osec :=
    match List.find (fun ssec : string * string * option OutputSection =>
                       String.eqb (fst (fst ssec)) segName
                       && String.eqb (snd (fst ssec)) sectName)
                    (syntheticSections layout) with
    | Some ssec => snd ssec
    | None => None
    end in
  let* (osec, layout) :=
    match osec with
    | Some osec => ret (osec, layout)
    | None =>
        let (isec, layout) := makeSyntheticInputSection segName sectName layout in
        let* _ := assert (isLive sym) in
        let layout := setLive isec layout in
        let (osec, layout) := getOrCreateForInput isec layout in
        let layout := setParent isec osec layout in
        let layout := pushInputSection isec layout in
        ret (osec, layout)
    end in
  let* boundary := createBoundarySymbol sym in
  ret (match which with
       | BoundaryStart => pushSectionStartSymbol osec boundary layout
       | BoundaryEnd => pushSectionEndSymbol osec boundary layout
       end).

Definition handleSegmentBoundarySymbol (sym : Symbol) (segName : string)
    (which : Boundary) (layout : Layout) : M Layout :=
  let (seg, layout) := getOrCreateOutputSegment segName layout in
  let* boundary := createBoundarySymbol sym in
  ret (match which with
       | BoundaryStart => pushSegmentStartSymbol seg boundary layout
       | BoundaryEnd => pushSegmentEndSymbol seg boundary layout
       end).

(** [sym] is the slot of the [Undefined]; its name is read once, the slot
    being the same until the first call that writes to the table. *)
Definition recoverFromUndefinedSymbol (sym : string) (layout : Layout)
    : M (bool * Layout) :=
  let* st := get in
  let* undefined := deref (symMap st !! sym) in
  let name := getName undefined in
  if startswith "section$start$" name then
    let* layout := handleSectionBoundarySymbol undefined
                     (consume_front "section$start$" name) BoundaryStart layout in
    ret (true, layout)
  else if startswith "section$end$" name then
    let* layout := handleSectionBoundarySymbol undefined
                     (consume_front "section$end$" name) BoundaryEnd layout in
    ret (true, layout)
  else if startswith "segment$start$" name then
    let* layout := handleSegmentBoundarySymbol undefined
                     (consume_front "segment$start$" name) BoundaryStart layout in
    ret (true, layout)
  else if startswith "segment$end$" name then
    let* layout := handleSegmentBoundarySymbol undefined
                     (consume_front "segment$end$" name) BoundaryEnd layout in
    ret (true, layout)
  else if startswith "___dtrace_" name then ret (true, layout)
  else if bool_decide (name ∈ explicitDynamicLookups) then
    let* _ := addDynamicLookup name in
    ret (true, layout)
  else
    match undefinedSymbolTreatment config with
    | treat_dynamic_lookup | treat_suppress =>
        let* _ := addDynamicLookup name in
        ret (true, layout)
    | treat_warning =>
        let* _ := addDynamicLookup name in
        ret (false, layout)
    | treat_error => ret (false, layout)
    end.

(** [treatUndefinedSymbol(sym, source)] *)
Definition treatUndefinedSymbol (sym : string) (source : string)
    (layout : Layout) : M Layout :=
  let* (recovered, layout) := recoverFromUndefinedSymbol sym layout in
  if recovered then ret layout
  else
    let* _ := modify (fun st =>
                setUndefs
                  (updateUndefs sym
                     (fun d => {| codeReferences := codeReferences d;
                                  otherReferences := otherReferences d ++ [source] |})
                     (undefs st)) st) in
    ret layout.

(** [treatUndefinedSymbol(sym, isec, offset)] *)
Definition treatUndefinedSymbolAt (sym : string) (isec : InputSection)
    (offset : Z) (layout : Layout) : M Layout :=
  let* (recovered, layout) := recoverFromUndefinedSymbol sym layout in
  if recovered then ret layout
  else
    let* _ := modify (fun st =>
                setUndefs
                  (updateUndefs sym
                     (fun d => {| codeReferences :=
                                    codeReferences d
                                    ++ [{| refIsec := isec; refOffset := offset |}];
                                  otherReferences := otherReferences d |})
                     (undefs st)) st) in
    ret layout.

End Recovery.

(** ** Sample inputs *)

(** Collaborators for the examples: names print as they are, there are no
    source locations, every symbol is live, and the demangler knows the
    one mangled name the examples use. *)
Definition plainCollaborators : Collaborators :=
  {| config := {| namespaceKind := twolevel; outputType := MH_EXECUTE;
                  undefinedSymbolTreatment := treat_error;
                  archMultiple := false; arch := 0%nat;
                  deadStripDuplicates := false |};
     toStringFile := fun f => match f with
                              | None => "<internal>"
                              | Some f => fileName f
                              end;
     toStringSymbol := getName;
     toStringLocal := localName;
     definedSourceLocation := fun _ => "";
     isecSourceLocation := fun _ _ => "";
     isecLocation := fun i _ => isecName i;
     isLive := fun _ => true;
     getArchitectureName := fun _ => "arm64";
     getFunctionName := fun s => if String.eqb s "__Z3foov" then Some "foo" else None |}.

(** An archive loader that has nothing to load. *)
Definition idleLoader : ArchiveLoader :=
  {| fetchArchiveMember := fun _ _ => ret tt |}.

Definition mkFile (name : string) (k : Kind) (p : Z) (lazy : bool) : InputFile :=
  {| fileName := name; kind := k; priority := p; lazyArchiveMember := lazy;
     symbols := [] |}.

Definition objA : InputFile := mkFile "a.o" ObjKind 1 false.
Definition objB : InputFile := mkFile "b.o" ObjKind 2 false.
Definition objC : InputFile := mkFile "c.o" ObjKind 3 false.
Definition dylibA : InputFile := mkFile "libA.dylib" DylibKind 4 false.
Definition bitcodeA : InputFile := mkFile "a.bc" BitcodeKind 1 false.
Definition memberX : InputFile := mkFile "libx.a(x.o)" ObjKind 1 true.
Definition memberY : InputFile := mkFile "liby.a(y.o)" ObjKind 2 true.
Definition archiveL : InputFile := mkFile "libl.a" ArchiveKind 5 false.

Definition cookieH : ArchiveSymbol :=
  {| archiveSymName := "_h"; archiveSymIndex := 0 |}.

(** A table with the one slot [name], holding [b]. *)
Definition oneSlot (name : string) (b : SymBody) : State :=
  setSymMap {[ name := {| isUsedInRegularObj := false; body := b |} ]} emptyState.

Definition weakDylibF : DylibSymbol :=
  {| dylibFile := Some dylibA; dylibName := "_f"; dylibWeakDef := true;
     dylibRefState := Unreferenced; dylibTlv := false |}.

Definition weakInA : Defined :=
  {| definedName := "_s"; definedFile := Some objA; isec := None; value := 0;
     size := 0; weakDef := true; isExternal := true; privateExtern := false;
     includeInSymtab := true; thumb := false; referencedDynamically := false;
     noDeadStrip := false; overridesWeakDef := false;
     weakDefCanBeHidden := false; interposable := false |}.

(** The strong definition of [name] that [addDefined] builds for [file]
    with no section and all flags off, under [plainCollaborators]. *)
Definition strongIn (name : string) (file : InputFile) : Defined :=
  {| definedName := name; definedFile := Some file; isec := None; value := 0;
     size := 0; weakDef := false; isExternal := true; privateExtern := false;
     includeInSymtab := true; thumb := false; referencedDynamically := false;
     noDeadStrip := false; overridesWeakDef := false;
     weakDefCanBeHidden := false; interposable := false |}.

(** The variant in the slot [name] when a run has ended. *)
Definition slotAfter {A} (r : Res (A * State)) (name : string) : option SymBody :=
  match r with
  | Ok (_, st) => body <$> symMap st !! name
  | Crash _ => None
  end.

Definition commonInY : CommonSymbol :=
  {| commonName := "_c"; commonFile := Some memberY; commonSize := 8;
     commonAlign := 3; commonPrivateExtern := false |}.

(** The state a run ends in; the state it started from if it crashes. *)
Definition stateAfter {A} (m : M A) (st : State) : State :=
  match m st with
  | Ok (_, st') => st'
  | Crash _ => st
  end.

(** Scenario S2: two strong definitions of [_g], from [a.o] and then from
    [b.o]. *)
Definition afterS2 : State :=
  stateAfter
    (let* _ := @addDefined plainCollaborators "_g" (Some objA) None 0 0
                 false false false false false false in
     @addDefined plainCollaborators "_g" (Some objB) None 0 0
       false false false false false false)
    emptyState.

(** Scenario S6: [_printf] is defined, [_prntf] is referenced from [c.o]
    and pending as undefined. *)
Definition afterS6 : State :=
  stateAfter
    (let* _ := @addDefined plainCollaborators "_printf" (Some objA) None 0 0
                 false false false false false false in
     let* _ := addUndefined "_prntf" (Some objC) false in
     modify (setUndefs [("_prntf", {| codeReferences := [];
                                      otherReferences := ["c.o"] |})]))
    emptyState.

(** [_foo] and the mangled [__Z3foov] are both referenced from [c.o], and
    neither is defined. *)
Definition twoUndefined : State :=
  stateAfter
    (let* _ := addUndefined "_foo" (Some objC) false in
     addUndefined "__Z3foov" (Some objC) false)
    emptyState.

(** The same table, with [_foo] pending as undefined. *)
Definition twoUndefinedPending : State :=
  setUndefs [("_foo", {| codeReferences := []; otherReferences := ["c.o"] |})]
    twoUndefined.

Definition undefinedFoo : Symbol :=
  {| isUsedInRegularObj := true;
     body := IsUndefined {| undefName := "_foo"; undefFile := Some objC;
                            refState := Strong; wasBitcodeSymbol := false |} |}.

(** The [refState] of a slot that holds an [Undefined] or a
    [DylibSymbol]. *)
Definition slotRefState (s : Symbol) : option RefState :=
  match body s with
  | IsUndefined u => Some (refState u)
  | IsDylib d => Some (dylibRefState d)
  | _ => None
  end.

(** The state an [addUndefined] call asks for. *)
Definition requested (call : option InputFile * bool) : RefState :=
  if snd call then Weak else Strong.

(** A sequence of [addUndefined] calls on one name, each with its file
    and [isWeakRef]. *)
Definition addUndefinedAll (name : string)
    (calls : list (option InputFile * bool)) : M unit :=
  forEach (fun call => let* _ := addUndefined name (fst call) (snd call) in ret tt)
    calls.

(** The maximum of [r] and the states that [calls] ask for. *)
Definition maxRequested (r : RefState) (calls : list (option InputFile * bool))
    : RefState :=
  fold_left (fun acc call => RefState_max acc (requested call)) calls r.

(** A suggestion that "exists as a non-[Undefined] symbol": a [Defined]
    of the file, or a slot of the table that does not hold an
    [Undefined]. *)
Definition qualifies (st : State) (r : SymRef) : Prop :=
  match r with
  | Local _ => True
  | Global n => exists s, symMap st !! n = Some s /\ isUndefined s = false
  end.

(** The high byte of the rank, as the table of the specification gives it
    for a file that is not null. *)
Definition rankClass (f : InputFile) (isCommon isWeak : bool) : Z :=
  if isCommon then (if lazyArchiveMember f then 6 else 5)
  else if isa DylibKind f || lazyArchiveMember f
       then (if isWeak then 4 else 3)
       else (if isWeak then 2 else 1).

(** The priorities for which [(k << 24) + priority] stays below [2^31],
    so that the sum is the same in every integer type of 32 bits or more. *)
Definition priorityBound : Z := 2 ^ 31 - 7 * 2 ^ 24.

(** The flag that the slot of [name] has before a call; a new slot
    starts without it. *)
Definition flagBefore (st : State) (name : string) : bool :=
  match symMap st !! name with
  | Some sym => isUsedInRegularObj sym
  | None => false
  end.

(** What an entry point called with [name] and [file] does when it
    returns: it writes to the slot of [name] alone, and leaves there a
    symbol that is used in a regular object if it was or if [file] is null
    or an object file; the undefined symbols that are pending, the
    diagnostics and the members that were fetched are as they were. *)
Definition writesSlot {A} (m : M A) (name : string) (file : option InputFile)
    : Prop :=
  forall st a st',
    m st = Ok (a, st') ->
    exists sym',
      symMap st' = <[name := sym']> (symMap st)
      /\ isUsedInRegularObj sym' = flagBefore st name || fromRegularObj file
      /\ undefs st' = undefs st
      /\ diagnostics st' = diagnostics st
      /\ fetched st' = fetched st.

(** Whether two slots hold the same variant, the [kind()] that
    [dyn_cast] tests. *)
Definition sameVariant (a b : SymBody) : bool :=
  match a, b with
  | Blank, Blank | IsDefined _, IsDefined _ | IsUndefined _, IsUndefined _
  | IsCommon _, IsCommon _ | IsDylib _, IsDylib _
  | IsLazyArchive _, IsLazyArchive _ | IsLazyObject _, IsLazyObject _ => true
  | _, _ => false
  end.

(** Whether a lazy member is demanded by what the slot holds: by an
    [Undefined], or by a weak [DylibSymbol] that is referenced. *)
Definition demandsMember (b : SymBody) : bool :=
  match b with
  | IsUndefined _ => true
  | IsDylib d =>
      dylibWeakDef d
      && match dylibRefState d with Unreferenced => false | _ => true end
  | _ => false
  end.

(** Whether the slot holds a weak [DylibSymbol] that nothing refers to. *)
Definition unreferencedWeakDylib (b : SymBody) : bool :=
  match b with
  | IsDylib d =>
      dylibWeakDef d
      && match dylibRefState d with Unreferenced => true | _ => false end
  | _ => false
  end.

(** An archive loader for the examples: the member that it fetches is
    [libx.a(x.o)], which has a strong definition of the symbol. *)
Definition definingLoader : ArchiveLoader :=
  {| fetchArchiveMember := fun _ sym =>
       let* _ := @addDefined plainCollaborators (archiveSymName sym)
                   (Some memberX) None 0 0 false false false false false false in
       ret tt |}.

(** An object loader that has nothing to load. *)
Definition idleObjectLoader : ObjectLoader :=
  {| extract := fun _ _ => ret tt |}.

(** A symbol that is "either in the symbol table, or in the same file of
    [sym]": a slot of the table, or a [Defined] that is not external and
    that the object file of [sym] lists. *)
Definition inTableOrFile (st : State) (sym : Symbol) (r : SymRef) : Prop :=
  match r with
  | Global n => is_Some (symMap st !! n)
  | Local d =>
      localIsExternal d = false
      /\ exists file,
           getFile sym = Some file /\ isa ObjKind file = true
           /\ In (Some (Local d)) (symbols file)
  end.

(** An output layout for the examples: it keeps the list of the symbols
    pushed, each with the section or segment it was pushed to. *)
Definition listLayout : OutputLayout :=
  {| Layout := list (string * option string);
     OutputSection := string;
     OutputSegment := string;
     ConcatInputSection := string;
     syntheticSections := fun _ => [("__TEXT", "__cstring", Some "__TEXT,__cstring")];
     makeSyntheticInputSection := fun seg sect l => (seg ++ "," ++ sect, l);
     setLive := fun _ l => l;
     getOrCreateForInput := fun isec l => (isec, l);
     setParent := fun _ _ l => l;
     pushInputSection := fun _ l => l;
     pushSectionStartSymbol := fun o d l => (l ++ [(String.append "start of " o, d)])%list;
     pushSectionEndSymbol := fun o d l => (l ++ [(String.append "end of " o, d)])%list;
     getOrCreateOutputSegment := fun seg l => (seg, l);
     pushSegmentStartSymbol := fun o d l => (l ++ [(String.append "start of " o, d)])%list;
     pushSegmentEndSymbol := fun o d l => (l ++ [(String.append "end of " o, d)])%list |}.

Definition noDynamicLookups : DynamicLookups :=
  {| explicitDynamicLookups := ∅ |}.

(** The names that [recoverFromUndefinedSymbol] takes for boundary
    symbols and for dtrace probes. *)
Definition isSectionBoundaryName (name : string) : bool :=
  startswith "section$start$" name || startswith "section$end$" name.

Definition isSegmentBoundaryName (name : string) : bool :=
  startswith "segment$start$" name || startswith "segment$end$" name.

Definition isDtraceName (name : string) : bool := startswith "___dtrace_" name.

(** The [Defined] that [createBoundarySymbol] leaves in the slot of the
    [Undefined] [u] named [name]. *)
Definition boundarySymbol `{Collaborators} (name : string) (u : Undefined)
    : Symbol :=
  {| isUsedInRegularObj := true;
     body := IsDefined
               {| definedName := name;
                  definedFile :=
                    if wasBitcodeSymbol u then undefFile u else None;
                  isec := None; value := 2 ^ 64 - 1; size := 0;
                  weakDef := false; isExternal := true; privateExtern := true;
                  includeInSymtab := false; thumb := false;
                  referencedDynamically := false; noDeadStrip := false;
                  overridesWeakDef := false; weakDefCanBeHidden := false;
                  interposable := interposableFor true |} |}.

(** Whether [recoverFromUndefinedSymbol] installs a dynamic lookup for the
    plain name [name], and whether [treatUndefinedSymbol] keeps the
    reference for a diagnostic. *)
Definition installsLookup `{Collaborators} `{DynamicLookups} (name : string)
    : bool :=
  bool_decide (name ∈ explicitDynamicLookups)
  || match undefinedSymbolTreatment config with
     | treat_error => false
     | _ => true
     end.

Definition keepsPending `{Collaborators} `{DynamicLookups} (name : string)
    : bool :=
  negb (bool_decide (name ∈ explicitDynamicLookups))
  && match undefinedSymbolTreatment config with
     | treat_error | treat_warning => true
     | _ => false
     end.

Definition isWarn (d : Diagnostic) : bool :=
  match d with Warn _ => true | Error _ => false end.

(** The test of [reportPendingDuplicateSymbols] on a record. *)
Definition reportsDuplicate `{Collaborators} (st : State)
    (d : DuplicateSymbolDiag) : bool :=
  negb (deadStripDuplicates config)
  || match symMap st !! dupSym d with
     | Some sym => isLive sym
     | None => false
     end.

(** The severity that the policy gives to the diagnostic of an undefined
    symbol. *)
Definition severityOf (t : UndefinedSymbolTreatment) (d : Diagnostic) : bool :=
  match t, d with
  | treat_error, Error _ | treat_warning, Warn _ => true
  | _, _ => false
  end.


(** ** Further sample inputs *)

(** [plainCollaborators] under the [-undefined] policy [t], with every
    symbol live or none. *)
Definition collaboratorsWith (t : UndefinedSymbolTreatment) (live : bool)
    : Collaborators :=
  {| config := {| namespaceKind := twolevel; outputType := MH_EXECUTE;
                  undefinedSymbolTreatment := t;
                  archMultiple := false; arch := 0%nat;
                  deadStripDuplicates := false |};
     toStringFile := @toStringFile plainCollaborators;
     toStringSymbol := getName;
     toStringLocal := localName;
     definedSourceLocation := fun _ => "";
     isecSourceLocation := fun _ _ => "";
     isecLocation := fun i _ => isecName i;
     isLive := fun _ => live;
     getArchitectureName := fun _ => "arm64";
     getFunctionName := @getFunctionName plainCollaborators |}.

(** A reference to [name] from [c.o], as [addUndefined] leaves it in a
    slot that [oneSlot] builds. *)
Definition undefinedIn (name : string) : Undefined :=
  {| undefName := name; undefFile := Some objC; refState := Strong;
     wasBitcodeSymbol := false |}.

Definition undefinedSlot (name : string) : Symbol :=
  {| isUsedInRegularObj := false; body := IsUndefined (undefinedIn name) |}.

(** A layout with no synthetic section. *)
Definition bareLayout : OutputLayout :=
  {| Layout := list (string * option string);
     OutputSection := string;
     OutputSegment := string;
     ConcatInputSection := string;
     syntheticSections := fun _ => [];
     makeSyntheticInputSection := fun seg sect l => (seg ++ "," ++ sect, l);
     setLive := fun _ l => l;
     getOrCreateForInput := fun isec l => (isec, l);
     setParent := fun _ _ l => l;
     pushInputSection := fun _ l => l;
     pushSectionStartSymbol := fun o d l => (l ++ [(String.append "start of " o, d)])%list;
     pushSectionEndSymbol := fun o d l => (l ++ [(String.append "end of " o, d)])%list;
     getOrCreateOutputSegment := fun seg l => (seg, l);
     pushSegmentStartSymbol := fun o d l => (l ++ [(String.append "start of " o, d)])%list;
     pushSegmentEndSymbol := fun o d l => (l ++ [(String.append "end of " o, d)])%list |}.

(** [_prntf] as scenario S6 leaves it in the table. *)
Definition undefinedPrntf : Symbol :=
  {| isUsedInRegularObj := true; body := IsUndefined (undefinedIn "_prntf") |}.

(** ** The rank as a parameter *)

Section RankParameter.
Context `{Collaborators}.

(** [addDefined] with the function that ranks the two candidates as a
    parameter, to state which calls do not depend on the rank:
    [addDefined] is [addDefinedBy getRank]. *)
Definition addDefinedBy (rank : option InputFile -> bool -> bool -> Z)
    (name : string) (file : option InputFile)
    (isec : option InputSection) (value size : Z)
    (isWeakDef isPrivateExtern isThumb isReferencedDynamically noDeadStrip
     isWeakDefCanBeHidden : bool) : M (option string) :=
  let* (s, wasInserted) := insert name file in
  let* _ := assert (bitcodeHasNoSection file isec) in
  let recordDuplicate (defined : Defined) : M Flow :=
    let srcLoc1 := definedSourceLocation defined in
    let srcLoc2 := match isec with
                   | Some i => isecSourceLocation i value
                   | None => ""
                   end in
    let srcFile1 := toStringFile (definedFile defined) in
    let srcFile2 := toStringFile file in
    let* _ := modify (fun st =>
          setDupSymDiags (dupSymDiags st ++
            [{| src1 := (srcLoc1, srcFile1); src2 := (srcLoc2, srcFile2);
                dupSym := name |}]) st) in
    ret (FallThrough file false) in
  let* flow :=
    (if wasInserted then ret (FallThrough file false) else
     match body s with
     | IsDefined defined =>
         if isWeakDef then
           if (rank file false isWeakDef
              <? rank (definedFile defined) false (weakDef defined))%Z then
             let* _ := replaceSymbol name s
                   (IsDefined (Build_Defined name file isec value size isWeakDef
                      true isPrivateExtern true isThumb isReferencedDynamically
                      noDeadStrip false isWeakDefCanBeHidden
                      (interposableFor isPrivateExtern))) in
             ret (ReturnEarly (Some name))
           else
             let* _ := (if weakDef defined then
                    writeSlot name
                      {| isUsedInRegularObj := isUsedInRegularObj s;
                         body := IsDefined
                           (orNoDeadStrip noDeadStrip
                             (orReferencedDynamically isReferencedDynamically
                               (andWeakDefCanBeHidden isWeakDefCanBeHidden
                                 (andPrivateExtern isPrivateExtern defined)))) |}
                  else ret tt) in
             ret (ReturnEarly (Some name))
         else if weakDef defined then ret (FallThrough file false)
         else
           match file with
           | Some f =>
               if lazyArchiveMember f then
                 let* ef := deref (definedFile defined) in
                 if negb (isa BitcodeKind ef) then
                   if lazyArchiveMember ef then
                     if (priority f <? priority ef)%Z
                     then ret (ReturnEarly (Some name))
                     else ret (FallThrough file false)
                   else ret (ReturnEarly (Some name))
                 else ret (FallThrough file false)
               else recordDuplicate defined
           | None => recordDuplicate defined
           end
     | IsDylib dysym =>
         let* f := deref file in
         (* [return defined;] where [defined] is the result of the
            [dyn_cast<Defined>] that has just failed: null. *)
         if lazyArchiveMember f then ret (ReturnEarly None)
         else
           let* _ := unreference dysym in
           ret (FallThrough file (negb isWeakDef && dylibWeakDef dysym))
     | IsUndefined undef =>
         ret (FallThrough (if wasBitcodeSymbol undef then undefFile undef else file)
                           false)
     | IsCommon common =>
         let* cf := deref (commonFile common) in
         if lazyArchiveMember cf then
           let* f := deref file in
           (* [return nullptr;] *)
           if lazyArchiveMember f && (priority f <? priority cf)%Z
           then ret (ReturnEarly None)
           else ret (FallThrough file false)
         else ret (FallThrough file false)
     | _ => ret (FallThrough file false)
     end) in
  match flow with
  | ReturnEarly p => ret p
  | FallThrough file overridesWeakDef =>
      let* _ := replaceSymbol name s
            (IsDefined (Build_Defined name file isec value size isWeakDef
               true isPrivateExtern true isThumb isReferencedDynamically
               noDeadStrip overridesWeakDef isWeakDefCanBeHidden
               (interposableFor isPrivateExtern))) in
      ret (Some name)
  end.

End RankParameter.

(** Whether the slot of [name] holds a [Defined]. *)
Definition holdsDefined (st : State) (name : string) : bool :=
  match symMap st !! name with
  | Some sym => isDefined sym
  | None => false
  end.

(** ** Properties *)

Lemma getRank_formula (f : InputFile) (isCommon isWeak : bool) :
  0 <= priority f < priorityBound ->
  getRank (Some f) isCommon isWeak
  = Z.shiftl (rankClass f isCommon isWeak) 24 + priority f.
Proof.
  unfold priorityBound. intros Hp. unfold getRank, rankClass, to_uint64.
  change (2 ^ 31 - 7 * 2 ^ 24) with 2030043136 in Hp.
  change (2 ^ 64) with 18446744073709551616.
  destruct isCommon, (lazyArchiveMember f), (isa DylibKind f), isWeak;
    cbn [orb]; rewrite !Z.shiftl_mul_pow2 by lia;
    change (2 ^ 24) with 16777216; apply Z.mod_small; lia.
Qed.

Lemma insert_hit (st : State) name file sym :
  symMap st !! name = Some sym ->
  insert name file st
  = Ok ((markUsed file sym, false),
        setSymMap (<[name := markUsed file sym]> (symMap st)) st).
Proof.
  intros Hs. unfold insert, bind, get, writeSlot, modify, ret.
  rewrite Hs. reflexivity.
Qed.

Lemma insert_miss (st : State) name file :
  symMap st !! name = None ->
  insert name file st
  = Ok ((markUsed file {| isUsedInRegularObj := false; body := Blank |}, true),
        setSymMap (<[name := markUsed file {| isUsedInRegularObj := false;
                                               body := Blank |}]> (symMap st)) st).
Proof.
  intros Hs. unfold insert, bind, get, writeSlot, modify, ret.
  rewrite Hs. reflexivity.
Qed.

Lemma RefState_max_le_l (a b : RefState) : RefState_le a (RefState_max a b).
Proof. destruct a, b; unfold RefState_le; simpl; lia. Qed.

Lemma RefState_max_le_r (a b : RefState) : RefState_le b (RefState_max a b).
Proof. destruct a, b; unfold RefState_le; simpl; lia. Qed.

Lemma RefState_max_cases (a b : RefState) :
  RefState_max a b = a \/ RefState_max a b = b.
Proof. destruct a, b; simpl; auto. Qed.

Lemma RefState_max_swap (a b c : RefState) :
  RefState_max (RefState_max a b) c = RefState_max (RefState_max a c) b.
Proof. destruct a, b, c; reflexivity. Qed.

Lemma RefState_le_trans (a b c : RefState) :
  RefState_le a b -> RefState_le b c -> RefState_le a c.
Proof. unfold RefState_le. lia. Qed.

Lemma maxRequested_le (calls : list (option InputFile * bool)) (r : RefState) :
  RefState_le r (maxRequested r calls).
Proof.
  revert r. induction calls as [|c calls IH]; intros r; simpl.
  - unfold RefState_le. lia.
  - eapply RefState_le_trans; [apply RefState_max_le_l | apply IH].
Qed.

Lemma maxRequested_upper (calls : list (option InputFile * bool)) (r : RefState) c :
  In c calls -> RefState_le (requested c) (maxRequested r calls).
Proof.
  revert r. induction calls as [|c0 calls IH]; intros r; simpl; [tauto|].
  intros [->|Hin].
  - eapply RefState_le_trans; [apply RefState_max_le_r | apply maxRequested_le].
  - apply IH, Hin.
Qed.

Lemma maxRequested_attained (calls : list (option InputFile * bool)) (r : RefState) :
  maxRequested r calls = r
  \/ exists c, In c calls /\ maxRequested r calls = requested c.
Proof.
  revert r. induction calls as [|c0 calls IH]; intros r; simpl; [auto|].
  destruct (IH (RefState_max r (requested c0))) as [He|[c [Hin He]]].
  - rewrite He. destruct (RefState_max_cases r (requested c0)) as [->| ->]; eauto.
  - eauto.
Qed.

Lemma maxRequested_app (l1 l2 : list (option InputFile * bool)) (r : RefState) :
  maxRequested r (l1 ++ l2) = maxRequested (maxRequested r l1) l2.
Proof. unfold maxRequested. apply fold_left_app. Qed.

Lemma maxRequested_Permutation (l1 l2 : list (option InputFile * bool)) :
  Permutation l1 l2 -> forall r, maxRequested r l1 = maxRequested r l2.
Proof.
  induction 1 as [|c l l' _ IH|c c' l|l l' l'' _ IH1 _ IH2]; intros r; simpl.
  - reflexivity.
  - apply IH.
  - f_equal. apply RefState_max_swap.
  - rewrite IH1. apply IH2.
Qed.

Lemma addUndefined_raises (st : State) name sym r file isWeakRef :
  symMap st !! name = Some sym ->
  slotRefState sym = Some r ->
  exists st' sym',
    addUndefined name file isWeakRef st = Ok (name, st')
    /\ symMap st' !! name = Some sym'
    /\ slotRefState sym' = Some (RefState_max r (requested (file, isWeakRef))).
Proof.
  intros Hs Hr. unfold addUndefined, bind. rewrite (insert_hit _ _ _ _ Hs).
  unfold slotRefState in Hr. simpl.
  destruct (body sym) as [|d|u|c|d|l|l] eqn:Hb; try discriminate;
    injection Hr as <-; simpl;
    (eexists; eexists; split; [reflexivity|]); simpl;
    rewrite lookup_insert_eq; (split; [reflexivity|]);
    unfold slotRefState, requested; simpl; reflexivity.
Qed.

Lemma addUndefinedAll_raises (calls : list (option InputFile * bool))
    (st : State) name sym r :
  symMap st !! name = Some sym ->
  slotRefState sym = Some r ->
  exists st' sym',
    addUndefinedAll name calls st = Ok (tt, st')
    /\ symMap st' !! name = Some sym'
    /\ slotRefState sym' = Some (maxRequested r calls).
Proof.
  revert st sym r. induction calls as [|[file w] calls IH]; intros st sym r Hs Hr.
  - exists st, sym. auto.
  - destruct (addUndefined_raises st name sym r file w Hs Hr)
      as (st1 & sym1 & Hrun & Hs1 & Hr1).
    destruct (IH st1 sym1 _ Hs1 Hr1) as (st' & sym' & Hrun' & Hs' & Hr').
    exists st', sym'. split; [|auto].
    unfold addUndefinedAll in *. simpl. unfold bind at 1. unfold bind at 1.
    simpl. rewrite Hrun. simpl. exact Hrun'.
Qed.

(** C7: after a sequence of [addUndefined] calls on the name of a slot
    that holds an [Undefined] or a [DylibSymbol], the [refState] of the
    slot is the maximum, over [Unreferenced < Weak < Strong], of the state
    it had and the states the calls asked for: it is above each of them
    and equal to one of them; it never decreases along the sequence; and
    it is the same for every order of the calls. *)
Theorem addUndefined_refState_is_max (st : State) name sym r
    (calls : list (option InputFile * bool)) :
  symMap st !! name = Some sym ->
  slotRefState sym = Some r ->
  exists st' sym',
    addUndefinedAll name calls st = Ok (tt, st')
    /\ symMap st' !! name = Some sym'
    /\ slotRefState sym' = Some (maxRequested r calls)
    /\ RefState_le r (maxRequested r calls)
    /\ (forall c, In c calls -> RefState_le (requested c) (maxRequested r calls))
    /\ (maxRequested r calls = r
        \/ exists c, In c calls /\ maxRequested r calls = requested c)
    /\ (forall before after, calls = (before ++ after)%list ->
        RefState_le (maxRequested r before) (maxRequested r calls))
    /\ (forall calls', Permutation calls calls' ->
        exists st'' sym'',
          addUndefinedAll name calls' st = Ok (tt, st'')
          /\ symMap st'' !! name = Some sym''
          /\ slotRefState sym'' = slotRefState sym').
Proof.
  intros Hs Hr.
  destruct (addUndefinedAll_raises calls st name sym r Hs Hr)
    as (st' & sym' & Hrun & Hs' & Hr').
  exists st', sym'. repeat split; auto.
  - apply maxRequested_le.
  - intros c. apply maxRequested_upper.
  - apply maxRequested_attained.
  - intros before after ->. rewrite maxRequested_app. apply maxRequested_le.
  - intros calls' Hp.
    destruct (addUndefinedAll_raises calls' st name sym r Hs Hr)
      as (st'' & sym'' & Hrun'' & Hs'' & Hr'').
    exists st'', sym''. repeat split; auto.
    rewrite Hr', Hr''. f_equal. symmetry. apply maxRequested_Permutation, Hp.
Qed.

Section ResolverFacts.
Context `{Collaborators}.

(** C10: on a name bound to a [DylibSymbol], [addDefined] with a null
    file dereferences the null pointer when it reads
    [file->lazyArchiveMember], and so does every [addSynthetic] call, which
    passes a null file; with a file that is not null the call returns. *)
Theorem addDefined_null_file_on_dylib (st : State) name sym dysym
    isec value size isWeakDef isPrivateExtern isThumb isReferencedDynamically
    noDeadStrip isWeakDefCanBeHidden includeInSymtab :
  symMap st !! name = Some sym ->
  body sym = IsDylib dysym ->
  addDefined name None isec value size isWeakDef isPrivateExtern isThumb
    isReferencedDynamically noDeadStrip isWeakDefCanBeHidden st
  = Crash NullDereference
  /\ (sectionIsSynthetic isec = true ->
      addSynthetic name isec value isPrivateExtern includeInSymtab
        isReferencedDynamically st
      = Crash NullDereference)
  /\ (forall f, bitcodeHasNoSection (Some f) isec = true ->
      exists p st',
        addDefined name (Some f) isec value size isWeakDef isPrivateExtern
          isThumb isReferencedDynamically noDeadStrip isWeakDefCanBeHidden st
        = Ok (p, st')).
Proof.
  intros Hs Hb. split; [|split].
  - unfold addDefined, bind. rewrite (insert_hit _ _ _ _ Hs).
    simpl. rewrite Hb. reflexivity.
  - intros Ha. unfold addSynthetic, addDefined, bind. rewrite Ha. simpl.
    rewrite (insert_hit _ _ _ _ Hs). simpl. rewrite Hb. reflexivity.
  - intros f Ha. unfold addDefined, bind. rewrite (insert_hit _ _ _ _ Hs).
    rewrite Ha. simpl. rewrite Hb. simpl.
    destruct (lazyArchiveMember f); simpl; eauto.
Qed.

(** C1, as amended: [getRank] is the table of the specification: [7 << 24]
    for a null file and [(k << 24) + priority] with the class [k] of the
    file and the flags; for priorities that fit the low three bytes a
    lower rank is a lower class or, in the same class, a lower priority.
    [addDefined] decides by the rank when the incoming definition is weak
    and the slot holds a [Defined]: the incoming definition replaces the
    existing one exactly when its rank is lower, and otherwise the
    existing one stays (with the flags merged if it is weak too).  It
    decides by the rank only then.  A definition that is not weak always
    replaces a weak [Defined], whatever the two files and so whatever the
    two ranks, and records no duplicate.  And with the rank as a
    parameter ([addDefined] is [addDefinedBy getRank]), a call with a
    definition that is not weak, or on a slot that holds no [Defined],
    gives the same result under any two rank functions: it is resolved
    without consulting the rank. *)
Theorem getRank_table_and_weak_contest :
  (forall isCommon isWeak, getRank None isCommon isWeak = Z.shiftl 7 24)
  /\ (forall f isCommon isWeak,
       0 <= priority f < priorityBound ->
       getRank (Some f) isCommon isWeak
       = Z.shiftl (rankClass f isCommon isWeak) 24 + priority f)
  /\ (forall a b ca wa cb wb,
       0 <= priority a < 2 ^ 24 -> 0 <= priority b < 2 ^ 24 ->
       (getRank (Some a) ca wa < getRank (Some b) cb wb
        <-> rankClass a ca wa < rankClass b cb wb
            \/ (rankClass a ca wa = rankClass b cb wb
                /\ priority a < priority b)))
  /\ (forall (st : State) name sym existing file isec value size
         isPrivateExtern isThumb isReferencedDynamically noDeadStrip
         isWeakDefCanBeHidden,
       symMap st !! name = Some sym ->
       body sym = IsDefined existing ->
       bitcodeHasNoSection file isec = true ->
       exists st',
         addDefined name file isec value size true isPrivateExtern isThumb
           isReferencedDynamically noDeadStrip isWeakDefCanBeHidden st
         = Ok (Some name, st')
         /\ symMap st' !! name
            = Some {| isUsedInRegularObj :=
                        isUsedInRegularObj sym || fromRegularObj file;
                      body :=
                        if (getRank file false true
                            <? getRank (definedFile existing) false
                                 (weakDef existing))%Z
                        then IsDefined
                               (Build_Defined name file isec value size true
                                  true isPrivateExtern true isThumb
                                  isReferencedDynamically noDeadStrip false
                                  isWeakDefCanBeHidden
                                  (interposableFor isPrivateExtern))
                        else if weakDef existing
                        then IsDefined
                               (orNoDeadStrip noDeadStrip
                                 (orReferencedDynamically isReferencedDynamically
                                   (andWeakDefCanBeHidden isWeakDefCanBeHidden
                                     (andPrivateExtern isPrivateExtern existing))))
                        else IsDefined existing |}
         /\ dupSymDiags st' = dupSymDiags st)
  /\ (forall (st : State) name sym existing file isec value size
         isPrivateExtern isThumb isReferencedDynamically noDeadStrip
         isWeakDefCanBeHidden,
       symMap st !! name = Some sym ->
       body sym = IsDefined existing ->
       weakDef existing = true ->
       bitcodeHasNoSection file isec = true ->
       exists st',
         addDefined name file isec value size false isPrivateExtern isThumb
           isReferencedDynamically noDeadStrip isWeakDefCanBeHidden st
         = Ok (Some name, st')
         /\ symMap st' !! name
            = Some {| isUsedInRegularObj :=
                        isUsedInRegularObj sym || fromRegularObj file;
                      body := IsDefined
                                (Build_Defined name file isec value size false
                                   true isPrivateExtern true isThumb
                                   isReferencedDynamically noDeadStrip false
                                   isWeakDefCanBeHidden
                                   (interposableFor isPrivateExtern)) |}
         /\ dupSymDiags st' = dupSymDiags st)
  /\ (forall name file isec value size isWeakDef isPrivateExtern isThumb
         isReferencedDynamically noDeadStrip isWeakDefCanBeHidden,
       addDefined name file isec value size isWeakDef isPrivateExtern isThumb
         isReferencedDynamically noDeadStrip isWeakDefCanBeHidden
       = addDefinedBy getRank name file isec value size isWeakDef
           isPrivateExtern isThumb isReferencedDynamically noDeadStrip
           isWeakDefCanBeHidden)
  /\ (forall rank1 rank2 (st : State) name file isec value size isWeakDef
         isPrivateExtern isThumb isReferencedDynamically noDeadStrip
         isWeakDefCanBeHidden,
       isWeakDef && holdsDefined st name = false ->
       addDefinedBy rank1 name file isec value size isWeakDef isPrivateExtern
         isThumb isReferencedDynamically noDeadStrip isWeakDefCanBeHidden st
       = addDefinedBy rank2 name file isec value size isWeakDef
           isPrivateExtern isThumb isReferencedDynamically noDeadStrip
           isWeakDefCanBeHidden st).
Proof.
  split; [reflexivity|]. split; [apply getRank_formula|].
  split; [|split; [|split; [|split]]].
  - intros a b ca wa cb wb Ha Hb.
    change (2 ^ 24) with 16777216 in Ha, Hb.
    rewrite !getRank_formula
      by (unfold priorityBound; change (2 ^ 31 - 7 * 2 ^ 24) with 2030043136; lia).
    rewrite !Z.shiftl_mul_pow2 by lia. change (2 ^ 24) with 16777216.
    assert (1 <= rankClass a ca wa <= 6 /\ 1 <= rankClass b cb wb <= 6) as [? ?].
    { unfold rankClass.
      destruct ca, wa, cb, wb, (lazyArchiveMember a), (lazyArchiveMember b),
        (isa DylibKind a), (isa DylibKind b); simpl; lia. }
    lia.
  - intros st name sym existing file isec value size isPrivateExtern isThumb
      isReferencedDynamically noDeadStrip isWeakDefCanBeHidden Hs Hb Ha.
    unfold addDefined, bind. rewrite (insert_hit _ _ _ _ Hs). rewrite Ha.
    simpl. rewrite Hb. simpl.
    destruct (getRank file false true <? _)%Z; simpl;
      [|destruct (weakDef existing); simpl];
      (eexists; split; [reflexivity|]); simpl; rewrite ?lookup_insert_eq;
      unfold markUsed; rewrite ?Hb; auto.
  - intros st name sym existing file isec value size isPrivateExtern isThumb
      isReferencedDynamically noDeadStrip isWeakDefCanBeHidden Hs Hb Hw Ha.
    unfold addDefined, bind. rewrite (insert_hit _ _ _ _ Hs). rewrite Ha.
    simpl. rewrite Hb. simpl. rewrite Hw. simpl.
    eexists. split; [reflexivity|]. simpl. rewrite lookup_insert_eq. auto.
  - reflexivity.
  - intros rank1 rank2 st name file isec value size isWeakDef isPrivateExtern
      isThumb isReferencedDynamically noDeadStrip isWeakDefCanBeHidden Hfree.
    unfold addDefinedBy, holdsDefined, bind in *.
    destruct (symMap st !! name) as [sym|] eqn:Hs.
    + rewrite (insert_hit _ _ _ _ Hs).
      destruct (assert (bitcodeHasNoSection file isec) _) as [[[] st0]|];
        [|reflexivity].
      simpl. unfold isDefined in Hfree.
      destruct (body sym) eqn:Hb; try reflexivity.
      destruct isWeakDef; [discriminate|reflexivity].
    + rewrite (insert_miss _ _ _ Hs). reflexivity.
Qed.

(** C5, as amended: on a slot that holds a [DylibSymbol], an incoming
    definition from a file that is not a lazy archive member wins: the
    slot is replaced by the new [Defined], whose [overridesWeakDef] is set
    exactly when the incoming definition is not weak and the dylib symbol
    is, [unreference] is called once on the dylib symbol, and no
    diagnostic is recorded.  From a lazy archive member the dylib symbol
    is kept and the call returns null. *)
Theorem addDefined_over_dylib (st : State) name sym dysym f
    isec value size isWeakDef isPrivateExtern isThumb isReferencedDynamically
    noDeadStrip isWeakDefCanBeHidden :
  symMap st !! name = Some sym ->
  body sym = IsDylib dysym ->
  bitcodeHasNoSection (Some f) isec = true ->
  exists st',
    addDefined name (Some f) isec value size isWeakDef isPrivateExtern isThumb
      isReferencedDynamically noDeadStrip isWeakDefCanBeHidden st
    = Ok (if lazyArchiveMember f then None else Some name, st')
    /\ symMap st' !! name
       = Some {| isUsedInRegularObj := isUsedInRegularObj sym || isa ObjKind f;
                 body :=
                   if lazyArchiveMember f then IsDylib dysym
                   else IsDefined
                          (Build_Defined name (Some f) isec value size isWeakDef
                             true isPrivateExtern true isThumb
                             isReferencedDynamically noDeadStrip
                             (negb isWeakDef && dylibWeakDef dysym)
                             isWeakDefCanBeHidden
                             (interposableFor isPrivateExtern)) |}
    /\ refCalls st'
       = (if lazyArchiveMember f then refCalls st
          else (refCalls st ++ [CallUnreference dysym])%list)
    /\ dupSymDiags st' = dupSymDiags st
    /\ diagnostics st' = diagnostics st
    /\ undefs st' = undefs st.
Proof.
  intros Hs Hb Ha. unfold addDefined, bind. rewrite (insert_hit _ _ _ _ Hs).
  rewrite Ha. simpl. rewrite Hb. simpl.
  destruct (lazyArchiveMember f); simpl.
  - eexists. split; [reflexivity|]. simpl. rewrite lookup_insert_eq.
    unfold markUsed. rewrite Hb. auto.
  - eexists. split; [reflexivity|]. simpl. rewrite lookup_insert_eq. auto.
Qed.

(** C6, as amended: on a slot that holds a [CommonSymbol] the incoming
    [Defined] replaces the common, unless both files are lazy archive
    members and the priority of the incoming file is lower than that of
    the common's file: then the common is kept and the call returns null.
    And whenever [addDefined] returns, it returns either a pointer to the
    slot, which then holds a [Defined], or null, and then the slot still
    holds the [CommonSymbol] or [DylibSymbol] it held. *)
Theorem addDefined_over_common_and_result (st : State) name f
    isec value size isWeakDef isPrivateExtern isThumb isReferencedDynamically
    noDeadStrip isWeakDefCanBeHidden :
  (forall sym common cf,
     symMap st !! name = Some sym ->
     body sym = IsCommon common ->
     commonFile common = Some cf ->
     bitcodeHasNoSection (Some f) isec = true ->
     let keepsCommon :=
       lazyArchiveMember cf && lazyArchiveMember f
       && (priority f <? priority cf)%Z in
     exists st',
       addDefined name (Some f) isec value size isWeakDef isPrivateExtern
         isThumb isReferencedDynamically noDeadStrip isWeakDefCanBeHidden st
       = Ok (if keepsCommon then None else Some name, st')
       /\ symMap st' !! name
          = Some {| isUsedInRegularObj := isUsedInRegularObj sym || isa ObjKind f;
                    body :=
                      if keepsCommon then IsCommon common
                      else IsDefined
                             (Build_Defined name (Some f) isec value size
                                isWeakDef true isPrivateExtern true isThumb
                                isReferencedDynamically noDeadStrip false
                                isWeakDefCanBeHidden
                                (interposableFor isPrivateExtern)) |})
  /\ (forall file p st',
       addDefined name file isec value size isWeakDef isPrivateExtern
         isThumb isReferencedDynamically noDeadStrip isWeakDefCanBeHidden st
       = Ok (p, st') ->
       (p = Some name
        /\ exists sym' d, symMap st' !! name = Some sym' /\ body sym' = IsDefined d)
       \/ (p = None
           /\ exists sym, symMap st !! name = Some sym
              /\ ((exists c, body sym = IsCommon c) \/ (exists d, body sym = IsDylib d))
              /\ symMap st' !! name = Some (markUsed file sym))).
Proof.
  split.
  - intros sym common cf Hs Hb Hcf Ha keepsCommon. subst keepsCommon.
    unfold addDefined, bind. rewrite (insert_hit _ _ _ _ Hs).
    rewrite Ha. simpl. rewrite Hb. simpl. rewrite Hcf. simpl.
    destruct (lazyArchiveMember cf); simpl.
    + destruct (lazyArchiveMember f && (priority f <? priority cf)%Z); simpl;
        (eexists; split; [reflexivity|]); simpl; rewrite lookup_insert_eq;
        unfold markUsed; rewrite ?Hb; reflexivity.
    + eexists; split; [reflexivity|]. simpl. rewrite lookup_insert_eq. reflexivity.
  - intros file p st'. unfold addDefined, bind.
    destruct (symMap st !! name) as [sym|] eqn:Hs.
    + rewrite (insert_hit _ _ _ _ Hs).
      destruct (bitcodeHasNoSection file isec); simpl; [|discriminate].
      destruct (body sym) as [|defined|undef|common|dysym|la|lo] eqn:Hb; simpl.
      * intros [= <- <-]. left. split; [reflexivity|]. simpl.
        rewrite lookup_insert_eq. eauto.
      * destruct isWeakDef; simpl.
        { destruct (getRank file false true <? _)%Z; simpl;
            [|destruct (weakDef defined); simpl]; intros [= <- <-]; left;
            (split; [reflexivity|]); simpl; rewrite ?lookup_insert_eq;
            unfold markUsed; rewrite ?Hb; eauto. }
        destruct (weakDef defined); simpl.
        { intros [= <- <-]. left. split; [reflexivity|]. simpl.
          rewrite lookup_insert_eq. eauto. }
        destruct file as [f0|]; simpl.
        { destruct (lazyArchiveMember f0); simpl.
          - destruct (definedFile defined) as [ef|]; simpl; [|discriminate].
            destruct (isa BitcodeKind ef); simpl;
              [|destruct (lazyArchiveMember ef); simpl;
                [destruct (priority f0 <? priority ef)%Z; simpl|]];
              intros [= <- <-]; left; (split; [reflexivity|]); simpl;
              rewrite ?lookup_insert_eq; unfold markUsed; rewrite ?Hb; eauto.
          - intros [= <- <-]. left. split; [reflexivity|]. simpl.
            rewrite lookup_insert_eq. eauto. }
        intros [= <- <-]. left. split; [reflexivity|]. simpl.
        rewrite lookup_insert_eq. eauto.
      * intros [= <- <-]. left. split; [reflexivity|]. simpl.
        rewrite lookup_insert_eq. eauto.
      * destruct (commonFile common) as [cf|]; simpl; [|discriminate].
        destruct (lazyArchiveMember cf); simpl.
        { destruct file as [f0|]; simpl; [|discriminate].
          destruct (lazyArchiveMember f0 && (priority f0 <? priority cf)%Z); simpl;
            intros [= <- <-].
          - right. split; [reflexivity|]. exists sym. rewrite Hb. simpl.
            rewrite lookup_insert_eq. eauto.
          - left. split; [reflexivity|]. simpl. rewrite lookup_insert_eq. eauto. }
        intros [= <- <-]. left. split; [reflexivity|]. simpl.
        rewrite lookup_insert_eq. eauto.
      * destruct file as [f0|]; simpl; [|discriminate].
        destruct (lazyArchiveMember f0); simpl; intros [= <- <-].
        { right. split; [reflexivity|]. exists sym. rewrite Hb. simpl.
          rewrite lookup_insert_eq. eauto. }
        left. split; [reflexivity|]. simpl. rewrite lookup_insert_eq. eauto.
      * intros [= <- <-]. left. split; [reflexivity|]. simpl.
        rewrite lookup_insert_eq. eauto.
      * intros [= <- <-]. left. split; [reflexivity|]. simpl.
        rewrite lookup_insert_eq. eauto.
    + rewrite (insert_miss _ _ _ Hs).
      destruct (bitcodeHasNoSection file isec); simpl; [|discriminate].
      intros [= <- <-]. left. split; [reflexivity|]. simpl.
      rewrite lookup_insert_eq. eauto.
Qed.

(** C3, as amended: when the slot holds a strong [Defined] and a strong
    definition comes in from a lazy archive member, no duplicate is
    recorded, and the file of the existing definition decides.  If it is
    a bitcode file, the incoming definition replaces the existing one.
    If it is neither a bitcode file nor a lazy archive member, the
    existing definition is kept.  If it is a lazy archive member that is
    no bitcode file, the existing definition is kept exactly when
    [file->priority < defined->getFile()->priority], and replaced
    otherwise.  If the existing definition has no file, the call
    dereferences the null [defined->getFile()]. *)
Theorem addDefined_strong_vs_lazy_member (st : State) name sym existing f
    isec value size isPrivateExtern isThumb isReferencedDynamically
    noDeadStrip isWeakDefCanBeHidden :
  symMap st !! name = Some sym ->
  body sym = IsDefined existing ->
  weakDef existing = false ->
  lazyArchiveMember f = true ->
  bitcodeHasNoSection (Some f) isec = true ->
  match definedFile existing with
  | None =>
      addDefined name (Some f) isec value size false isPrivateExtern isThumb
        isReferencedDynamically noDeadStrip isWeakDefCanBeHidden st
      = Crash NullDereference
  | Some ef =>
      exists st',
        addDefined name (Some f) isec value size false isPrivateExtern isThumb
          isReferencedDynamically noDeadStrip isWeakDefCanBeHidden st
        = Ok (Some name, st')
        /\ symMap st' !! name
           = Some {| isUsedInRegularObj :=
                       isUsedInRegularObj sym || isa ObjKind f;
                     body :=
                       if isa BitcodeKind ef
                          || lazyArchiveMember ef
                             && negb (priority f <? priority ef)%Z
                       then
                         IsDefined
                           (Build_Defined name (Some f) isec value size false
                              true isPrivateExtern true isThumb
                              isReferencedDynamically noDeadStrip false
                              isWeakDefCanBeHidden
                              (interposableFor isPrivateExtern))
                       else IsDefined existing |}
        /\ dupSymDiags st' = dupSymDiags st
  end.
Proof.
  intros Hs Hb Hw Hf Ha. unfold addDefined, bind.
  rewrite (insert_hit _ _ _ _ Hs). rewrite Ha. simpl.
  rewrite Hb, Hw, Hf. simpl.
  destruct (definedFile existing) as [ef|]; simpl; [|reflexivity].
  destruct (isa BitcodeKind ef); simpl.
  { eexists. split; [reflexivity|]. simpl. rewrite lookup_insert_eq. auto. }
  destruct (lazyArchiveMember ef); simpl;
    [destruct (priority f <? priority ef)%Z; simpl|];
    (eexists; split; [reflexivity|]); simpl; rewrite lookup_insert_eq;
    unfold markUsed; rewrite ?Hb; auto.
Qed.

(** What the source does when both files are lazy archive members (and the
    existing one is not a bitcode file): the comparison
    [file->priority < defined->getFile()->priority] keeps the existing
    definition, and otherwise the incoming one replaces it. *)
Lemma addDefined_strong_lazy_vs_lazy (st : State) name sym existing ef f
    isec value size isPrivateExtern isThumb isReferencedDynamically
    noDeadStrip isWeakDefCanBeHidden :
  symMap st !! name = Some sym ->
  body sym = IsDefined existing ->
  weakDef existing = false ->
  definedFile existing = Some ef ->
  lazyArchiveMember f = true ->
  bitcodeHasNoSection (Some f) isec = true ->
  isa BitcodeKind ef = false ->
  lazyArchiveMember ef = true ->
  exists st',
    addDefined name (Some f) isec value size false isPrivateExtern isThumb
      isReferencedDynamically noDeadStrip isWeakDefCanBeHidden st
    = Ok (Some name, st')
    /\ symMap st' !! name
       = Some {| isUsedInRegularObj := isUsedInRegularObj sym || isa ObjKind f;
                 body :=
                   if (priority f <? priority ef)%Z then IsDefined existing
                   else
                     IsDefined
                       (Build_Defined name (Some f) isec value size false
                          true isPrivateExtern true isThumb
                          isReferencedDynamically noDeadStrip false
                          isWeakDefCanBeHidden (interposableFor isPrivateExtern)) |}.
Proof.
  intros Hs Hb Hw Hef Hf Ha Hbc Hl. unfold addDefined, bind.
  rewrite (insert_hit _ _ _ _ Hs). rewrite Ha. simpl.
  rewrite Hb, Hw, Hf, Hef. simpl. rewrite Hbc, Hl. simpl.
  destruct (priority f <? priority ef)%Z; simpl;
    (eexists; split; [reflexivity|]); simpl; rewrite lookup_insert_eq;
    unfold markUsed; rewrite ?Hb; auto.
Qed.

(** C2, as amended: two strong definitions of a name that is not yet in
    the table, the second one from a file that is not a lazy archive
    member: the second call appends exactly one duplicate record, which
    holds the source location and the file name of either definition, and
    then replaces the first definition, so that the slot holds the
    definition of the call that came second, whichever file has the lower
    priority. *)
Theorem addDefined_twice_strong (st : State) name F G
    isecF valueF sizeF privateExternF thumbF referencedDynamicallyF
    noDeadStripF weakDefCanBeHiddenF
    isecG valueG sizeG privateExternG thumbG referencedDynamicallyG
    noDeadStripG weakDefCanBeHiddenG :
  symMap st !! name = None ->
  lazyArchiveMember G = false ->
  bitcodeHasNoSection (Some F) isecF = true ->
  bitcodeHasNoSection (Some G) isecG = true ->
  let definedF :=
    Build_Defined name (Some F) isecF valueF sizeF false true privateExternF
      true thumbF referencedDynamicallyF noDeadStripF false
      weakDefCanBeHiddenF (interposableFor privateExternF) in
  let definedG :=
    Build_Defined name (Some G) isecG valueG sizeG false true privateExternG
      true thumbG referencedDynamicallyG noDeadStripG false
      weakDefCanBeHiddenG (interposableFor privateExternG) in
  exists st1 st2,
    addDefined name (Some F) isecF valueF sizeF false privateExternF thumbF
      referencedDynamicallyF noDeadStripF weakDefCanBeHiddenF st
    = Ok (Some name, st1)
    /\ symMap st1 !! name
       = Some {| isUsedInRegularObj := isa ObjKind F; body := IsDefined definedF |}
    /\ dupSymDiags st1 = dupSymDiags st
    /\ addDefined name (Some G) isecG valueG sizeG false privateExternG thumbG
         referencedDynamicallyG noDeadStripG weakDefCanBeHiddenG st1
       = Ok (Some name, st2)
    /\ dupSymDiags st2
       = (dupSymDiags st
          ++ [{| src1 := (definedSourceLocation definedF, toStringFile (Some F));
                 src2 := (match isecG with
                          | Some i => isecSourceLocation i valueG
                          | None => ""
                          end, toStringFile (Some G));
                 dupSym := name |}])%list
    /\ symMap st2 !! name
       = Some {| isUsedInRegularObj := isa ObjKind F || isa ObjKind G;
                 body := IsDefined definedG |}.
Proof.
  intros Hs HG HaF HaG definedF definedG.
  eexists. eexists.
  split.
  { unfold addDefined, bind. rewrite (insert_miss _ _ _ Hs). rewrite HaF.
    simpl. reflexivity. }
  split; [simpl; rewrite lookup_insert_eq; reflexivity|].
  split; [reflexivity|].
  split.
  { unfold addDefined, bind.
    erewrite insert_hit by (simpl; rewrite lookup_insert_eq; reflexivity).
    rewrite HaG. simpl. rewrite HG. simpl. reflexivity. }
  split; [reflexivity|].
  simpl. rewrite lookup_insert_eq. reflexivity.
Qed.

(** C4, as amended: on a name whose slot holds a [LazyArchive],
    [addUndefined] makes no fetch call and leaves the [LazyArchive] in
    the slot; of the slot only [isUsedInRegularObj] can change. *)
Theorem addUndefined_on_lazy_archive (st : State) name sym l file isWeakRef :
  symMap st !! name = Some sym ->
  body sym = IsLazyArchive l ->
  exists st',
    addUndefined name file isWeakRef st = Ok (name, st')
    /\ fetched st' = fetched st
    /\ symMap st' !! name
       = Some {| isUsedInRegularObj :=
                   isUsedInRegularObj sym || fromRegularObj file;
                 body := IsLazyArchive l |}.
Proof.
  intros Hs Hb. unfold addUndefined, bind. rewrite (insert_hit _ _ _ _ Hs).
  simpl. rewrite Hb. simpl. eexists. split; [reflexivity|]. simpl.
  rewrite lookup_insert_eq. unfold markUsed. rewrite Hb. auto.
Qed.

End ResolverFacts.


Section LazyFacts.
Context `{Collaborators} `{ArchiveLoader}.

(** The fetch is made on the other path: [addLazyArchive] on a name whose
    slot holds an [Undefined] calls [fetch] once, and what follows is the
    work of the loader. *)
Lemma addLazyArchive_on_undefined (st : State) name sym u file cookie :
  symMap st !! name = Some sym ->
  body sym = IsUndefined u ->
  addLazyArchive name file cookie st
  = bind (fetchArchiveMember file cookie) (fun _ => ret name)
      (setFetched (fetched st ++ [(file, cookie)])
         (setSymMap (<[name := markUsed (Some file) sym]> (symMap st)) st)).
Proof.
  intros Hs Hb. unfold addLazyArchive, bind at 1.
  rewrite (insert_hit _ _ _ _ Hs). simpl. rewrite Hb. reflexivity.
Qed.

End LazyFacts.

Lemma firstSome_Some {A B} (f : A -> option B) (l : list A) (b : B) :
  firstSome f l = Some b -> exists x, In x l /\ f x = Some b.
Proof.
  induction l as [|x l IH]; simpl; [discriminate|].
  destruct (f x) eqn:Hf.
  - intros [= <-]. eauto.
  - intros Hl. destruct (IH Hl) as (y & Hin & Hy). eauto.
Qed.

Section DiagnosticsFacts.
Context `{Collaborators}.

Lemma localDefinedMap_qualifies (st : State) sym k r :
  localDefinedMap st sym !! k = Some r -> qualifies st r.
Proof.
  unfold localDefinedMap.
  destruct (getFile sym) as [file|]; [|by rewrite lookup_empty].
  destruct (isa ObjKind file); [|by rewrite lookup_empty].
  assert (forall l (m : gmap string SymRef),
            (forall k r, m !! k = Some r -> qualifies st r) ->
            forall k r,
              fold_left
                (fun (map : gmap string SymRef) (s : option SymRef) =>
                   match s with
                   | Some (Local d) =>
                       if negb (localIsExternal d) then
                         match map !! localName d with
                         | Some _ => map
                         | None => <[localName d := Local d]> map
                         end
                       else map
                   | Some (Global n) =>
                       match symMap st !! n with
                       | Some {| body := IsDefined d |} =>
                           if negb (isExternal d) then
                             match map !! definedName d with
                             | Some _ => map
                             | None => <[definedName d := Global n]> map
                             end
                           else map
                       | _ => map
                       end
                   | None => map
                   end) l m !! k = Some r -> qualifies st r) as Hfold.
  { induction l as [|s l IH]; intros m Hm k0 r0; simpl; [apply Hm|].
    apply IH. clear k0 r0. intros k0 r0.
    destruct s as [[d|n]|]; [| |apply Hm].
    - destruct (negb (localIsExternal d)); [|apply Hm].
      destruct (m !! localName d); [apply Hm|].
      rewrite lookup_insert. case_decide; [intros [= <-]; exact I|apply Hm].
    - destruct (symMap st !! n) as [[used b]|] eqn:Hn; [|apply Hm].
      destruct b as [|d| | | | |]; try apply Hm.
      destruct (negb (isExternal d)); [|apply Hm].
      destruct (m !! definedName d); [apply Hm|].
      rewrite lookup_insert. case_decide; [|apply Hm].
      intros [= <-]. simpl. eexists. split; [exact Hn|reflexivity]. }
  apply Hfold. intros k0 r0. by rewrite lookup_empty.
Qed.

Lemma suggest_qualifies (st : State) sym newName r :
  suggest st (localDefinedMap st sym) newName = Some r -> qualifies st r.
Proof.
  unfold suggest, find.
  destruct (localDefinedMap st sym !! newName) eqn:Hm.
  - intros [= <-]. eapply localDefinedMap_qualifies, Hm.
  - destruct (symMap st !! newName) as [s|] eqn:Hs; [|discriminate].
    destruct (isUndefined s) eqn:Hu; simpl; [discriminate|].
    intros [= <-]. simpl. eauto.
Qed.

Lemma spellingsAt_qualifies (st : State) sym name i r :
  spellingsAt st (localDefinedMap st sym) name i = Some r -> qualifies st r.
Proof.
  unfold spellingsAt.
  repeat match goal with
  | |- context [match firstSome ?f ?l with _ => _ end] =>
      let E := fresh "E" in
      destruct (firstSome f l) eqn:E;
      [intros [= <-]; apply firstSome_Some in E as (c & _ & E);
       eapply suggest_qualifies, E|]
  | |- context [if ?b then _ else _] => destruct b
  | |- context [match suggest ?a ?b ?c with _ => _ end] =>
      let E := fresh "E" in
      destruct (suggest a b c) eqn:E;
      [intros [= <-]; eapply suggest_qualifies, E|]
  end; try discriminate; apply suggest_qualifies.
Qed.

(** Whatever [getAlternativeSpelling] returns qualifies, unless it comes
    from the scan of the table that compares demangled function names. *)
Lemma getAlternativeSpelling_result (st : State) sym pre post r pre' post' :
  getAlternativeSpelling st sym pre post = (Some r, pre', post') ->
  qualifies st r
  \/ (startswith "__Z" (getName sym) = false
      /\ exists n s,
           r = Global n /\ symMap st !! n = Some s
           /\ canSuggestExternCForCXX (consume_front "_" (getName sym))
                (getName s) = true).
Proof.
  unfold getAlternativeSpelling.
  destruct (firstSome (spellingsAt _ _ _) _) eqn:E1.
  { intros [= <- _ _]. left. apply firstSome_Some in E1 as (i & _ & E1).
    eapply spellingsAt_qualifies, E1. }
  destruct (firstSome _ (map_to_list (localDefinedMap st sym))) eqn:E2.
  { intros [= <- _ _]. left. apply firstSome_Some in E2 as ([k v] & Hin & E2).
    simpl in E2. destruct (equals_insensitive _ _); [|discriminate].
    injection E2 as <-. apply list_elem_of_In, elem_of_map_to_list in Hin.
    eapply localDefinedMap_qualifies, Hin. }
  destruct (firstSome _ (map_to_list (symMap st))) eqn:E3.
  { intros [= <- _ _]. left. apply firstSome_Some in E3 as ([k v] & Hin & E3).
    simpl in E3. destruct (isUndefined v) eqn:Hu; simpl in E3; [discriminate|].
    destruct (equals_insensitive _ _); [|discriminate].
    injection E3 as <-. apply list_elem_of_In, elem_of_map_to_list in Hin.
    simpl. eauto. }
  destruct (startswith "__Z" (getName sym)) eqn:Hz.
  { destruct (getFunctionName (getName sym)); [|discriminate].
    destruct (suggest _ _ _) eqn:E4; [|discriminate].
    intros [= <- _ _]. left. eapply suggest_qualifies, E4. }
  cbv zeta. clear E2 E3.
  destruct (firstSome _ (map_to_list (localDefinedMap st sym))) eqn:E5.
  { intros [= <- _ _]. left. apply firstSome_Some in E5 as ([k v] & Hin & E5).
    simpl in E5. destruct (canSuggestExternCForCXX _ _); [|discriminate].
    injection E5 as <-. apply list_elem_of_In, elem_of_map_to_list in Hin.
    eapply localDefinedMap_qualifies, Hin. }
  destruct (firstSome _ (map_to_list (symMap st))) eqn:E6; [|discriminate].
  intros [= <- _ _]. right. split; [reflexivity|].
  apply firstSome_Some in E6 as ([k v] & Hin & E6). simpl in E6.
  destruct (canSuggestExternCForCXX _ _) eqn:Hc; [|discriminate].
  injection E6 as <-. apply list_elem_of_In, elem_of_map_to_list in Hin.
  eauto.
Qed.

End DiagnosticsFacts.

Lemma setDiagnostics_more (st : State) (a b : list Diagnostic) :
  setDiagnostics (diagnostics (setDiagnostics (diagnostics st ++ a) st) ++ b)
    (setDiagnostics (diagnostics st ++ a) st)
  = setDiagnostics (diagnostics st ++ (a ++ b)) st.
Proof. unfold setDiagnostics. simpl. by rewrite app_assoc. Qed.

Lemma setDiagnostics_none (st : State) :
  setDiagnostics (diagnostics st ++ []) st = st.
Proof. destruct st. unfold setDiagnostics. simpl. by rewrite app_nil_r. Qed.

Section ReportFacts.
Context `{Collaborators}.

(** A duplicate record is reported from the table and the record alone:
    a run adds its diagnostics to the ones there are, and adds the same
    ones from any state with the same table. *)
Lemma reportDuplicate_emits (duplicate : DuplicateSymbolDiag) (st st1 : State) :
  reportDuplicate duplicate st = Ok (tt, st1) ->
  exists emitted,
    st1 = setDiagnostics (diagnostics st ++ emitted) st
    /\ forall st2, symMap st2 = symMap st ->
         reportDuplicate duplicate st2
         = Ok (tt, setDiagnostics (diagnostics st2 ++ emitted) st2).
Proof.
  unfold reportDuplicate, bind, get.
  destruct (symMap st !! dupSym duplicate) as [sym|] eqn:Hs; simpl;
    [|discriminate].
  destruct (negb (deadStripDuplicates config) || isLive sym) eqn:Hc.
  - unfold warn, modify. intros [= <-]. eexists [_]. split; [reflexivity|].
    intros st2 E. rewrite E, Hs. simpl. rewrite Hc. reflexivity.
  - unfold ret. intros [= <-]. exists []. split.
    + symmetry. apply setDiagnostics_none.
    + intros st2 E. rewrite E, Hs. simpl. rewrite Hc.
      by rewrite setDiagnostics_none.
Qed.

Lemma forEach_reportDuplicate_emits (l : list DuplicateSymbolDiag)
    (st st1 : State) :
  forEach reportDuplicate l st = Ok (tt, st1) ->
  exists emitted,
    st1 = setDiagnostics (diagnostics st ++ emitted) st
    /\ forall st2, symMap st2 = symMap st ->
         forEach reportDuplicate l st2
         = Ok (tt, setDiagnostics (diagnostics st2 ++ emitted) st2).
Proof.
  revert st st1. induction l as [|d l IH]; intros st st1; simpl.
  - unfold ret. intros [= <-]. exists []. split.
    + symmetry. apply setDiagnostics_none.
    + intros st2 _. by rewrite setDiagnostics_none.
  - unfold bind at 1.
    destruct (reportDuplicate d st) as [[[] st0]|] eqn:Hd; [|discriminate].
    intros Hl. apply reportDuplicate_emits in Hd as (e1 & -> & Hd).
    apply IH in Hl as (e2 & -> & Hl).
    exists (e1 ++ e2)%list. split; [apply setDiagnostics_more|].
    intros st2 E. unfold bind at 1. rewrite (Hd st2 E).
    rewrite (Hl (setDiagnostics (diagnostics st2 ++ e1) st2)) by (simpl; exact E).
    by rewrite setDiagnostics_more.
Qed.

Lemma forEach_reportDuplicate_returns (l : list DuplicateSymbolDiag) (st : State) :
  (forall d, In d l -> is_Some (symMap st !! dupSym d)) ->
  exists st1, forEach reportDuplicate l st = Ok (tt, st1) /\ symMap st1 = symMap st.
Proof.
  revert st. induction l as [|d l IH]; intros st Hl; simpl; [by eexists|].
  destruct (Hl d (or_introl eq_refl)) as [sym Hs].
  assert (exists st0, reportDuplicate d st = Ok (tt, st0) /\ symMap st0 = symMap st)
    as (st0 & Hd & E).
  { unfold reportDuplicate, bind, get. rewrite Hs. simpl.
    destruct (negb (deadStripDuplicates config) || isLive sym); by eexists. }
  destruct (IH st0) as (st1 & Hrun & E1).
  { intros d' Hin. rewrite E. apply Hl. by right. }
  exists st1. unfold bind at 1. rewrite Hd. split; [exact Hrun|congruence].
Qed.

(** An undefined symbol is reported in one diagnostic, when the
    configuration asks for errors or for warnings. *)
Lemma reportUndefinedSymbol_emits (sym : Symbol) locations correctSpelling
    (st : State) :
  undefinedSymbolTreatment config = treat_error
  \/ undefinedSymbolTreatment config = treat_warning ->
  exists d,
    reportUndefinedSymbol sym locations correctSpelling st
    = Ok (tt, setDiagnostics (diagnostics st ++ [d]) st).
Proof.
  intros Ht. unfold reportUndefinedSymbol. cbv zeta.
  match goal with
  | |- context [bind get (fun st0 => bind (@?m st0) ?k)] =>
      assert (exists msg, m st st = Ok (msg, st)) as [msg Hm]
  end.
  { destruct correctSpelling; [|by eexists].
    destruct (getAlternativeSpelling st sym ": " "") as [[[r|] pre] post] eqn:E;
      [|by eexists].
    destruct r as [d|n]; [by eexists|].
    apply getAlternativeSpelling_result in E as [(s & Hs & _)|(_ & n' & s & [= <-] & Hs & _)];
      unfold bind; rewrite Hs; by eexists. }
  unfold bind at 1. unfold get at 1. unfold bind at 1. rewrite Hm.
  destruct Ht as [-> | ->]; by eexists.
Qed.

Lemma reportUndefinedFrom_returns (l : list (string * UndefinedDiag)) (i : nat)
    (st : State) :
  undefinedSymbolTreatment config = treat_error
  \/ undefinedSymbolTreatment config = treat_warning ->
  (forall u, In u l -> is_Some (symMap st !! fst u)) ->
  exists emitted,
    reportUndefinedFrom i l st
    = Ok (tt, setDiagnostics (diagnostics st ++ emitted) st)
    /\ length emitted = length l.
Proof.
  intros Ht. revert i st. induction l as [|u l IH]; intros i st Hl; simpl.
  - exists []. by rewrite setDiagnostics_none.
  - destruct (Hl u (or_introl eq_refl)) as [sym Hs].
    destruct (reportUndefinedSymbol_emits sym (snd u) (i <? 2)%nat st Ht)
      as [d Hd].
    destruct (IH (S i) (setDiagnostics (diagnostics st ++ [d]) st))
      as (e & Hrun & Hlen).
    { intros u' Hin. simpl. apply Hl. by right. }
    exists (d :: e). split; [|simpl; congruence].
    unfold bind at 1. unfold get at 1. unfold bind at 1. rewrite Hs. simpl.
    unfold bind at 1. rewrite Hd. rewrite Hrun.
    by rewrite setDiagnostics_more.
Qed.

(** C8, as amended: [reportPendingUndefinedSymbols] clears its pool after
    it has reported, so that a second call in a row finds nothing to
    report and leaves the state as it is.  [reportPendingDuplicateSymbols]
    does not clear its pool: the call leaves the pool as it is, and a
    second call in a row emits again the diagnostics of the first.  Both
    return, when the symbols in the pools are in the table and the
    undefined symbols are to be reported as errors or as warnings. *)
Theorem report_pending_twice (st : State) :
  (forall st1,
     reportPendingUndefinedSymbols st = Ok (tt, st1) ->
     undefs st1 = []
     /\ reportPendingUndefinedSymbols st1 = Ok (tt, st1))
  /\ (forall st1,
      reportPendingDuplicateSymbols st = Ok (tt, st1) ->
      exists emitted,
        st1 = setDiagnostics (diagnostics st ++ emitted) st
        /\ dupSymDiags st1 = dupSymDiags st
        /\ reportPendingDuplicateSymbols st1
           = Ok (tt, setDiagnostics (diagnostics st1 ++ emitted) st1))
  /\ ((undefinedSymbolTreatment config = treat_error
       \/ undefinedSymbolTreatment config = treat_warning) ->
      (forall u, In u (undefs st) -> is_Some (symMap st !! fst u)) ->
      exists emitted,
        reportPendingUndefinedSymbols st
        = Ok (tt, setUndefs [] (setDiagnostics (diagnostics st ++ emitted) st))
        /\ length emitted = length (undefs st))
  /\ ((forall d, In d (dupSymDiags st) -> is_Some (symMap st !! dupSym d)) ->
      exists st1, reportPendingDuplicateSymbols st = Ok (tt, st1)).
Proof.
  split; [|split; [|split]].
  - intros st1. unfold reportPendingUndefinedSymbols, bind, get.
    destruct (reportUndefinedFrom 0 (undefs st) st) as [[[] st0]|]; [|discriminate].
    unfold modify. intros [= <-]. split; reflexivity.
  - intros st1. unfold reportPendingDuplicateSymbols. unfold bind, get.
    intros Hrun. apply forEach_reportDuplicate_emits in Hrun as (e & -> & Hrun).
    exists e. split; [reflexivity|]. split; [reflexivity|].
    simpl. apply Hrun. reflexivity.
  - intros Ht Hu.
    destruct (reportUndefinedFrom_returns (undefs st) 0 st Ht Hu) as (e & Hrun & Hlen).
    exists e. split; [|exact Hlen].
    unfold reportPendingUndefinedSymbols, bind, get. rewrite Hrun. reflexivity.
  - intros Hd. destruct (forEach_reportDuplicate_returns _ st Hd) as (st1 & Hrun & _).
    exists st1. unfold reportPendingDuplicateSymbols, bind, get. exact Hrun.
Qed.

End ReportFacts.

(** ** The properties on the sample inputs *)

Lemma getRank_table_and_weak_contest_witness :
  (0 <= priority memberY < priorityBound
   /\ getRank (Some memberY) false true = Z.shiftl 4 24 + 2)
  /\ (symMap (oneSlot "_s" (IsDefined weakInA)) !! "_s"
      = Some {| isUsedInRegularObj := false; body := IsDefined weakInA |}
      /\ slotAfter
           (@addDefined plainCollaborators "_s" (Some objB) None 0 0 true
              false false false true false (oneSlot "_s" (IsDefined weakInA)))
           "_s"
         = Some (IsDefined (orNoDeadStrip true weakInA)))
  /\ (weakDef weakInA = true
      /\ slotAfter
           (@addDefined plainCollaborators "_s" (Some memberY) None 0 0 false
              false false false false false (oneSlot "_s" (IsDefined weakInA)))
           "_s"
         = Some (IsDefined (strongIn "_s" memberY)))
  /\ (false && holdsDefined (oneSlot "_s" (IsDefined weakInA)) "_s" = false
      /\ @addDefinedBy plainCollaborators getRank "_s" (Some memberY) None 0 0
           false false false false false false
           (oneSlot "_s" (IsDefined weakInA))
         = @addDefinedBy plainCollaborators (fun _ _ _ => 0) "_s" (Some memberY)
             None 0 0 false false false false false false
             (oneSlot "_s" (IsDefined weakInA))).
Proof.
  assert (0 <= priority memberY < priorityBound) as Hp
    by (cbv [priorityBound memberY mkFile priority]; lia).
  pose proof (@getRank_table_and_weak_contest plainCollaborators)
    as (_ & Htable & _ & Hweak & Hstrong & _ & Hfree).
  split; [|split; [|split]].
  - split; [exact Hp|]. exact (Htable memberY false true Hp).
  - split; [reflexivity|].
    destruct (Hweak (oneSlot "_s" (IsDefined weakInA)) "_s"
                {| isUsedInRegularObj := false; body := IsDefined weakInA |}
                weakInA (Some objB) None 0 0 false false false true false
                eq_refl eq_refl eq_refl) as (st' & Hrun & Hslot & _).
    rewrite Hrun. simpl. rewrite Hslot. reflexivity.
  - split; [reflexivity|].
    destruct (Hstrong (oneSlot "_s" (IsDefined weakInA)) "_s"
                {| isUsedInRegularObj := false; body := IsDefined weakInA |}
                weakInA (Some memberY) None 0 0 false false false false false
                eq_refl eq_refl eq_refl eq_refl) as (st' & Hrun & Hslot & _).
    rewrite Hrun. simpl. rewrite Hslot. reflexivity.
  - split; [reflexivity|].
    exact (Hfree getRank (fun _ _ _ => 0) (oneSlot "_s" (IsDefined weakInA))
             "_s" (Some memberY) None 0 0 false false false false false false
             eq_refl).
Defined.

(** C1, as stated, fails: a weak definition from the regular file [a.o]
    has a lower rank than a strong definition from the lazy archive member
    [liby.a(y.o)], and still the strong definition replaces it. *)
Lemma rank_order_counterexample :
  getRank (Some objA) false true < getRank (Some memberY) false false
  /\ slotAfter
       (@addDefined plainCollaborators "_s" (Some memberY) None 0 0 false
          false false false false false (oneSlot "_s" (IsDefined weakInA)))
       "_s"
     = Some (IsDefined (strongIn "_s" memberY)).
Proof. split; reflexivity. Qed.

Lemma addDefined_twice_strong_witness :
  symMap emptyState !! "_g" = None
  /\ lazyArchiveMember objA = false
  /\ exists st1 st2,
       @addDefined plainCollaborators "_g" (Some objB) None 0 0 false
         false false false false false emptyState = Ok (Some "_g", st1)
       /\ @addDefined plainCollaborators "_g" (Some objA) None 0 0 false
            false false false false false st1 = Ok (Some "_g", st2)
       /\ dupSymDiags st2
          = [{| src1 := ("", "b.o"); src2 := ("", "a.o"); dupSym := "_g" |}]
       /\ symMap st2 !! "_g"
          = Some {| isUsedInRegularObj := true;
                    body := IsDefined (strongIn "_g" objA) |}.
Proof.
  split; [reflexivity|]. split; [reflexivity|].
  destruct (@addDefined_twice_strong plainCollaborators emptyState "_g" objB objA
              None 0 0 false false false false false
              None 0 0 false false false false false
              eq_refl eq_refl eq_refl eq_refl)
    as (st1 & st2 & H1 & _ & _ & H2 & H3 & H4).
  exists st1, st2. split; [exact H1|]. split; [exact H2|].
  split; [exact H3|exact H4].
Defined.

(** C2, as stated, fails: with [a.o] of priority 1 defining [_g] first and
    [b.o] of priority 2 second, the slot ends with the definition of
    [b.o], not with that of the file of lower priority. *)
Lemma duplicate_keeps_existing_counterexample :
  priority objA < priority objB
  /\ symMap afterS2 !! "_g"
     = Some {| isUsedInRegularObj := true;
               body := IsDefined (strongIn "_g" objB) |}
  /\ dupSymDiags afterS2
     = [{| src1 := ("", "a.o"); src2 := ("", "b.o"); dupSym := "_g" |}].
Proof. repeat split. Qed.

Lemma addDefined_strong_vs_lazy_member_witness :
  exists st',
    @addDefined plainCollaborators "_s" (Some memberX) None 0 0 false
      false false false false false (oneSlot "_s" (IsDefined (strongIn "_s" objB)))
    = Ok (Some "_s", st')
    /\ symMap st' !! "_s"
       = Some {| isUsedInRegularObj := true;
                 body := IsDefined (strongIn "_s" objB) |}.
Proof.
  destruct (@addDefined_strong_vs_lazy_member plainCollaborators
              (oneSlot "_s" (IsDefined (strongIn "_s" objB))) "_s"
              {| isUsedInRegularObj := false;
                 body := IsDefined (strongIn "_s" objB) |}
              (strongIn "_s" objB) memberX None 0 0 false false false
              false false eq_refl eq_refl eq_refl eq_refl eq_refl)
    as (st' & Hrun & Hslot & _).
  exists st'. split; [exact Hrun|exact Hslot].
Defined.

(** C3, as stated, fails: a strong definition from the bitcode file
    [a.bc] loses to a strong definition that comes in from the lazy
    archive member [libx.a(x.o)]. *)
Lemma bitcode_never_loses_counterexample :
  isa BitcodeKind bitcodeA = true
  /\ lazyArchiveMember memberX = true
  /\ slotAfter
       (@addDefined plainCollaborators "_s" (Some memberX) None 0 0 false
          false false false false false
          (oneSlot "_s" (IsDefined (strongIn "_s" bitcodeA))))
       "_s"
     = Some (IsDefined (strongIn "_s" memberX)).
Proof. repeat split. Qed.

(** Both files lazy archive members: [libx.a(x.o)] has the priority 1
    and [liby.a(y.o)] the priority 2.  The definition that is there is
    kept when the one that comes in has the lower number, and is
    replaced when it has the higher one. *)
Example lazy_members_later_file_wins :
  slotAfter
    (@addDefined plainCollaborators "_s" (Some memberX) None 0 0 false
       false false false false false
       (oneSlot "_s" (IsDefined (strongIn "_s" memberY))))
    "_s"
  = Some (IsDefined (strongIn "_s" memberY))
  /\ slotAfter
       (@addDefined plainCollaborators "_s" (Some memberY) None 0 0 false
          false false false false false
          (oneSlot "_s" (IsDefined (strongIn "_s" memberX))))
       "_s"
     = Some (IsDefined (strongIn "_s" memberY)).
Proof. split; reflexivity. Qed.

Lemma addUndefined_on_lazy_archive_witness :
  exists st',
    addUndefined "_h" (Some objC) false
      (oneSlot "_h" (IsLazyArchive {| lazyArchiveFile := archiveL;
                                      lazyArchiveSym := cookieH |}))
    = Ok ("_h", st')
    /\ fetched st' = []
    /\ symMap st' !! "_h"
       = Some {| isUsedInRegularObj := true;
                 body := IsLazyArchive {| lazyArchiveFile := archiveL;
                                          lazyArchiveSym := cookieH |} |}.
Proof.
  apply (addUndefined_on_lazy_archive
           (oneSlot "_h" (IsLazyArchive {| lazyArchiveFile := archiveL;
                                           lazyArchiveSym := cookieH |}))
           "_h"
           {| isUsedInRegularObj := false;
              body := IsLazyArchive {| lazyArchiveFile := archiveL;
                                       lazyArchiveSym := cookieH |} |});
    reflexivity.
Defined.

(** C4, as stated, fails: in scenario S4, [addLazyArchive] and then
    [addUndefined] on [_h], no member is fetched and the slot still holds
    the [LazyArchive]. *)
Lemma lazy_pull_counterexample :
  let run :=
    (let* _ := @addLazyArchive idleLoader "_h" archiveL cookieH in
     addUndefined "_h" (Some objC) false) emptyState in
  result run = Some "_h"
  /\ (fetched <$> finalState run) = Some []
  /\ slotAfter run "_h"
     = Some (IsLazyArchive {| lazyArchiveFile := archiveL;
                              lazyArchiveSym := cookieH |}).
Proof. repeat split. Qed.

Lemma addDefined_over_dylib_witness :
  exists st',
    @addDefined plainCollaborators "_f" (Some objB) None 16 4 false
      false false false false false (oneSlot "_f" (IsDylib weakDylibF))
    = Ok (Some "_f", st')
    /\ (body <$> symMap st' !! "_f")
       = Some (IsDefined
                 {| definedName := "_f"; definedFile := Some objB; isec := None;
                    value := 16; size := 4; weakDef := false;
                    isExternal := true; privateExtern := false;
                    includeInSymtab := true; thumb := false;
                    referencedDynamically := false; noDeadStrip := false;
                    overridesWeakDef := true; weakDefCanBeHidden := false;
                    interposable := false |})
    /\ refCalls st' = [CallUnreference weakDylibF]
    /\ dupSymDiags st' = []
    /\ diagnostics st' = [].
Proof.
  destruct (@addDefined_over_dylib plainCollaborators
              (oneSlot "_f" (IsDylib weakDylibF)) "_f"
              {| isUsedInRegularObj := false; body := IsDylib weakDylibF |}
              weakDylibF objB None 16 4 false false false false false false
              eq_refl eq_refl eq_refl)
    as (st' & Hrun & Hslot & Hrefs & Hdups & Hdiags & _).
  exists st'. split; [exact Hrun|]. split; [rewrite Hslot; reflexivity|].
  split; [exact Hrefs|]. split; [exact Hdups|exact Hdiags].
Defined.

(** C5, as stated, fails: a definition that comes in from the lazy
    archive member [libx.a(x.o)] does not win over the [DylibSymbol]: the
    slot is left as it is and the call returns null. *)
Lemma defined_over_dylib_counterexample :
  let run :=
    @addDefined plainCollaborators "_f" (Some memberX) None 16 4 false
      false false false false false (oneSlot "_f" (IsDylib weakDylibF)) in
  result run = Some None
  /\ slotAfter run "_f" = Some (IsDylib weakDylibF)
  /\ (refCalls <$> finalState run) = Some [].
Proof. repeat split. Qed.

Lemma addDefined_over_common_and_result_witness :
  (exists st',
     @addDefined plainCollaborators "_c" (Some objA) None 0 0 false
       false false false false false (oneSlot "_c" (IsCommon commonInY))
     = Ok (Some "_c", st')
     /\ symMap st' !! "_c"
        = Some {| isUsedInRegularObj := true;
                  body := IsDefined (strongIn "_c" objA) |})
  /\ (exists sym' d,
        symMap afterS2 !! "_g" = Some sym' /\ body sym' = IsDefined d).
Proof.
  pose proof (@addDefined_over_common_and_result plainCollaborators) as Hthm.
  split.
  - destruct (proj1 (Hthm (oneSlot "_c" (IsCommon commonInY)) "_c" objA None 0 0
                      false false false false false false)
                {| isUsedInRegularObj := false; body := IsCommon commonInY |}
                commonInY memberY eq_refl eq_refl eq_refl eq_refl)
      as (st' & Hrun & Hslot).
    exists st'. split; [exact Hrun|exact Hslot].
  - destruct (proj2 (Hthm (stateAfter
                             (@addDefined plainCollaborators "_g" (Some objA) None
                                0 0 false false false false false false)
                             emptyState)
                      "_g" objB None 0 0 false false false false false false)
                (Some objB) (Some "_g") afterS2 eq_refl)
      as [(_ & Hdef)|(Hnull & _)]; [exact Hdef|discriminate Hnull].
Defined.

(** C6, as stated, fails: the common symbol of the lazy archive member
    [liby.a(y.o)], of priority 2, is kept when the definition comes in
    from the lazy archive member [libx.a(x.o)], of priority 1, and the
    call returns null. *)
Lemma defined_over_common_counterexample :
  let run :=
    @addDefined plainCollaborators "_c" (Some memberX) None 0 0 false
      false false false false false (oneSlot "_c" (IsCommon commonInY)) in
  result run = Some None
  /\ slotAfter run "_c" = Some (IsCommon commonInY).
Proof. repeat split. Qed.

Lemma addUndefined_refState_is_max_witness :
  exists st' sym',
    addUndefinedAll "_f" [(Some objA, true); (Some objB, false); (Some objC, true)]
      (oneSlot "_f" (IsDylib weakDylibF))
    = Ok (tt, st')
    /\ symMap st' !! "_f" = Some sym'
    /\ slotRefState sym' = Some Strong.
Proof.
  destruct (addUndefined_refState_is_max
              (oneSlot "_f" (IsDylib weakDylibF)) "_f"
              {| isUsedInRegularObj := false; body := IsDylib weakDylibF |}
              Unreferenced
              [(Some objA, true); (Some objB, false); (Some objC, true)]
              eq_refl eq_refl)
    as (st' & sym' & Hrun & Hslot & Hmax & _).
  exists st', sym'. split; [exact Hrun|]. split; [exact Hslot|exact Hmax].
Defined.

Lemma report_pending_twice_witness :
  (exists emitted,
     @reportPendingUndefinedSymbols plainCollaborators afterS6
     = Ok (tt, setUndefs [] (setDiagnostics (diagnostics afterS6 ++ emitted) afterS6))
     /\ length emitted = 1%nat)
  /\ (let st1 := stateAfter (@reportPendingUndefinedSymbols plainCollaborators)
                    afterS6 in
      undefs st1 = []
      /\ @reportPendingUndefinedSymbols plainCollaborators st1 = Ok (tt, st1)).
Proof.
  pose proof (@report_pending_twice plainCollaborators) as Hthm.
  split.
  - apply (proj1 (proj2 (proj2 (Hthm afterS6)))).
    + left. reflexivity.
    + intros u [<-|[]]. vm_compute. eexists. reflexivity.
  - apply (proj1 (Hthm afterS6)). reflexivity.
Defined.

(** C8, as stated, fails: [reportPendingDuplicateSymbols] called twice in
    a row on the pool of scenario S2 emits the duplicate a second time. *)
Lemma report_duplicates_twice_counterexample :
  let message :=
    "duplicate symbol: _g" ++ newline ++ ">>> defined in a.o" ++ newline
    ++ ">>> defined in b.o" in
  (diagnostics <$> finalState (@reportPendingDuplicateSymbols plainCollaborators
                                 afterS2))
  = Some [Warn message]
  /\ (diagnostics <$> finalState
        ((let* _ := @reportPendingDuplicateSymbols plainCollaborators in
          @reportPendingDuplicateSymbols plainCollaborators) afterS2))
     = Some [Warn message; Warn message].
Proof. split; reflexivity. Qed.

(** C9 at the failing input: [_foo] and [__Z3foov] are both undefined; the
    typo search for [_foo] finds nothing by edit distance or by case, and
    its scan of the table for a C++ function of that name returns the slot
    of [__Z3foov], which holds an [Undefined]. *)
Theorem getAlternativeSpelling_suggests_undefined :
  symMap twoUndefined !! "_foo" = Some undefinedFoo
  /\ @getAlternativeSpelling plainCollaborators twoUndefined undefinedFoo ": " ""
     = (Some (Global "__Z3foov"), " to declare ",
        " as extern " ++ dquote ++ "C" ++ dquote ++ "?")
  /\ (isUndefined <$> symMap twoUndefined !! "__Z3foov") = Some true
  /\ ~ qualifies twoUndefined (Global "__Z3foov").
Proof.
  split; [reflexivity|]. split; [vm_compute; reflexivity|].
  split; [reflexivity|].
  intros (s & Hs & Hu). vm_compute in Hs. injection Hs as <-. discriminate Hu.
Qed.

(** The diagnostic that this makes of the undefined [_foo]. *)
Example report_suggests_undefined :
  (diagnostics <$> finalState (@reportPendingUndefinedSymbols plainCollaborators
                                 twoUndefinedPending))
  = Some [Error ("undefined symbol: _foo" ++ newline
                 ++ ">>> referenced by c.o" ++ newline
                 ++ ">>> did you mean to declare __Z3foov as extern "
                 ++ dquote ++ "C" ++ dquote ++ "?" ++ newline
                 ++ ">>> defined in: c.o")].
Proof. vm_compute. reflexivity. Qed.

Lemma addDefined_null_file_on_dylib_witness :
  symMap (oneSlot "_f" (IsDylib weakDylibF)) !! "_f"
  = Some {| isUsedInRegularObj := false; body := IsDylib weakDylibF |}
  /\ @addDefined plainCollaborators "_f" None None 0 0 false true false
       false false false (oneSlot "_f" (IsDylib weakDylibF))
     = Crash NullDereference
  /\ @addSynthetic plainCollaborators "_f" None 0 true false false
       (oneSlot "_f" (IsDylib weakDylibF))
     = Crash NullDereference.
Proof.
  split; [reflexivity|].
  destruct (@addDefined_null_file_on_dylib plainCollaborators
              (oneSlot "_f" (IsDylib weakDylibF)) "_f"
              {| isUsedInRegularObj := false; body := IsDylib weakDylibF |}
              weakDylibF None 0 0 false true false false false false false
              eq_refl eq_refl)
    as (Hnull & Hsynthetic & _).
  split; [exact Hnull|exact (Hsynthetic eq_refl)].
Defined.

(** ** The other entry points *)

(** X1: [insert] followed by [find].  [insert] returns the slot of the
    name and whether the name was new; [find] then returns that slot.  A
    new slot is blank, an existing one keeps its variant; the slot is
    used in a regular object if it was or if the file is null or an
    object file.  The other names, the duplicates and the pending
    undefined symbols are as they were. *)
Theorem insert_then_find (st : State) name file :
  exists s st',
    insert name file st = Ok ((s, isNull (symMap st !! name)), st')
    /\ find name st' = Some s
    /\ body s = match symMap st !! name with
                | Some sym => body sym
                | None => Blank
                end
    /\ isUsedInRegularObj s = flagBefore st name || fromRegularObj file
    /\ (forall n, n <> name -> find n st' = find n st)
    /\ dupSymDiags st' = dupSymDiags st
    /\ undefs st' = undefs st.
Proof.
  unfold flagBefore, find.
  destruct (symMap st !! name) as [sym|] eqn:Hs.
  - rewrite (insert_hit _ _ _ _ Hs). eexists. eexists. split; [reflexivity|].
    simpl. rewrite lookup_insert_eq. repeat split.
    intros n Hn. by rewrite lookup_insert_ne.
  - rewrite (insert_miss _ _ _ Hs). eexists. eexists. split; [reflexivity|].
    simpl. rewrite lookup_insert_eq. repeat split.
    intros n Hn. by rewrite lookup_insert_ne.
Qed.

Ltac settle_write :=
  intros [= <- <-]; eexists; split;
  [simpl; rewrite ?insert_insert_eq; reflexivity
  |simpl; unfold markUsed; simpl; repeat split; try reflexivity].

Lemma insert_run (st : State) name file :
  insert name file st
  = Ok ((markUsed file (insertedOr name freshSlot st),
         isNull (symMap st !! name)),
        setSymMap (<[name := markUsed file (insertedOr name freshSlot st)]>
                     (symMap st)) st).
Proof.
  unfold insertedOr. destruct (symMap st !! name) eqn:Hs.
  - by rewrite (insert_hit _ _ _ _ Hs).
  - by rewrite (insert_miss _ _ _ Hs).
Qed.

Lemma flag_insertedOr (st : State) name :
  isUsedInRegularObj (insertedOr name freshSlot st) = flagBefore st name.
Proof. unfold insertedOr, flagBefore. by destruct (symMap st !! name). Qed.

Section EntryPointFacts.
Context `{Collaborators}.

Lemma addDefined_writesSlot name file isec value size isWeakDef isPrivateExtern
    isThumb isReferencedDynamically noDeadStrip isWeakDefCanBeHidden :
  writesSlot (addDefined name file isec value size isWeakDef isPrivateExtern
                isThumb isReferencedDynamically noDeadStrip isWeakDefCanBeHidden)
    name file.
Proof.
  intros st a st'. unfold addDefined, bind. rewrite insert_run.
  rewrite <- flag_insertedOr.
  generalize (insertedOr name freshSlot st). intros s.
  destruct (bitcodeHasNoSection file isec); simpl; [|discriminate].
  destruct (isNull (symMap st !! name)); simpl; [settle_write|].
  destruct (body s) as [|defined|undef|common|dysym|la|lo] eqn:Hb; simpl;
    try settle_write.
  - destruct isWeakDef; simpl.
    { destruct (getRank file false true <? _)%Z; simpl;
        [|destruct (weakDef defined); simpl]; settle_write. }
    destruct (weakDef defined); simpl; [settle_write|].
    destruct file as [f0|]; simpl; [|settle_write].
    destruct (lazyArchiveMember f0); simpl; [|settle_write].
    destruct (definedFile defined) as [ef|]; simpl; [|discriminate].
    destruct (isa BitcodeKind ef); simpl;
      [|destruct (lazyArchiveMember ef); simpl;
        [destruct (priority f0 <? priority ef)%Z; simpl|]]; settle_write.
  - destruct (commonFile common) as [cf|]; simpl; [|discriminate].
    destruct (lazyArchiveMember cf); simpl; [|settle_write].
    destruct file as [f0|]; simpl; [|discriminate].
    destruct (lazyArchiveMember f0 && (priority f0 <? priority cf)%Z); simpl;
      settle_write.
  - destruct file as [f0|]; simpl; [|discriminate].
    destruct (lazyArchiveMember f0); simpl; settle_write.
Qed.

Lemma addSynthetic_writesSlot name isec value isPrivateExtern includeInSymtab
    referencedDynamically :
  writesSlot (addSynthetic name isec value isPrivateExtern includeInSymtab
                referencedDynamically) name None.
Proof.
  intros st a st'. unfold addSynthetic, addDefined, bind.
  destruct (sectionIsSynthetic isec); simpl; [|discriminate].
  rewrite insert_run. rewrite <- flag_insertedOr.
  generalize (insertedOr name freshSlot st). intros s. simpl.
  destruct (isNull (symMap st !! name)); simpl.
  { rewrite lookup_insert_eq. simpl. settle_write. }
  destruct (body s) as [|defined|undef|common|dysym|la|lo] eqn:Hb; simpl;
    try (rewrite lookup_insert_eq; simpl; settle_write); try discriminate.
  - destruct (weakDef defined); simpl;
      rewrite lookup_insert_eq; simpl; settle_write.
  - destruct (commonFile common) as [cf|]; simpl; [|discriminate].
    destruct (lazyArchiveMember cf); simpl; [discriminate|].
    rewrite lookup_insert_eq; simpl; settle_write.
Qed.

Lemma addUndefined_writesSlot name file isWeakRef :
  writesSlot (addUndefined name file isWeakRef) name file.
Proof.
  intros st a st'. unfold addUndefined, bind. rewrite insert_run.
  rewrite <- flag_insertedOr.
  generalize (insertedOr name freshSlot st). intros s. simpl.
  destruct (isNull (symMap st !! name)); simpl; [settle_write|].
  destruct (body s); simpl; settle_write.
Qed.

Lemma addCommon_writesSlot name file size align isPrivateExtern :
  writesSlot (addCommon name file size align isPrivateExtern) name file.
Proof.
  intros st a st'. unfold addCommon, bind. rewrite insert_run.
  rewrite <- flag_insertedOr.
  generalize (insertedOr name freshSlot st). intros s. simpl.
  destruct (isNull (symMap st !! name)); simpl; [settle_write|].
  destruct (body s) as [|defined|undef|common|dysym|la|lo] eqn:Hb; simpl;
    try settle_write.
  - destruct (definedFile defined) as [df|]; simpl; [|discriminate].
    destruct (lazyArchiveMember df); simpl; [|settle_write].
    destruct file as [f0|]; simpl; [|discriminate].
    destruct (lazyArchiveMember f0); simpl;
      [destruct (priority f0 <? priority df)%Z; simpl|]; settle_write.
  - destruct (size <? commonSize common)%Z; simpl; [settle_write|].
    destruct (commonFile common) as [cf|]; simpl; [|discriminate].
    destruct (lazyArchiveMember cf); simpl; [|settle_write].
    destruct file as [f0|]; simpl; [|discriminate].
    destruct (lazyArchiveMember f0 && (priority f0 <? priority cf)%Z); simpl;
      settle_write.
Qed.

Lemma resolveDylib_writesSlot name file isWeakDef isTlv :
  writesSlot (resolveDylib name file isWeakDef isTlv) name file.
Proof.
  intros st a st'. unfold resolveDylib, bind. rewrite insert_run.
  rewrite <- flag_insertedOr.
  generalize (insertedOr name freshSlot st). intros s. simpl.
  unfold isUndefined.
  destruct (isNull (symMap st !! name)); simpl;
    [destruct (body s); simpl; settle_write|].
  destruct (body s) as [|defined|undef|common|dysym|la|lo] eqn:Hb; simpl;
    try settle_write.
  - destruct (isWeakDef && negb (weakDef defined)); simpl; settle_write.
  - destruct (negb isWeakDef && dylibWeakDef dysym
              || negb (isNull file) && isDynamicLookup dysym); simpl;
      settle_write.
Qed.

Lemma addDefinedEager_writesSlot name file isec value size isWeakDef
    isPrivateExtern isThumb isReferencedDynamically noDeadStrip
    isWeakDefCanBeHidden :
  writesSlot (addDefinedEager name file isec value size isWeakDef
                isPrivateExtern isThumb isReferencedDynamically noDeadStrip
                isWeakDefCanBeHidden) name file.
Proof.
  intros st a st'.
  unfold addDefinedEager, bind, get, replaceSymbol, writeSlot, modify, ret.
  simpl. rewrite <- flag_insertedOr. settle_write.
Qed.

Lemma addUndefinedEager_writesSlot name file isWeakRef :
  writesSlot (addUndefinedEager name file isWeakRef) name file.
Proof.
  intros st a st'. unfold addUndefinedEager, bind, get, writeSlot, modify, ret.
  simpl.
  unfold flagBefore, insertedOr. destruct (symMap st !! name); settle_write.
Qed.

Lemma addCommonEager_writesSlot name file size align isPrivateExtern :
  writesSlot (addCommonEager name file size align isPrivateExtern) name file.
Proof.
  intros st a st'. unfold addCommonEager, bind, get, writeSlot, modify, ret.
  simpl.
  unfold flagBefore, insertedOr. destruct (symMap st !! name); settle_write.
Qed.

(** X2: every entry point that returns has written to the slot of its
    name alone, leaving there a symbol whose [isUsedInRegularObj] is the
    old flag or [!file || isa<ObjFile>(file)], and has left the pending
    undefined symbols, the diagnostics and the fetched members as they
    were. *)
Theorem entry_points_write_their_slot name file isec value size align
    isWeakDef isPrivateExtern isThumb isReferencedDynamically noDeadStrip
    isWeakDefCanBeHidden isWeakRef isTlv includeInSymtab :
  writesSlot (addDefined name file isec value size isWeakDef isPrivateExtern
                isThumb isReferencedDynamically noDeadStrip isWeakDefCanBeHidden)
    name file
  /\ writesSlot (addSynthetic name isec value isPrivateExtern includeInSymtab
                   isReferencedDynamically) name None
  /\ writesSlot (addUndefined name file isWeakRef) name file
  /\ writesSlot (addCommon name file size align isPrivateExtern) name file
  /\ writesSlot (resolveDylib name file isWeakDef isTlv) name file
  /\ writesSlot (addDynamicLookup name) name None
  /\ writesSlot (addDefinedEager name file isec value size isWeakDef
                   isPrivateExtern isThumb isReferencedDynamically noDeadStrip
                   isWeakDefCanBeHidden) name file
  /\ writesSlot (addUndefinedEager name file isWeakRef) name file
  /\ writesSlot (addCommonEager name file size align isPrivateExtern) name file.
Proof.
  repeat split.
  - apply addDefined_writesSlot.
  - apply addSynthetic_writesSlot.
  - apply addUndefined_writesSlot.
  - apply addCommon_writesSlot.
  - apply resolveDylib_writesSlot.
  - apply resolveDylib_writesSlot.
  - apply addDefinedEager_writesSlot.
  - apply addUndefinedEager_writesSlot.
  - apply addCommonEager_writesSlot.
Qed.

(** X3: [addDefinedEager] makes no rank contest and records no
    duplicate: whatever the slot of the name holds, it returns the slot
    with the incoming [Defined] in it, [overridesWeakDef] off. *)
Theorem addDefinedEager_overwrites (st : State) name file isec value size
    isWeakDef isPrivateExtern isThumb isReferencedDynamically noDeadStrip
    isWeakDefCanBeHidden :
  exists st',
    addDefinedEager name file isec value size isWeakDef isPrivateExtern
      isThumb isReferencedDynamically noDeadStrip isWeakDefCanBeHidden st
    = Ok (Some name, st')
    /\ symMap st' !! name
       = Some {| isUsedInRegularObj := flagBefore st name || fromRegularObj file;
                 body := IsDefined
                           (Build_Defined name file isec value size isWeakDef
                              true isPrivateExtern true isThumb
                              isReferencedDynamically noDeadStrip false
                              isWeakDefCanBeHidden
                              (interposableFor isPrivateExtern)) |}
    /\ dupSymDiags st' = dupSymDiags st
    /\ refCalls st' = refCalls st.
Proof.
  cbv [addDefinedEager bind get replaceSymbol writeSlot modify ret].
  eexists. split; [reflexivity|]. simpl. rewrite lookup_insert_eq.
  unfold markUsed. simpl. by rewrite flag_insertedOr.
Qed.

End EntryPointFacts.

(** X4: [addUndefinedEager], [addCommonEager] and [addDylib] keep the
    symbol that the name already has: a new name gets the incoming
    symbol, an existing slot keeps its variant.  The first two update
    [isUsedInRegularObj] of the slot, [addDylib] does not, and [addDylib]
    makes no call of [reference] or [unreference]. *)
Theorem eager_references_keep_existing (st : State) name file size align
    isPrivateExtern isWeakRef isWeakDef isTlv :
  let kept (fresh : SymBody) (flag : bool) :=
    match symMap st !! name with
    | Some sym =>
        Some {| isUsedInRegularObj := isUsedInRegularObj sym || flag;
                body := body sym |}
    | None => Some {| isUsedInRegularObj := flag; body := fresh |}
    end in
  (exists st',
     addUndefinedEager name file isWeakRef st = Ok (name, st')
     /\ symMap st' !! name
        = kept (IsUndefined (Build_Undefined name file
                               (if isWeakRef then Weak else Strong) false))
            (fromRegularObj file))
  /\ (exists st',
       addCommonEager name file size align isPrivateExtern st = Ok (name, st')
       /\ symMap st' !! name
          = kept (IsCommon (Build_CommonSymbol name file size align
                              isPrivateExtern))
              (fromRegularObj file))
  /\ (exists st',
       addDylib name file isWeakDef isTlv st = Ok (name, st')
       /\ symMap st' !! name
          = kept (IsDylib (Build_DylibSymbol file name isWeakDef Unreferenced
                             isTlv)) false
       /\ refCalls st' = refCalls st).
Proof.
  intros kept. subst kept. split; [|split].
  - cbv [addUndefinedEager bind get writeSlot modify ret].
    eexists. split; [reflexivity|]. simpl. rewrite lookup_insert_eq.
    unfold insertedOr. by destruct (symMap st !! name).
  - cbv [addCommonEager bind get writeSlot modify ret].
    eexists. split; [reflexivity|]. simpl. rewrite lookup_insert_eq.
    unfold insertedOr. by destruct (symMap st !! name).
  - unfold addDylib, bind, get.
    destruct (symMap st !! name) as [[flag b]|] eqn:Hs; simpl.
    + eexists. split; [reflexivity|]. rewrite Hs. simpl.
      by rewrite orb_false_r.
    + eexists. split; [reflexivity|]. simpl. by rewrite lookup_insert_eq.
Qed.

Section DefinedFacts.
Context `{Collaborators}.

Local Arguments getRank : simpl never.

Ltac settle_run :=
  intros [= <- <-]; simpl; rewrite ?lookup_insert_eq; auto.

(** X5: when [addDefined] returns, it has recorded a duplicate exactly
    when the slot held a [Defined] and both definitions are strong and
    the incoming file is null or no lazy archive member; the record names
    the two locations and the slot, and is appended to the pool.  The
    pending undefined symbols, the diagnostics and the fetched members
    are as they were. *)
Theorem addDefined_records_duplicate_iff (st : State) name file isec value
    size isWeakDef isPrivateExtern isThumb isReferencedDynamically noDeadStrip
    isWeakDefCanBeHidden p st' :
  addDefined name file isec value size isWeakDef isPrivateExtern isThumb
    isReferencedDynamically noDeadStrip isWeakDefCanBeHidden st
  = Ok (p, st') ->
  dupSymDiags st'
  = match body (insertedOr name freshSlot st) with
    | IsDefined defined =>
        if negb isWeakDef && negb (weakDef defined)
           && negb match file with
                   | Some f => lazyArchiveMember f
                   | None => false
                   end
        then (dupSymDiags st
              ++ [{| src1 := (definedSourceLocation defined,
                              toStringFile (definedFile defined));
                     src2 := (match isec with
                              | Some i => isecSourceLocation i value
                              | None => ""
                              end, toStringFile file);
                     dupSym := name |}])%list
        else dupSymDiags st
    | _ => dupSymDiags st
    end
  /\ undefs st' = undefs st
  /\ diagnostics st' = diagnostics st
  /\ fetched st' = fetched st.
Proof.
  unfold addDefined, bind. rewrite insert_run.
  assert (isNull (symMap st !! name) = true
          -> body (insertedOr name freshSlot st) = Blank) as Hnew.
  { unfold insertedOr. by destruct (symMap st !! name). }
  revert Hnew. generalize (insertedOr name freshSlot st). intros s Hnew.
  destruct (bitcodeHasNoSection file isec); simpl; [|discriminate].
  destruct (isNull (symMap st !! name)); simpl.
  { rewrite Hnew by done. settle_run. }
  clear Hnew.
  destruct (body s) as [|defined|undef|common|dysym|la|lo] eqn:Hb; simpl;
    try settle_run.
  - destruct isWeakDef; simpl.
    { destruct (getRank file false true <? _)%Z; simpl;
        [|destruct (weakDef defined); simpl]; settle_run. }
    destruct (weakDef defined); simpl; [settle_run|].
    destruct file as [f0|]; simpl; [|settle_run].
    destruct (lazyArchiveMember f0); simpl; [|settle_run].
    destruct (definedFile defined) as [ef|]; simpl; [|discriminate].
    destruct (isa BitcodeKind ef); simpl;
      [|destruct (lazyArchiveMember ef); simpl;
        [destruct (priority f0 <? priority ef)%Z; simpl|]]; settle_run.
  - destruct (commonFile common) as [cf|]; simpl; [|discriminate].
    destruct (lazyArchiveMember cf); simpl; [|settle_run].
    destruct file as [f0|]; simpl; [|discriminate].
    destruct (lazyArchiveMember f0 && (priority f0 <? priority cf)%Z); simpl;
      settle_run.
  - destruct file as [f0|]; simpl; [|discriminate].
    destruct (lazyArchiveMember f0); simpl; settle_run.
Qed.

(** X6: [addDefined] on a slot that holds an [Undefined] or a lazy
    symbol installs the incoming [Defined], with no duplicate and no
    reference call.  Over an [Undefined] that was a bitcode symbol, the
    file of the new [Defined] is the file of the [Undefined], not the
    incoming one. *)
Theorem addDefined_over_reference (st : State) name sym file isec value size
    isWeakDef isPrivateExtern isThumb isReferencedDynamically noDeadStrip
    isWeakDefCanBeHidden :
  symMap st !! name = Some sym ->
  bitcodeHasNoSection file isec = true ->
  let installs owner :=
    exists st',
      addDefined name file isec value size isWeakDef isPrivateExtern isThumb
        isReferencedDynamically noDeadStrip isWeakDefCanBeHidden st
      = Ok (Some name, st')
      /\ symMap st' !! name
         = Some {| isUsedInRegularObj :=
                     isUsedInRegularObj sym || fromRegularObj file;
                   body := IsDefined
                             (Build_Defined name owner isec value size
                                isWeakDef true isPrivateExtern true isThumb
                                isReferencedDynamically noDeadStrip false
                                isWeakDefCanBeHidden
                                (interposableFor isPrivateExtern)) |}
      /\ dupSymDiags st' = dupSymDiags st
      /\ refCalls st' = refCalls st in
  (forall undef,
     body sym = IsUndefined undef ->
     installs (if wasBitcodeSymbol undef then undefFile undef else file))
  /\ ((exists l, body sym = IsLazyArchive l) \/ (exists l, body sym = IsLazyObject l) ->
      installs file).
Proof.
  intros Hs Ha installs. subst installs. split.
  - intros undef Hb. unfold addDefined, bind.
    rewrite (insert_hit _ _ _ _ Hs). rewrite Ha. simpl. rewrite Hb. simpl.
    eexists. split; [reflexivity|]. simpl. rewrite lookup_insert_eq. auto.
  - intros [[l Hb]|[l Hb]]; unfold addDefined, bind;
      rewrite (insert_hit _ _ _ _ Hs); rewrite Ha; simpl; rewrite Hb; simpl;
      (eexists; split; [reflexivity|]); simpl; rewrite lookup_insert_eq; auto.
Qed.

(** X7: two weak definitions of a new name, from the files [F] and [G]
    with the rank of [F] below the rank of [G].  In either order of the
    two calls the slot ends up as the [Defined] of [F], and no duplicate
    is recorded.  The flags depend on the order: when [F] comes first,
    the flags of [G] are merged into it ([privateExtern] and
    [weakDefCanBeHidden] by and, [referencedDynamically] and
    [noDeadStrip] by or); when [G] comes first, its slot is replaced and
    the flags are those of [F] alone. *)
Theorem addDefined_weak_pair_either_order (st : State) name F G
    isecF valueF sizeF privateExternF thumbF referencedDynamicallyF
    noDeadStripF weakDefCanBeHiddenF
    isecG valueG sizeG privateExternG thumbG referencedDynamicallyG
    noDeadStripG weakDefCanBeHiddenG :
  symMap st !! name = None ->
  getRank (Some F) false true < getRank (Some G) false true ->
  bitcodeHasNoSection (Some F) isecF = true ->
  bitcodeHasNoSection (Some G) isecG = true ->
  let definedF :=
    Build_Defined name (Some F) isecF valueF sizeF true true privateExternF
      true thumbF referencedDynamicallyF noDeadStripF false
      weakDefCanBeHiddenF (interposableFor privateExternF) in
  let addF :=
    addDefined name (Some F) isecF valueF sizeF true privateExternF thumbF
      referencedDynamicallyF noDeadStripF weakDefCanBeHiddenF in
  let addG :=
    addDefined name (Some G) isecG valueG sizeG true privateExternG thumbG
      referencedDynamicallyG noDeadStripG weakDefCanBeHiddenG in
  exists stFG stGF,
    (let* _ := addF in addG) st = Ok (Some name, stFG)
    /\ (let* _ := addG in addF) st = Ok (Some name, stGF)
    /\ symMap stFG !! name
       = Some {| isUsedInRegularObj := isa ObjKind F || isa ObjKind G;
                 body := IsDefined
                           (orNoDeadStrip noDeadStripG
                             (orReferencedDynamically referencedDynamicallyG
                               (andWeakDefCanBeHidden weakDefCanBeHiddenG
                                 (andPrivateExtern privateExternG definedF)))) |}
    /\ symMap stGF !! name
       = Some {| isUsedInRegularObj := isa ObjKind G || isa ObjKind F;
                 body := IsDefined definedF |}
    /\ dupSymDiags stFG = dupSymDiags st
    /\ dupSymDiags stGF = dupSymDiags st.
Proof.
  intros Hs Hrank HaF HaG definedF addF addG. subst addF addG.
  assert ((getRank (Some G) false true <? getRank (Some F) false true)%Z = false)
    as HGF by (apply Z.ltb_ge; lia).
  assert ((getRank (Some F) false true <? getRank (Some G) false true)%Z = true)
    as HFG by (apply Z.ltb_lt; lia).
  eexists. eexists. split; [|split].
  - unfold bind at 1. unfold addDefined at 1. unfold bind.
    rewrite (insert_miss _ _ _ Hs). rewrite HaF. simpl.
    unfold addDefined, bind.
    erewrite insert_hit by (simpl; rewrite lookup_insert_eq; reflexivity).
    rewrite HaG. simpl. rewrite HGF. simpl. reflexivity.
  - unfold bind at 1. unfold addDefined at 1. unfold bind.
    rewrite (insert_miss _ _ _ Hs). rewrite HaG. simpl.
    unfold addDefined, bind.
    erewrite insert_hit by (simpl; rewrite lookup_insert_eq; reflexivity).
    rewrite HaF. simpl. rewrite HFG. simpl. reflexivity.
  - simpl. rewrite !lookup_insert_eq. auto.
Qed.

(** X8: a weak definition that comes in over a strong one.  When the
    strong one is in an object file that is no lazy archive member, the
    slot stays as it is and no duplicate is recorded.  When the strong
    one has no file (a synthetic symbol), its rank [7 << 24] is above
    the rank of any file, and the weak definition replaces it. *)
Theorem addDefined_weak_against_strong (st : State) name sym existing f isec
    value size isPrivateExtern isThumb isReferencedDynamically noDeadStrip
    isWeakDefCanBeHidden :
  symMap st !! name = Some sym ->
  body sym = IsDefined existing ->
  bitcodeHasNoSection (Some f) isec = true ->
  0 <= priority f < 2 ^ 24 ->
  (forall ef,
     definedFile existing = Some ef ->
     weakDef existing = false ->
     isa DylibKind ef = false -> lazyArchiveMember ef = false ->
     0 <= priority ef < 2 ^ 24 ->
     exists st',
       addDefined name (Some f) isec value size true isPrivateExtern isThumb
         isReferencedDynamically noDeadStrip isWeakDefCanBeHidden st
       = Ok (Some name, st')
       /\ symMap st' !! name = Some (markUsed (Some f) sym)
       /\ dupSymDiags st' = dupSymDiags st)
  /\ (definedFile existing = None ->
      exists st',
        addDefined name (Some f) isec value size true isPrivateExtern isThumb
          isReferencedDynamically noDeadStrip isWeakDefCanBeHidden st
        = Ok (Some name, st')
        /\ symMap st' !! name
           = Some {| isUsedInRegularObj := isUsedInRegularObj sym || isa ObjKind f;
                     body := IsDefined
                               (Build_Defined name (Some f) isec value size
                                  true true isPrivateExtern true isThumb
                                  isReferencedDynamically noDeadStrip false
                                  isWeakDefCanBeHidden
                                  (interposableFor isPrivateExtern)) |}).
Proof.
  intros Hs Hb Ha Hp.
  assert (1 <= rankClass f false true <= 6) as Hc.
  { unfold rankClass. destruct (isa DylibKind f || lazyArchiveMember f); lia. }
  assert (getRank (Some f) false true
          = rankClass f false true * 16777216 + priority f) as Hf.
  { rewrite getRank_formula
      by (unfold priorityBound; change (2 ^ 31 - 7 * 2 ^ 24) with 2030043136;
          change (2 ^ 24) with 16777216 in Hp; lia).
    by rewrite Z.shiftl_mul_pow2 by lia. }
  change (2 ^ 24) with 16777216 in *.
  split.
  - intros ef Hef Hw Hd Hl Hpe.
    assert ((getRank (Some f) false true <? getRank (Some ef) false false)%Z = false)
      as Hrank.
    { apply Z.ltb_ge. rewrite Hf.
      rewrite getRank_formula
        by (unfold priorityBound; change (2 ^ 31 - 7 * 2 ^ 24) with 2030043136; lia).
      rewrite Z.shiftl_mul_pow2 by lia. change (2 ^ 24) with 16777216.
      unfold rankClass. rewrite Hd, Hl. simpl orb. cbv iota.
      unfold rankClass in Hf, Hc.
      destruct (isa DylibKind f || lazyArchiveMember f); lia. }
    unfold addDefined, bind. rewrite (insert_hit _ _ _ _ Hs). rewrite Ha.
    simpl. rewrite Hb. simpl. rewrite Hef, Hw, Hrank. simpl.
    eexists. split; [reflexivity|]. simpl. rewrite lookup_insert_eq. auto.
  - intros Hef.
    assert ((getRank (Some f) false true
             <? getRank None false (weakDef existing))%Z = true) as Hrank.
    { apply Z.ltb_lt. rewrite Hf. change (getRank None false (weakDef existing))
        with 117440512. lia. }
    unfold addDefined, bind. rewrite (insert_hit _ _ _ _ Hs). rewrite Ha.
    simpl. rewrite Hb. simpl. rewrite Hef, Hrank. simpl.
    eexists. split; [reflexivity|]. simpl. rewrite lookup_insert_eq. auto.
Qed.

End DefinedFacts.

(** X9: [addUndefined] always returns the slot of the name, and touches
    neither the duplicates, the pending undefined symbols, the
    diagnostics nor the fetched members.  A new name gets an [Undefined]
    with the requested [refState] that was no bitcode symbol; an existing
    slot keeps its variant, and a slot that is neither an [Undefined] nor
    a [DylibSymbol] is left as it is, with no reference call. *)
Theorem addUndefined_cases (st : State) name file isWeakRef :
  exists st',
    addUndefined name file isWeakRef st = Ok (name, st')
    /\ dupSymDiags st' = dupSymDiags st
    /\ undefs st' = undefs st
    /\ diagnostics st' = diagnostics st
    /\ fetched st' = fetched st
    /\ match symMap st !! name with
       | None =>
           symMap st' !! name
           = Some {| isUsedInRegularObj := fromRegularObj file;
                     body := IsUndefined
                               (Build_Undefined name file
                                  (if isWeakRef then Weak else Strong) false) |}
           /\ refCalls st' = refCalls st
       | Some sym =>
           exists sym',
             symMap st' !! name = Some sym'
             /\ sameVariant (body sym) (body sym') = true
             /\ (slotRefState sym = None ->
                 body sym' = body sym /\ refCalls st' = refCalls st)
       end.
Proof.
  unfold addUndefined, bind.
  destruct (symMap st !! name) as [sym|] eqn:Hs.
  - rewrite (insert_hit _ _ _ _ Hs). simpl. unfold slotRefState.
    destruct (body sym) eqn:Hb; simpl;
      (eexists; split; [reflexivity|]); simpl; rewrite lookup_insert_eq;
      (do 4 (split; [reflexivity|])); eexists; (split; [reflexivity|]);
      simpl; rewrite ?Hb; simpl; (split; [reflexivity|]); try done; auto.
  - rewrite (insert_miss _ _ _ Hs). simpl.
    eexists. split; [reflexivity|]. simpl. rewrite lookup_insert_eq.
    repeat split.
Qed.

(** X10: [addCommon] over a [CommonSymbol].  The existing one stays when
    the incoming size is smaller, or when both files are lazy archive
    members and the incoming priority is lower; otherwise the incoming
    one replaces it.  Either way the size in the slot does not
    decrease. *)
Theorem addCommon_over_common (st : State) name sym common cf f size align
    isPrivateExtern :
  symMap st !! name = Some sym ->
  body sym = IsCommon common ->
  commonFile common = Some cf ->
  let keeps :=
    (size <? commonSize common)%Z
    || lazyArchiveMember cf && lazyArchiveMember f
       && (priority f <? priority cf)%Z in
  exists st' common',
    addCommon name (Some f) size align isPrivateExtern st = Ok (name, st')
    /\ symMap st' !! name
       = Some {| isUsedInRegularObj := isUsedInRegularObj sym || isa ObjKind f;
                 body := IsCommon common' |}
    /\ common' = (if keeps then common
                  else Build_CommonSymbol name (Some f) size align isPrivateExtern)
    /\ commonSize common <= commonSize common'.
Proof.
  intros Hs Hb Hcf keeps. subst keeps. unfold addCommon, bind.
  rewrite (insert_hit _ _ _ _ Hs). simpl. rewrite Hb. simpl.
  destruct (size <? commonSize common)%Z eqn:Hsize; simpl.
  - eexists. eexists. split; [reflexivity|]. simpl. rewrite lookup_insert_eq.
    unfold markUsed. rewrite Hb. simpl. repeat split. lia.
  - apply Z.ltb_ge in Hsize. rewrite Hcf. simpl.
    destruct (lazyArchiveMember cf); simpl.
    + destruct (lazyArchiveMember f && (priority f <? priority cf)%Z); simpl;
        (eexists; eexists; split; [reflexivity|]); simpl;
        rewrite lookup_insert_eq; unfold markUsed; rewrite ?Hb; simpl;
        repeat split; simpl; lia.
    + eexists. eexists. split; [reflexivity|]. simpl. rewrite lookup_insert_eq.
      repeat split. simpl. lia.
Qed.

(** X11: [addCommon] over a [Defined].  On a [Defined] with no file the
    call dereferences the null [s->getFile()], whatever the incoming
    file.  A [Defined] whose file is no lazy archive member stays,
    whatever the incoming file, null included.  A [Defined] from a lazy
    archive member is replaced by the [CommonSymbol], unless the
    incoming file is a lazy archive member too and its priority is not
    lower; there a null incoming file is dereferenced. *)
Theorem addCommon_over_defined (st : State) name sym defined size align
    isPrivateExtern :
  symMap st !! name = Some sym ->
  body sym = IsDefined defined ->
  match definedFile defined with
  | None =>
      forall file,
        addCommon name file size align isPrivateExtern st
        = Crash NullDereference
  | Some df =>
      if lazyArchiveMember df then
        addCommon name None size align isPrivateExtern st
        = Crash NullDereference
        /\ forall f,
             exists st',
               addCommon name (Some f) size align isPrivateExtern st
               = Ok (name, st')
               /\ symMap st' !! name
                  = Some {| isUsedInRegularObj :=
                              isUsedInRegularObj sym || isa ObjKind f;
                            body :=
                              if lazyArchiveMember f
                                 && negb (priority f <? priority df)%Z
                              then IsDefined defined
                              else IsCommon
                                     (Build_CommonSymbol name (Some f) size
                                        align isPrivateExtern) |}
      else
        forall file,
          exists st',
            addCommon name file size align isPrivateExtern st = Ok (name, st')
            /\ symMap st' !! name = Some (markUsed file sym)
  end.
Proof.
  intros Hs Hb.
  destruct (definedFile defined) as [df|] eqn:Hdf.
  - destruct (lazyArchiveMember df) eqn:Hl.
    + split.
      * unfold addCommon, bind. rewrite (insert_hit _ _ _ _ Hs).
        simpl. rewrite Hb. simpl. rewrite Hdf. simpl. by rewrite Hl.
      * intros f. unfold addCommon, bind. rewrite (insert_hit _ _ _ _ Hs).
        simpl. rewrite Hb. simpl. rewrite Hdf. simpl. rewrite Hl. simpl.
        destruct (lazyArchiveMember f); simpl;
          [destruct (priority f <? priority df)%Z; simpl|];
          (eexists; split; [reflexivity|]); simpl; rewrite ?lookup_insert_eq;
          unfold markUsed; rewrite ?Hb; reflexivity.
    + intros file. unfold addCommon, bind. rewrite (insert_hit _ _ _ _ Hs).
      simpl. rewrite Hb. simpl. rewrite Hdf. simpl. rewrite Hl. simpl.
      eexists. split; [reflexivity|]. simpl. by rewrite lookup_insert_eq.
  - intros file. unfold addCommon, bind. rewrite (insert_hit _ _ _ _ Hs).
    simpl. rewrite Hb. simpl. by rewrite Hdf.
Qed.

(** X12: [resolveDylib], which [addDynamicLookup] calls with a null
    file, over a reference.  An [Undefined] becomes
    the [DylibSymbol] and passes on its [refState].  A [DylibSymbol] is
    replaced when the incoming one is not weak and it is, or when the
    incoming file is not null and it is a dynamic lookup; the old symbol
    is then unreferenced, and its [refState] is carried over.  In all
    cases the [refState] of the slot is the one it had. *)
Theorem resolveDylib_over_reference (st : State) name sym file isWeakDef isTlv :
  symMap st !! name = Some sym ->
  (forall undef,
     body sym = IsUndefined undef ->
     exists st',
       resolveDylib name file isWeakDef isTlv st = Ok (name, st')
       /\ symMap st' !! name
          = Some {| isUsedInRegularObj :=
                      isUsedInRegularObj sym || fromRegularObj file;
                    body := IsDylib (Build_DylibSymbol file name isWeakDef
                                       (refState undef) isTlv) |}
       /\ refCalls st' = refCalls st)
  /\ (forall dysym,
      body sym = IsDylib dysym ->
      let replaces :=
        negb isWeakDef && dylibWeakDef dysym
        || negb (isNull file) && isNull (dylibFile dysym) in
      exists st',
        resolveDylib name file isWeakDef isTlv st = Ok (name, st')
        /\ symMap st' !! name
           = Some {| isUsedInRegularObj :=
                       isUsedInRegularObj sym || fromRegularObj file;
                     body :=
                       if replaces
                       then IsDylib (Build_DylibSymbol file name isWeakDef
                                       (dylibRefState dysym) isTlv)
                       else IsDylib dysym |}
        /\ refCalls st'
           = (if replaces then (refCalls st ++ [CallUnreference dysym])%list
              else refCalls st))
  /\ (forall r,
      slotRefState sym = Some r ->
      exists st' sym',
        resolveDylib name file isWeakDef isTlv st = Ok (name, st')
        /\ symMap st' !! name = Some sym'
        /\ slotRefState sym' = Some r).
Proof.
  intros Hs.
  assert (forall undef,
     body sym = IsUndefined undef ->
     exists st',
       resolveDylib name file isWeakDef isTlv st = Ok (name, st')
       /\ symMap st' !! name
          = Some {| isUsedInRegularObj :=
                      isUsedInRegularObj sym || fromRegularObj file;
                    body := IsDylib (Build_DylibSymbol file name isWeakDef
                                       (refState undef) isTlv) |}
       /\ refCalls st' = refCalls st) as Hundef.
  { intros undef Hb. unfold resolveDylib, bind. rewrite (insert_hit _ _ _ _ Hs).
    unfold isUndefined. simpl. rewrite Hb. simpl.
    eexists. split; [reflexivity|]. simpl. by rewrite lookup_insert_eq. }
  assert (forall dysym,
      body sym = IsDylib dysym ->
      exists st',
        resolveDylib name file isWeakDef isTlv st = Ok (name, st')
        /\ symMap st' !! name
           = Some {| isUsedInRegularObj :=
                       isUsedInRegularObj sym || fromRegularObj file;
                     body :=
                       if negb isWeakDef && dylibWeakDef dysym
                          || negb (isNull file) && isNull (dylibFile dysym)
                       then IsDylib (Build_DylibSymbol file name isWeakDef
                                       (dylibRefState dysym) isTlv)
                       else IsDylib dysym |}
        /\ refCalls st'
           = (if negb isWeakDef && dylibWeakDef dysym
                 || negb (isNull file) && isNull (dylibFile dysym)
              then (refCalls st ++ [CallUnreference dysym])%list
              else refCalls st)) as Hdylib.
  { intros dysym Hb. unfold resolveDylib, bind. rewrite (insert_hit _ _ _ _ Hs).
    unfold isUndefined, isDynamicLookup. simpl. rewrite Hb. simpl.
    destruct (negb isWeakDef && dylibWeakDef dysym
              || negb (isNull file) && isNull (dylibFile dysym)); simpl;
      (eexists; split; [reflexivity|]); simpl; rewrite lookup_insert_eq;
      unfold markUsed; rewrite ?Hb; auto. }
  split; [exact Hundef|]. split; [exact Hdylib|].
  intros r Hr. unfold slotRefState in Hr.
  destruct (body sym) as [|d|u|c|d|l|l] eqn:Hb; try discriminate;
    injection Hr as <-.
  - destruct (Hundef u eq_refl) as (st' & Hrun & Hslot & _).
    eexists. eexists. split; [exact Hrun|]. split; [exact Hslot|]. reflexivity.
  - destruct (Hdylib d eq_refl) as (st' & Hrun & Hslot & _).
    eexists. eexists. split; [exact Hrun|]. split; [exact Hslot|].
    unfold slotRefState. simpl.
    by destruct (negb isWeakDef && dylibWeakDef d
                 || negb (isNull file) && isNull (dylibFile d)).
Qed.

(** X13: [resolveDylib] never replaces a slot that is neither an
    [Undefined] nor a [DylibSymbol].  The one change it makes is to set
    [overridesWeakDef] of a [Defined] that is not weak when the dylib
    symbol is weak. *)
Theorem resolveDylib_keeps_definitions (st : State) name sym file isWeakDef
    isTlv :
  symMap st !! name = Some sym ->
  slotRefState sym = None ->
  exists st',
    resolveDylib name file isWeakDef isTlv st = Ok (name, st')
    /\ symMap st' !! name
       = Some {| isUsedInRegularObj :=
                   isUsedInRegularObj sym || fromRegularObj file;
                 body :=
                   match body sym with
                   | IsDefined defined =>
                       IsDefined (if isWeakDef && negb (weakDef defined)
                                  then setOverridesWeakDef true defined
                                  else defined)
                   | b => b
                   end |}
    /\ refCalls st' = refCalls st.
Proof.
  intros Hs Hr. unfold resolveDylib, bind. rewrite (insert_hit _ _ _ _ Hs).
  unfold isUndefined, slotRefState in *. simpl.
  destruct (body sym) as [|d|u|c|d|l|l] eqn:Hb; try discriminate; simpl;
    try (eexists; split; [reflexivity|]; simpl; rewrite lookup_insert_eq;
         unfold markUsed; rewrite ?Hb; by auto).
  destruct (isWeakDef && negb (weakDef d)); simpl;
    (eexists; split; [reflexivity|]); simpl; rewrite lookup_insert_eq;
    unfold markUsed; rewrite ?Hb; auto.
Qed.

Lemma markUsed_again file sym : markUsed file (markUsed file sym) = markUsed file sym.
Proof. unfold markUsed. simpl. by rewrite <- orb_assoc, orb_diag. Qed.

Ltac close :=
  simpl; unfold setSymMap, markUsed, ret; simpl; rewrite ?insert_insert_eq; simpl;
  rewrite <- ?orb_assoc, ?orb_diag, ?orb_true_r; reflexivity.

(** X14: [resolveDylib] is idempotent: it always returns, and a second
    call with the same arguments leaves the state of the first as it
    is. *)
Theorem resolveDylib_twice (st : State) name file isWeakDef isTlv :
  exists st',
    resolveDylib name file isWeakDef isTlv st = Ok (name, st')
    /\ resolveDylib name file isWeakDef isTlv st' = Ok (name, st').
Proof.
  unfold resolveDylib, bind. rewrite insert_run.
  assert (isNull (symMap st !! name) = true
          -> body (insertedOr name freshSlot st) = Blank) as Hnew.
  { unfold insertedOr. by destruct (symMap st !! name). }
  revert Hnew. generalize (insertedOr name freshSlot st). intros s Hnew.
  unfold isUndefined, isDynamicLookup. simpl.
  destruct (isNull (symMap st !! name)) eqn:Hin; simpl.
  { rewrite Hnew by done. simpl. eexists. split; [reflexivity|].
    erewrite insert_hit by (simpl; rewrite lookup_insert_eq; reflexivity).
    simpl. destruct isWeakDef, file; close. }
  clear Hnew.
  destruct (body s) as [|d|u|c|d|l|l] eqn:Hb; simpl.
  all: try (eexists; split; [reflexivity|];
            erewrite insert_hit by (simpl; rewrite lookup_insert_eq; reflexivity);
            rewrite markUsed_again; simpl; rewrite ?Hb; close).
  - destruct (isWeakDef && negb (weakDef d)) eqn:Hw; simpl.
    + eexists. split; [reflexivity|].
      erewrite insert_hit by (simpl; rewrite lookup_insert_eq; reflexivity).
      simpl. rewrite Hw. close.
    + eexists. split; [reflexivity|].
      erewrite insert_hit by (simpl; rewrite lookup_insert_eq; reflexivity).
      rewrite markUsed_again. simpl. rewrite Hb, Hw. close.
  - eexists. split; [reflexivity|].
    erewrite insert_hit by (simpl; rewrite lookup_insert_eq; reflexivity).
    simpl. destruct isWeakDef, file; close.
  - destruct (negb isWeakDef && dylibWeakDef d
              || negb (isNull file) && isNull (dylibFile d)) eqn:Hr; simpl.
    + eexists. split; [reflexivity|].
      erewrite insert_hit by (simpl; rewrite lookup_insert_eq; reflexivity).
      simpl. destruct isWeakDef, file; close.
    + eexists. split; [reflexivity|].
      erewrite insert_hit by (simpl; rewrite lookup_insert_eq; reflexivity).
      rewrite markUsed_again. simpl. rewrite Hb. simpl. rewrite Hr. close.
Qed.

Section LazyMemberFacts.
Context `{Collaborators} `{ArchiveLoader} `{ObjectLoader}.

(** X15: [addLazyArchive] and [addLazyObject] on an existing slot.  On
    an [Undefined], or a weak [DylibSymbol] that is referenced, they load
    the member ([fetch], which records the request and calls the loader,
    or [extract]) and leave the slot to the loader.  Otherwise they load
    nothing: a weak [DylibSymbol] that nothing refers to becomes the lazy
    symbol, and any other slot keeps what it holds. *)
Theorem lazy_entry_points_demand (st : State) name sym file cookie :
  symMap st !! name = Some sym ->
  let lazyArchive := IsLazyArchive {| lazyArchiveFile := file;
                                      lazyArchiveSym := cookie |} in
  let lazyObject := IsLazyObject {| lazyObjectFile := file;
                                    lazyObjectName := name |} in
  let marked (b : SymBody) :=
    setSymMap (<[name := {| isUsedInRegularObj :=
                              isUsedInRegularObj sym || isa ObjKind file;
                            body := b |}]> (symMap st)) st in
  (demandsMember (body sym) = true ->
   addLazyArchive name file cookie st
   = (let* _ := fetchArchiveMember file cookie in ret name)
       (setFetched (fetched st ++ [(file, cookie)]) (marked (body sym)))
   /\ addLazyObject name file st
      = (let* _ := extract file name in ret name) (marked (body sym)))
  /\ (demandsMember (body sym) = false ->
      addLazyArchive name file cookie st
      = Ok (name, marked (if unreferencedWeakDylib (body sym)
                          then lazyArchive else body sym))
      /\ addLazyObject name file st
         = Ok (name, marked (if unreferencedWeakDylib (body sym)
                             then lazyObject else body sym))).
Proof.
  intros Hs lazyArchive lazyObject marked. subst lazyArchive lazyObject marked.
  split; intros Hd; split.
  - unfold addLazyArchive. unfold bind at 1. rewrite (insert_hit _ _ _ _ Hs).
    unfold markUsed. simpl.
    destruct (body sym) as [|d|u|c|d|l|l]; try discriminate; simpl; [reflexivity|].
    simpl in Hd. destruct (dylibWeakDef d); [|discriminate].
    destruct (dylibRefState d); try discriminate; reflexivity.
  - unfold addLazyObject. unfold bind at 1. rewrite (insert_hit _ _ _ _ Hs).
    unfold markUsed. simpl.
    destruct (body sym) as [|d|u|c|d|l|l]; try discriminate; simpl; [reflexivity|].
    simpl in Hd. destruct (dylibWeakDef d); [|discriminate].
    destruct (dylibRefState d); try discriminate; reflexivity.
  - unfold addLazyArchive. unfold bind at 1. rewrite (insert_hit _ _ _ _ Hs).
    unfold markUsed. simpl.
    destruct (body sym) as [|d|u|c|d|l|l]; try discriminate; simpl;
      try (unfold bind, ret, setSymMap; simpl; reflexivity).
    simpl in Hd. destruct (dylibWeakDef d); simpl;
      [destruct (dylibRefState d); try discriminate|];
      unfold bind, ret, replaceSymbol, writeSlot, modify, setSymMap; simpl;
      rewrite ?insert_insert_eq; reflexivity.
  - unfold addLazyObject. unfold bind at 1. rewrite (insert_hit _ _ _ _ Hs).
    unfold markUsed. simpl.
    destruct (body sym) as [|d|u|c|d|l|l]; try discriminate; simpl;
      try (unfold bind, ret, setSymMap; simpl; reflexivity).
    simpl in Hd. destruct (dylibWeakDef d); simpl;
      [destruct (dylibRefState d); try discriminate|];
      unfold bind, ret, replaceSymbol, writeSlot, modify, setSymMap; simpl;
      rewrite ?insert_insert_eq; reflexivity.
Qed.

(** X16: a reference and then the archive.  [addUndefined] of a new
    name followed by [addLazyArchive] of that name fetches the member
    once; when the member defines the name through [addDefined], the
    slot ends up as that [Defined], with no duplicate. *)
Theorem lazy_pull_after_reference (st : State) name f isWeakRef archive cookie
    member isec value size isWeakDef isPrivateExtern isThumb
    isReferencedDynamically noDeadStrip isWeakDefCanBeHidden :
  symMap st !! name = None ->
  (forall st0,
     fetchArchiveMember archive cookie st0
     = (let* _ := addDefined name (Some member) isec value size isWeakDef
                    isPrivateExtern isThumb isReferencedDynamically noDeadStrip
                    isWeakDefCanBeHidden in
        ret tt) st0) ->
  bitcodeHasNoSection (Some member) isec = true ->
  exists st',
    (let* _ := addUndefined name f isWeakRef in
     addLazyArchive name archive cookie) st
    = Ok (name, st')
    /\ fetched st' = (fetched st ++ [(archive, cookie)])%list
    /\ symMap st' !! name
       = Some {| isUsedInRegularObj :=
                   fromRegularObj f || isa ObjKind archive || isa ObjKind member;
                 body := IsDefined
                           (Build_Defined name (Some member) isec value size
                              isWeakDef true isPrivateExtern true isThumb
                              isReferencedDynamically noDeadStrip false
                              isWeakDefCanBeHidden
                              (interposableFor isPrivateExtern)) |}
    /\ dupSymDiags st' = dupSymDiags st.
Proof.
  intros Hs Hload Ha.
  unfold bind at 1. unfold addUndefined. unfold bind at 1.
  rewrite (insert_miss _ _ _ Hs). simpl.
  unfold addLazyArchive. unfold bind at 1.
  erewrite insert_hit by (simpl; rewrite lookup_insert_eq; reflexivity).
  simpl. unfold fetch. unfold bind at 1. unfold bind at 1. simpl.
  rewrite Hload. unfold bind at 1. unfold addDefined. unfold bind at 1.
  erewrite insert_hit by (simpl; rewrite lookup_insert_eq; reflexivity).
  unfold bind. rewrite Ha. simpl.
  eexists. split; [reflexivity|]. simpl. rewrite lookup_insert_eq. auto.
Qed.

(** X17: [aliasDefined] on a name that is new installs a [Defined] of
    the target name in the new file, with the section, value, size and
    flags of the source, private extern if the source is or if
    [makePrivateExtern] is given.  No other slot changes and no
    duplicate is recorded. *)
Theorem aliasDefined_on_new_name (st : State) src target newFile
    makePrivateExtern :
  symMap st !! target = None ->
  bitcodeHasNoSection newFile (isec src) = true ->
  exists st',
    aliasDefined src target newFile makePrivateExtern st = Ok (Some target, st')
    /\ symMap st' !! target
       = Some {| isUsedInRegularObj := fromRegularObj newFile;
                 body := IsDefined
                   {| definedName := target; definedFile := newFile;
                      isec := isec src; value := value src; size := size src;
                      weakDef := weakDef src; isExternal := true;
                      privateExtern := makePrivateExtern || privateExtern src;
                      includeInSymtab := true; thumb := thumb src;
                      referencedDynamically := referencedDynamically src;
                      noDeadStrip := noDeadStrip src;
                      overridesWeakDef := false;
                      weakDefCanBeHidden := weakDefCanBeHidden src;
                      interposable :=
                        interposableFor (makePrivateExtern || privateExtern src) |} |}
    /\ (forall n, n <> target -> symMap st' !! n = symMap st !! n)
    /\ dupSymDiags st' = dupSymDiags st.
Proof.
  intros Hs Ha. unfold aliasDefined, addDefined, bind.
  rewrite (insert_miss _ _ _ Hs). rewrite Ha. simpl.
  eexists. split; [reflexivity|]. simpl. rewrite lookup_insert_eq.
  repeat split. intros n Hn. by rewrite !lookup_insert_ne.
Qed.

End LazyMemberFacts.

(** ** The typo search *)

Lemma substring_prefix (p s : string) :
  String.substring 0 (String.length p) (p ++ s) = p.
Proof. induction p as [|a p IH]; simpl; [by destruct s|by rewrite IH]. Qed.

Lemma substring_skip (p s : string) (m : nat) :
  String.substring (String.length p) m (p ++ s) = String.substring 0 m s.
Proof. induction p as [|a p IH]; simpl; [reflexivity|apply IH]. Qed.

Lemma substring_all (s : string) : String.substring 0 (String.length s) s = s.
Proof. induction s as [|a s IH]; simpl; [reflexivity|by rewrite IH]. Qed.

Lemma length_append (p s : string) :
  String.length (p ++ s) = (String.length p + String.length s)%nat.
Proof. induction p as [|a p IH]; simpl; [reflexivity|by rewrite IH]. Qed.

Lemma substrFrom_suffix (p s : string) : substrFrom (String.length p) (p ++ s) = s.
Proof.
  unfold substrFrom. rewrite substring_skip, length_append.
  replace (String.length p + String.length s - String.length p)%nat
    with (String.length s) by lia.
  apply substring_all.
Qed.

Lemma append_single (p s : string) (a : ascii) :
  (p ++ String a "") ++ s = p ++ String a s.
Proof.
  induction p as [|b p IH]; [reflexivity|].
  change (String b ((p ++ String a "") ++ s) = String b (p ++ String a s)).
  by rewrite IH.
Qed.

Lemma substrFrom_after (p s : string) (a : ascii) :
  substrFrom (String.length p + 1) (p ++ String a s) = s.
Proof.
  rewrite <- append_single.
  replace (String.length p + 1)%nat with (String.length (p ++ String a ""))
    by (rewrite length_append; reflexivity).
  apply substrFrom_suffix.
Qed.

Lemma setChar_at (p s : string) (a c : ascii) :
  setChar (p ++ String a s) (String.length p) c = p ++ String c s.
Proof. induction p as [|b p IH]; simpl; [reflexivity|by rewrite IH]. Qed.

Lemma setChar_next (p s : string) (a b c : ascii) :
  setChar (p ++ String a (String b s)) (String.length p + 1) c
  = p ++ String a (String c s).
Proof. induction p as [|x p IH]; simpl; [reflexivity|by rewrite IH]. Qed.

Lemma charAt_at (p s : string) (a : ascii) :
  charAt (p ++ String a s) (String.length p) = a.
Proof. unfold charAt. induction p as [|b p IH]; simpl; [reflexivity|apply IH]. Qed.

Lemma charAt_next (p s : string) (a b : ascii) :
  charAt (p ++ String a (String b s)) (String.length p + 1) = b.
Proof. unfold charAt. induction p as [|x p IH]; simpl; [reflexivity|apply IH]. Qed.

Lemma firstSome_is_Some {A B} (f : A -> option B) (l : list A) (x : A) :
  In x l -> is_Some (f x) -> is_Some (firstSome f l).
Proof.
  induction l as [|y l IH]; simpl; [tauto|].
  intros [->|Hin] Hx.
  - destruct Hx as [b ->]. eauto.
  - destruct (f y); eauto.
Qed.

Lemma candidateChars_range (c : ascii) :
  (48 <= nat_of_ascii c <= 122)%nat -> In c candidateChars.
Proof.
  intros Hc. unfold candidateChars. rewrite <- (ascii_nat_embedding c).
  apply in_map, in_seq. lia.
Qed.

Section SpellingSearchFacts.
Context `{Collaborators}.

Lemma suggest_is_Some (st : State) map cand s :
  symMap st !! cand = Some s -> isUndefined s = false ->
  is_Some (suggest st map cand).
Proof.
  intros Hs Hu. unfold suggest, find. destruct (map !! cand); [eauto|].
  rewrite Hs, Hu. simpl. eauto.
Qed.

(** X18: the typo search of [getAlternativeSpelling] is complete for
    one edit.  When the table has a symbol that is not an [Undefined]
    and whose name comes from the name of [sym] by inserting a character
    between ['0'] and ['z'], by substituting one, by transposing two
    adjacent characters or by deleting one, the search returns a
    suggestion that exists as a non-[Undefined] symbol, and leaves the
    hints as it got them. *)
Theorem getAlternativeSpelling_finds_one_edit (st : State) sym pre post
    prefix suffix (a b c : ascii) cand s :
  symMap st !! cand = Some s ->
  isUndefined s = false ->
  (48 <= nat_of_ascii c <= 122)%nat ->
  (getName sym = prefix ++ suffix /\ cand = prefix ++ String c suffix)
  \/ (getName sym = prefix ++ String a suffix /\ cand = prefix ++ String c suffix)
  \/ (getName sym = prefix ++ String a (String b suffix)
      /\ cand = prefix ++ String b (String a suffix))
  \/ (getName sym = prefix ++ String a suffix /\ cand = prefix ++ suffix) ->
  exists r,
    getAlternativeSpelling st sym pre post = (Some r, pre, post)
    /\ qualifies st r.
Proof.
  intros Hs Hu Hc Hedit.
  assert (is_Some (firstSome (spellingsAt st (localDefinedMap st sym) (getName sym))
                     (seq 0 (String.length (getName sym) + 1)))) as [r Hr].
  { apply firstSome_is_Some with (x := String.length prefix).
    { apply in_seq.
      destruct Hedit as [[-> _]|[[-> _]|[[-> _]|[-> _]]]];
        rewrite length_append; simpl; lia. }
    pose proof (suggest_is_Some st (localDefinedMap st sym) cand s Hs Hu) as Hcand.
    pose proof (candidateChars_range c Hc) as Hin.
    unfold spellingsAt. remember candidateChars as chars eqn:Hchars.
    destruct (firstSome _ chars) eqn:E1; [eauto|].
    destruct Hedit as [[Hn ->]|Hedit].
    { exfalso. rewrite Hn in E1.
      rewrite substring_prefix, substrFrom_suffix in E1.
      assert (is_Some (firstSome
                (fun c0 => suggest st (localDefinedMap st sym)
                   (setChar (prefix ++ "0" ++ suffix) (String.length prefix) c0))
                chars)) as [x Hx].
      { apply firstSome_is_Some with (x := c); [exact Hin|].
        change (prefix ++ "0" ++ suffix) with (prefix ++ String "0" suffix).
        by rewrite setChar_at. }
      congruence. }
    assert ((String.length prefix =? String.length (getName sym))%nat = false) as Hlt.
    { apply Nat.eqb_neq.
      destruct Hedit as [[-> _]|[[-> _]|[-> _]]]; rewrite length_append; simpl; lia. }
    rewrite Hlt.
    match goal with
    | |- is_Some (match firstSome ?f chars with _ => _ end) =>
        destruct (firstSome f chars) eqn:E2; [eauto|]
    end.
    destruct Hedit as [[Hn ->]|Hedit].
    { exfalso. rewrite Hn in E2.
      assert (is_Some (firstSome
                (fun c0 => suggest st (localDefinedMap st sym)
                   (setChar (prefix ++ String a suffix) (String.length prefix) c0))
                chars)) as [x Hx].
      { apply firstSome_is_Some with (x := c); [exact Hin|]. by rewrite setChar_at. }
      congruence. }
    destruct Hedit as [[Hn ->]|[Hn ->]].
    - rewrite Hn. rewrite length_append. simpl.
      replace (String.length prefix + 1 <? String.length prefix
               + S (S (String.length suffix)))%nat with true
        by (symmetry; apply Nat.ltb_lt; lia).
      rewrite charAt_next, charAt_at, !setChar_at, setChar_next.
      destruct Hcand as [x ->]. eauto.
    - match goal with
      | |- is_Some (match ?t with _ => _ end) => destruct t; [eauto|]
      end.
      rewrite Hn, substring_prefix, substrFrom_after. exact Hcand. }
  exists r. unfold getAlternativeSpelling. rewrite Hr. split; [reflexivity|].
  apply firstSome_Some in Hr as (i & _ & Hr).
  eapply spellingsAt_qualifies, Hr.
Qed.

End SpellingSearchFacts.

Section SpellingSourceFacts.
Context `{Collaborators}.

Lemma localDefinedMap_inTableOrFile (st : State) sym k r :
  localDefinedMap st sym !! k = Some r -> inTableOrFile st sym r.
Proof.
  unfold localDefinedMap.
  destruct (getFile sym) as [file|] eqn:Hfile; [|by rewrite lookup_empty].
  destruct (isa ObjKind file) eqn:Hobj; [|by rewrite lookup_empty].
  assert (forall l (m : gmap string SymRef),
            (forall x, In x l -> In x (symbols file)) ->
            (forall k r, m !! k = Some r -> inTableOrFile st sym r) ->
            forall k r,
              fold_left
                (fun (map : gmap string SymRef) (s : option SymRef) =>
                   match s with
                   | Some (Local d) =>
                       if negb (localIsExternal d) then
                         match map !! localName d with
                         | Some _ => map
                         | None => <[localName d := Local d]> map
                         end
                       else map
                   | Some (Global n) =>
                       match symMap st !! n with
                       | Some {| body := IsDefined d |} =>
                           if negb (isExternal d) then
                             match map !! definedName d with
                             | Some _ => map
                             | None => <[definedName d := Global n]> map
                             end
                           else map
                       | _ => map
                       end
                   | None => map
                   end) l m !! k = Some r -> inTableOrFile st sym r) as Hfold.
  { induction l as [|s l IH]; intros m Hl Hm k0 r0; simpl; [apply Hm|].
    apply IH; [intros x Hx; apply Hl; by right|]. clear k0 r0. intros k0 r0.
    destruct s as [[d|n]|]; [| |apply Hm].
    - destruct (negb (localIsExternal d)) eqn:He; [|apply Hm].
      destruct (m !! localName d); [apply Hm|].
      rewrite lookup_insert. case_decide; [|apply Hm].
      intros [= <-]. simpl. split; [by destruct (localIsExternal d)|].
      exists file. repeat split; auto. apply Hl. by left.
    - destruct (symMap st !! n) as [[used b]|] eqn:Hn; [|apply Hm].
      destruct b as [|d| | | | |]; try apply Hm.
      destruct (negb (isExternal d)); [|apply Hm].
      destruct (m !! definedName d); [apply Hm|].
      rewrite lookup_insert. case_decide; [|apply Hm].
      intros [= <-]. simpl. rewrite Hn. eauto. }
  apply Hfold; [auto|]. intros k0 r0. by rewrite lookup_empty.
Qed.

Lemma suggest_inTableOrFile (st : State) sym newName r :
  suggest st (localDefinedMap st sym) newName = Some r -> inTableOrFile st sym r.
Proof.
  unfold suggest, find.
  destruct (localDefinedMap st sym !! newName) eqn:Hm.
  - intros [= <-]. eapply localDefinedMap_inTableOrFile, Hm.
  - destruct (symMap st !! newName) as [s|] eqn:Hs; [|discriminate].
    destruct (negb (isUndefined s)); [|discriminate].
    intros [= <-]. simpl. rewrite Hs. eauto.
Qed.

Lemma spellingsAt_inTableOrFile (st : State) sym name i r :
  spellingsAt st (localDefinedMap st sym) name i = Some r ->
  inTableOrFile st sym r.
Proof.
  unfold spellingsAt. remember candidateChars as chars.
  repeat match goal with
  | |- context [match firstSome ?f ?l with _ => _ end] =>
      let E := fresh "E" in
      destruct (firstSome f l) eqn:E;
      [intros [= <-]; apply firstSome_Some in E as (c & _ & E);
       eapply suggest_inTableOrFile, E|]
  | |- context [if ?b then _ else _] => destruct b
  | |- context [match suggest ?a ?b ?c with _ => _ end] =>
      let E := fresh "E" in
      destruct (suggest a b c) eqn:E;
      [intros [= <-]; eapply suggest_inTableOrFile, E|]
  end; try discriminate; apply suggest_inTableOrFile.
Qed.

(** X19: the comment on [getAlternativeSpelling]: it "returns the
    suggested symbol, which is either in the symbol table, or in the
    same file of sym".  A suggestion is a slot of the table, or a
    [Defined] that is not external and is listed in the object file of
    [sym].  With no suggestion the hints are returned as given. *)
Theorem getAlternativeSpelling_returns (st : State) sym pre post :
  match getAlternativeSpelling st sym pre post with
  | (Some r, _, _) => inTableOrFile st sym r
  | (None, pre', post') => pre' = pre /\ post' = post
  end.
Proof.
  unfold getAlternativeSpelling.
  destruct (firstSome (spellingsAt _ _ _) _) eqn:E1.
  { apply firstSome_Some in E1 as (i & _ & E1).
    eapply spellingsAt_inTableOrFile, E1. }
  destruct (firstSome _ (map_to_list (localDefinedMap st sym))) eqn:E2.
  { apply firstSome_Some in E2 as ([k v] & Hin & E2).
    simpl in E2. destruct (equals_insensitive _ _); [|discriminate].
    injection E2 as <-. apply list_elem_of_In, elem_of_map_to_list in Hin.
    eapply localDefinedMap_inTableOrFile, Hin. }
  destruct (firstSome _ (map_to_list (symMap st))) eqn:E3.
  { apply firstSome_Some in E3 as ([k v] & Hin & E3).
    simpl in E3. destruct (negb (isUndefined v) && _); [|discriminate].
    injection E3 as <-. apply list_elem_of_In, elem_of_map_to_list in Hin.
    simpl. rewrite Hin. eauto. }
  destruct (startswith "__Z" (getName sym)) eqn:Hz.
  { destruct (getFunctionName (getName sym)); [|done].
    destruct (suggest _ _ _) eqn:E4; [|done].
    eapply suggest_inTableOrFile, E4. }
  cbv zeta. clear E2 E3.
  destruct (firstSome _ (map_to_list (localDefinedMap st sym))) eqn:E5.
  { apply firstSome_Some in E5 as ([k v] & Hin & E5).
    simpl in E5. destruct (canSuggestExternCForCXX _ _); [|discriminate].
    injection E5 as <-. apply list_elem_of_In, elem_of_map_to_list in Hin.
    eapply localDefinedMap_inTableOrFile, Hin. }
  destruct (firstSome _ (map_to_list (symMap st))) eqn:E6; [|done].
  apply firstSome_Some in E6 as ([k v] & Hin & E6). simpl in E6.
  destruct (canSuggestExternCForCXX _ _) eqn:Hc; [|discriminate].
  injection E6 as <-. apply list_elem_of_In, elem_of_map_to_list in Hin.
  simpl. rewrite Hin. eauto.
Qed.

End SpellingSourceFacts.

(** ** Recovery and the pending diagnostics *)

Lemma prefix_cons a s b t :
  String.prefix (String a s) (String b t)
  = if ascii_dec a b then String.prefix s t else false.
Proof. reflexivity. Qed.

Lemma prefix_head a s name :
  String.prefix (String a s) name = true ->
  exists t, name = String a t /\ String.prefix s t = true.
Proof.
  destruct name as [|b t]; [discriminate|]. rewrite prefix_cons.
  destruct (ascii_dec a b) as [<-|]; [|discriminate]. eauto.
Qed.

Ltac settle_prefixes :=
  unfold startswith; rewrite !prefix_cons;
  by repeat (destruct (ascii_dec _ _); [discriminate|]).

Lemma dtrace_not_boundary name :
  isDtraceName name = true ->
  isSectionBoundaryName name = false /\ isSegmentBoundaryName name = false.
Proof.
  unfold isDtraceName, startswith. intros (t & -> & _)%prefix_head.
  unfold isSectionBoundaryName, isSegmentBoundaryName. split; settle_prefixes.
Qed.

Lemma segment_not_section name :
  isSegmentBoundaryName name = true ->
  isSectionBoundaryName name = false /\ isDtraceName name = false.
Proof.
  unfold isSegmentBoundaryName, startswith.
  intros [Hp|Hp]%orb_true_iff;
    apply prefix_head in Hp as (t1 & -> & Hp);
    apply prefix_head in Hp as (t2 & -> & Hp);
    apply prefix_head in Hp as (t3 & -> & _);
    unfold isSectionBoundaryName, isDtraceName; split; settle_prefixes.
Qed.

Lemma section_not_dtrace name :
  isSectionBoundaryName name = true -> isDtraceName name = false.
Proof.
  unfold isSectionBoundaryName, startswith.
  intros [Hp|Hp]%orb_true_iff;
    apply prefix_head in Hp as (t1 & -> & _);
    unfold isDtraceName; settle_prefixes.
Qed.

Section RecoveryFacts.
Context `{Collaborators} `{DynamicLookups} `{OutputLayout}.

(** X20: the [-U] list and the [-undefined] policy, on an [Undefined]
    with a plain name (no boundary name, no dtrace name), for both
    overloads of [treatUndefinedSymbol].  The slot becomes a
    dynamic-lookup [DylibSymbol] (null file, not weak, the [refState] of
    the [Undefined], used in a regular object) when the name is in the
    [-U] list or the policy is not [error].  The reference is added to
    the pending undefined symbols when the name is not in the [-U] list
    and the policy is [error] or [warning].  So under [warning] both
    happen, and under [error] the table is unchanged.  No diagnostic is
    emitted and no reference call is made. *)
Theorem treatUndefinedSymbol_policy (st : State) name s u source isec offset
    layout :
  symMap st !! name = Some s ->
  body s = IsUndefined u ->
  undefName u = name ->
  isSectionBoundaryName name = false ->
  isSegmentBoundaryName name = false ->
  isDtraceName name = false ->
  let outcome (run : M Layout) (f : UndefinedDiag -> UndefinedDiag) :=
    exists st',
      run st = Ok (layout, st')
      /\ symMap st'
         = (if installsLookup name then
              <[name := {| isUsedInRegularObj := true;
                           body := IsDylib
                                     {| dylibFile := None; dylibName := name;
                                        dylibWeakDef := false;
                                        dylibRefState := refState u;
                                        dylibTlv := false |} |}]> (symMap st)
            else symMap st)
      /\ undefs st'
         = (if keepsPending name then updateUndefs name f (undefs st)
            else undefs st)
      /\ diagnostics st' = diagnostics st
      /\ refCalls st' = refCalls st in
  outcome (treatUndefinedSymbol name source layout)
    (fun d => {| codeReferences := codeReferences d;
                 otherReferences := otherReferences d ++ [source] |})
  /\ outcome (treatUndefinedSymbolAt name isec offset layout)
       (fun d => {| codeReferences :=
                      codeReferences d
                      ++ [{| refIsec := isec; refOffset := offset |}];
                    otherReferences := otherReferences d |}).
Proof.
  intros Hs Hb Hn Hsect Hseg Hdt outcome. subst outcome.
  apply orb_false_elim in Hsect as [Hs1 Hs2].
  apply orb_false_elim in Hseg as [Hg1 Hg2]. unfold isDtraceName in Hdt.
  assert (getName s = name) as Hname by (unfold getName; by rewrite Hb).
  assert (forall k : bool * Layout -> M Layout,
            (let* r := recoverFromUndefinedSymbol name layout in k r) st
            = (if installsLookup name then
                 k (negb (keepsPending name), layout)
                   (setSymMap
                      (<[name := {| isUsedInRegularObj := true;
                                    body := IsDylib
                                              {| dylibFile := None;
                                                 dylibName := name;
                                                 dylibWeakDef := false;
                                                 dylibRefState := refState u;
                                                 dylibTlv := false |} |}]>
                         (symMap st)) st)
               else k (false, layout) st)) as Hrec.
  { intros k. unfold recoverFromUndefinedSymbol, bind at 1 2 3, get.
    rewrite Hs. simpl. rewrite Hname, Hs1, Hs2, Hg1, Hg2, Hdt.
    unfold installsLookup, keepsPending, addDynamicLookup, resolveDylib.
    destruct (bool_decide (name ∈ explicitDynamicLookups)); simpl.
    - unfold bind. rewrite (insert_hit _ _ _ _ Hs). simpl. rewrite Hb. simpl.
      unfold isUndefined. simpl. rewrite Hb. simpl.
      rewrite insert_insert_eq, orb_true_r. reflexivity.
    - destruct (undefinedSymbolTreatment config); simpl; try reflexivity;
        unfold bind; rewrite (insert_hit _ _ _ _ Hs); simpl; rewrite Hb; simpl;
        unfold isUndefined; simpl; rewrite Hb; simpl;
        rewrite insert_insert_eq, orb_true_r; reflexivity. }
  split.
  - unfold treatUndefinedSymbol. rewrite Hrec. unfold installsLookup, keepsPending.
    destruct (bool_decide (name ∈ explicitDynamicLookups)); simpl;
      [by eexists|].
    destruct (undefinedSymbolTreatment config); simpl; by eexists.
  - unfold treatUndefinedSymbolAt. rewrite Hrec.
    unfold installsLookup, keepsPending.
    destruct (bool_decide (name ∈ explicitDynamicLookups)); simpl;
      [by eexists|].
    destruct (undefinedSymbolTreatment config); simpl; by eexists.
Qed.

Lemma createBoundarySymbol_run (st : State) name s u :
  symMap st !! name = Some s ->
  body s = IsUndefined u ->
  undefName u = name ->
  createBoundarySymbol s st
  = Ok (Some name, setSymMap (<[name := boundarySymbol name u]> (symMap st)) st).
Proof.
  intros Hs Hb Hn.
  assert (getName s = name) as Hname by (unfold getName; by rewrite Hb).
  unfold createBoundarySymbol, addSynthetic, addDefined, bind. rewrite Hname.
  simpl. rewrite (insert_hit _ _ _ _ Hs). simpl. rewrite Hb. simpl.
  rewrite lookup_insert_eq. simpl. rewrite !insert_insert_eq.
  rewrite orb_true_r. reflexivity.
Qed.

(** X21: an [Undefined] whose name starts with [___dtrace_] counts as
    recovered: both overloads of [treatUndefinedSymbol] return with the
    state and the layout as they were, whatever the policy. *)
Theorem treatUndefinedSymbol_dtrace (st : State) name s u source isec offset
    layout :
  symMap st !! name = Some s ->
  body s = IsUndefined u ->
  undefName u = name ->
  isDtraceName name = true ->
  treatUndefinedSymbol name source layout st = Ok (layout, st)
  /\ treatUndefinedSymbolAt name isec offset layout st = Ok (layout, st).
Proof.
  intros Hs Hb Hn Hdt.
  destruct (dtrace_not_boundary _ Hdt) as [[Hs1 Hs2]%orb_false_elim
                                            [Hg1 Hg2]%orb_false_elim].
  assert (getName s = name) as Hname by (unfold getName; by rewrite Hb).
  unfold isDtraceName in Hdt.
  unfold treatUndefinedSymbol, treatUndefinedSymbolAt,
    recoverFromUndefinedSymbol, bind, get.
  rewrite Hs. simpl. by rewrite Hname, Hs1, Hs2, Hg1, Hg2, Hdt.
Qed.

(** X22: a boundary symbol.  On a live [Undefined] named
    [section$start$...], [section$end$...], [segment$start$...] or
    [segment$end$...], both overloads of [treatUndefinedSymbol] return
    with the slot holding a [Defined] of the same name: no section, the
    value [2^64 - 1] (the [-1] that [createBoundarySymbol] passes as
    [uint64_t]), private extern, not in the symbol table of the output,
    with no file unless the [Undefined] was a bitcode symbol.  Nothing
    is added to the pending undefined symbols, the duplicates or the
    diagnostics.  Liveness is needed for the section names only. *)
Theorem treatUndefinedSymbol_boundary (st : State) name s u source isec offset
    layout :
  symMap st !! name = Some s ->
  body s = IsUndefined u ->
  undefName u = name ->
  isSectionBoundaryName name || isSegmentBoundaryName name = true ->
  (isSectionBoundaryName name = true -> isLive s = true) ->
  let outcome (run : M Layout) :=
    exists layout' st',
      run st = Ok (layout', st')
      /\ symMap st' = <[name := boundarySymbol name u]> (symMap st)
      /\ undefs st' = undefs st
      /\ diagnostics st' = diagnostics st
      /\ dupSymDiags st' = dupSymDiags st in
  outcome (treatUndefinedSymbol name source layout)
  /\ outcome (treatUndefinedSymbolAt name isec offset layout).
Proof.
  intros Hs Hb Hn Hbound Hlive outcome. subst outcome.
  assert (getName s = name) as Hname by (unfold getName; by rewrite Hb).
  pose proof (createBoundarySymbol_run st name s u Hs Hb Hn) as Hrun.
  assert (exists layout',
            recoverFromUndefinedSymbol name layout st
            = Ok ((true, layout'),
                  setSymMap (<[name := boundarySymbol name u]> (symMap st)) st))
    as [layout' Hrec].
  { assert (forall segSect which,
              isLive s = true ->
              exists layout',
                handleSectionBoundarySymbol s segSect which layout st
                = Ok (layout',
                      setSymMap (<[name := boundarySymbol name u]> (symMap st))
                        st)) as Hsection.
    { intros segSect which Hl. unfold handleSectionBoundarySymbol.
      destruct (splitFirst "$" segSect) as [segName sectName].
      destruct (match List.find _ (syntheticSections layout) with
                | Some ssec => ssec.2
                | None => None
                end) as [osec|].
      - unfold bind, ret. rewrite Hrun. by eexists.
      - destruct (makeSyntheticInputSection segName sectName layout)
          as [isec0 layout0].
        rewrite Hl.
        destruct (getOrCreateForInput isec0 (setLive isec0 layout0))
          as [osec layout1].
        unfold bind, assert, ret. rewrite Hrun. by eexists. }
    assert (forall segName which,
              exists layout',
                handleSegmentBoundarySymbol s segName which layout st
                = Ok (layout',
                      setSymMap (<[name := boundarySymbol name u]> (symMap st))
                        st)) as Hsegment.
    { intros segName which. unfold handleSegmentBoundarySymbol.
      destruct (getOrCreateOutputSegment segName layout) as [seg layout0].
      unfold bind, ret. rewrite Hrun. by eexists. }
    unfold recoverFromUndefinedSymbol, bind at 1 2, get. rewrite Hs. simpl.
    rewrite Hname.
    destruct (isSectionBoundaryName name) eqn:Hsect.
    - specialize (Hlive eq_refl). unfold isSectionBoundaryName in Hsect.
      destruct (startswith "section$start$" name) eqn:E1.
      + destruct (Hsection (consume_front "section$start$" name) BoundaryStart
                    Hlive) as [l Hl].
        unfold bind. rewrite Hl. by eexists.
      + simpl in Hsect. rewrite Hsect.
        destruct (Hsection (consume_front "section$end$" name) BoundaryEnd
                    Hlive) as [l Hl].
        unfold bind. rewrite Hl. by eexists.
    - simpl in Hbound. apply orb_false_elim in Hsect as [-> ->].
      unfold isSegmentBoundaryName in Hbound.
      destruct (startswith "segment$start$" name) eqn:E1.
      + destruct (Hsegment (consume_front "segment$start$" name) BoundaryStart)
          as [l Hl].
        unfold bind. rewrite Hl. by eexists.
      + simpl in Hbound. rewrite Hbound.
        destruct (Hsegment (consume_front "segment$end$" name) BoundaryEnd)
          as [l Hl].
        unfold bind. rewrite Hl. by eexists. }
  split.
  - unfold treatUndefinedSymbol, bind. rewrite Hrec. simpl.
    eexists _, _. split; [reflexivity|]. auto.
  - unfold treatUndefinedSymbolAt, bind. rewrite Hrec. simpl.
    eexists _, _. split; [reflexivity|]. auto.
Qed.

(** X23: the assertion of [handleSectionBoundarySymbol].  For a section
    boundary name, when no synthetic section has an output section, a
    new input section is made and [assert(sym.isLive())] runs: on an
    [Undefined] that is not live both overloads of
    [treatUndefinedSymbol] fail the assertion. *)
Theorem treatUndefinedSymbol_section_of_dead (st : State) name s u source isec
    offset layout :
  symMap st !! name = Some s ->
  body s = IsUndefined u ->
  isSectionBoundaryName (undefName u) = true ->
  (forall ssec, In ssec (syntheticSections layout) -> snd ssec = None) ->
  isLive s = false ->
  treatUndefinedSymbol name source layout st = Crash AssertionFailure
  /\ treatUndefinedSymbolAt name isec offset layout st = Crash AssertionFailure.
Proof.
  intros Hs Hb Hsect Hsyn Hlive.
  assert (getName s = undefName u) as Hname by (unfold getName; by rewrite Hb).
  assert (forall segSect which,
            handleSectionBoundarySymbol s segSect which layout st
            = Crash AssertionFailure) as Hsection.
  { intros segSect which. unfold handleSectionBoundarySymbol.
    destruct (splitFirst "$" segSect) as [segName sectName].
    destruct (List.find _ (syntheticSections layout)) as [ssec|] eqn:Hfind.
    - apply find_some in Hfind as [Hin _]. rewrite (Hsyn _ Hin).
      destruct (makeSyntheticInputSection segName sectName layout).
      by rewrite Hlive.
    - destruct (makeSyntheticInputSection segName sectName layout).
      by rewrite Hlive. }
  assert (recoverFromUndefinedSymbol name layout st = Crash AssertionFailure)
    as Hrec.
  { unfold recoverFromUndefinedSymbol, bind at 1 2, get. rewrite Hs. simpl.
    rewrite Hname. unfold isSectionBoundaryName in Hsect.
    destruct (startswith "section$start$" (undefName u)).
    - unfold bind. by rewrite Hsection.
    - simpl in Hsect. rewrite Hsect. unfold bind. by rewrite Hsection. }
  unfold treatUndefinedSymbol, treatUndefinedSymbolAt, bind.
  by rewrite Hrec.
Qed.

End RecoveryFacts.

Section PendingFacts.
Context `{Collaborators}.

Lemma forEach_reportDuplicate_warns (l : list DuplicateSymbolDiag) (st : State) :
  (forall d, In d l -> is_Some (symMap st !! dupSym d)) ->
  exists emitted,
    forEach reportDuplicate l st
    = Ok (tt, setDiagnostics (diagnostics st ++ emitted) st)
    /\ forallb isWarn emitted = true
    /\ length emitted = length (List.filter (reportsDuplicate st) l).
Proof.
  revert st. induction l as [|d l IH]; intros st Hl; simpl.
  { exists []. by rewrite setDiagnostics_none. }
  destruct (Hl d (or_introl eq_refl)) as [sym Hs].
  assert (exists e,
            reportDuplicate d st
            = Ok (tt, setDiagnostics (diagnostics st ++ e) st)
            /\ forallb isWarn e = true
            /\ length e = if reportsDuplicate st d then 1%nat else 0%nat)
    as (e & Hd & Hw & He).
  { unfold reportDuplicate, reportsDuplicate, bind, get. rewrite Hs. simpl.
    destruct (negb (deadStripDuplicates config) || isLive sym).
    - unfold warn, modify. by eexists [_].
    - exists []. by rewrite setDiagnostics_none. }
  destruct (IH (setDiagnostics (diagnostics st ++ e) st)) as (e' & Hrun & Hw' & Hlen).
  { intros d' Hin. simpl. apply Hl. by right. }
  exists (e ++ e')%list. unfold bind at 1. rewrite Hd, Hrun.
  rewrite setDiagnostics_more. split; [reflexivity|].
  rewrite forallb_app, Hw, Hw'. split; [reflexivity|].
  rewrite length_app, Hlen, He.
  assert (List.filter (reportsDuplicate (setDiagnostics (diagnostics st ++ e) st)) l
          = List.filter (reportsDuplicate st) l) as -> by reflexivity.
  by destruct (reportsDuplicate st d).
Qed.

(** X24: [reportPendingDuplicateSymbols] returns when the symbols of
    the pool are in the table, and changes the diagnostics alone.  All it
    emits are warnings, one for each record whose symbol is live or,
    when [deadStripDuplicates] is off, one for each record. *)
Theorem reportPendingDuplicateSymbols_warns (st : State) :
  (forall d, In d (dupSymDiags st) -> is_Some (symMap st !! dupSym d)) ->
  exists emitted,
    reportPendingDuplicateSymbols st
    = Ok (tt, setDiagnostics (diagnostics st ++ emitted) st)
    /\ forallb isWarn emitted = true
    /\ length emitted
       = length (List.filter (reportsDuplicate st) (dupSymDiags st))
    /\ (deadStripDuplicates config = false ->
        length emitted = length (dupSymDiags st)).
Proof.
  intros Hd.
  destruct (forEach_reportDuplicate_warns _ st Hd) as (e & Hrun & Hw & Hlen).
  exists e. unfold reportPendingDuplicateSymbols, bind, get.
  repeat split; try done.
  intros Hc. rewrite Hlen. f_equal.
  unfold reportsDuplicate. rewrite Hc. simpl.
  clear. induction (dupSymDiags st); simpl; congruence.
Qed.

Lemma reportUndefinedSymbol_severity (sym : Symbol) locations correctSpelling
    (st : State) :
  exists msg,
    reportUndefinedSymbol sym locations correctSpelling st
    = match undefinedSymbolTreatment config with
      | treat_error =>
          Ok (tt, setDiagnostics (diagnostics st ++ [Error msg]) st)
      | treat_warning =>
          Ok (tt, setDiagnostics (diagnostics st ++ [Warn msg]) st)
      | _ => Crash AssertionFailure
      end.
Proof.
  unfold reportUndefinedSymbol. cbv zeta.
  match goal with
  | |- context [bind get (fun st0 => bind (@?m st0) ?k)] =>
      assert (exists msg, m st st = Ok (msg, st)) as [msg Hm]
  end.
  { destruct correctSpelling; [|by eexists].
    destruct (getAlternativeSpelling st sym ": " "") as [[[r|] pre] post] eqn:E;
      [|by eexists].
    destruct r as [d|n]; [by eexists|].
    apply getAlternativeSpelling_result in E as [(s & Hs & _)|(_ & n' & s & [= <-] & Hs & _)];
      unfold bind; rewrite Hs; by eexists. }
  exists msg. unfold bind at 1. unfold get at 1. unfold bind at 1. rewrite Hm.
  by destruct (undefinedSymbolTreatment config).
Qed.

Lemma reportUndefinedFrom_severity (l : list (string * UndefinedDiag)) (i : nat)
    (st : State) :
  undefinedSymbolTreatment config = treat_error
  \/ undefinedSymbolTreatment config = treat_warning ->
  (forall u, In u l -> is_Some (symMap st !! fst u)) ->
  exists emitted,
    reportUndefinedFrom i l st
    = Ok (tt, setDiagnostics (diagnostics st ++ emitted) st)
    /\ length emitted = length l
    /\ forallb (severityOf (undefinedSymbolTreatment config)) emitted = true.
Proof.
  intros Ht. revert i st. induction l as [|u l IH]; intros i st Hl; simpl.
  - exists []. by rewrite setDiagnostics_none.
  - destruct (Hl u (or_introl eq_refl)) as [sym Hs].
    destruct (reportUndefinedSymbol_severity sym (snd u) (i <? 2)%nat st)
      as [msg Hd].
    assert (exists d,
              reportUndefinedSymbol sym (snd u) (i <? 2)%nat st
              = Ok (tt, setDiagnostics (diagnostics st ++ [d]) st)
              /\ severityOf (undefinedSymbolTreatment config) d = true)
      as (d & Hd' & Hsev).
    { rewrite Hd. destruct Ht as [-> | ->]; by eexists. }
    destruct (IH (S i) (setDiagnostics (diagnostics st ++ [d]) st))
      as (e & Hrun & Hlen & Hall).
    { intros u' Hin. simpl. apply Hl. by right. }
    exists (d :: e). unfold bind at 1. unfold get at 1. unfold bind at 1.
    rewrite Hs. simpl. unfold bind at 1. rewrite Hd'. rewrite Hrun.
    rewrite setDiagnostics_more. simpl. rewrite Hsev, Hall, Hlen. done.
Qed.

(** X25: [reportPendingUndefinedSymbols] under the policies [error]
    and [warning]: it emits one diagnostic for each pending symbol,
    errors under [error] and warnings under [warning], and clears the
    pool. *)
Theorem reportPendingUndefinedSymbols_severity (st : State) :
  undefinedSymbolTreatment config = treat_error
  \/ undefinedSymbolTreatment config = treat_warning ->
  (forall u, In u (undefs st) -> is_Some (symMap st !! fst u)) ->
  exists emitted,
    reportPendingUndefinedSymbols st
    = Ok (tt, setUndefs [] (setDiagnostics (diagnostics st ++ emitted) st))
    /\ length emitted = length (undefs st)
    /\ forallb (severityOf (undefinedSymbolTreatment config)) emitted = true.
Proof.
  intros Ht Hu.
  destruct (reportUndefinedFrom_severity (undefs st) 0 st Ht Hu)
    as (e & Hrun & Hlen & Hall).
  exists e. unfold reportPendingUndefinedSymbols, bind, get. rewrite Hrun.
  done.
Qed.

(** X26: [reportPendingUndefinedSymbols] under any other policy, with
    a symbol pending: [reportUndefinedSymbol] ends in [assert(false)],
    diagnostics making sense for [-undefined error|warning] only, and
    the call fails the assertion. *)
Theorem reportPendingUndefinedSymbols_asserts (st : State) u l :
  undefinedSymbolTreatment config <> treat_error ->
  undefinedSymbolTreatment config <> treat_warning ->
  undefs st = u :: l ->
  is_Some (symMap st !! fst u) ->
  reportPendingUndefinedSymbols st = Crash AssertionFailure.
Proof.
  intros He Hw Hu [sym Hs].
  unfold reportPendingUndefinedSymbols, bind at 1, get. rewrite Hu. simpl.
  unfold bind at 1 2, get. rewrite Hs. simpl.
  destruct (reportUndefinedSymbol_severity sym (snd u) (0 <? 2)%nat st)
    as [msg Hd].
  unfold bind at 1. unfold ret at 1. unfold bind at 1. rewrite Hd.
  by destruct (undefinedSymbolTreatment config).
Qed.

End PendingFacts.

(** ** The further properties on the sample inputs *)

Lemma entry_points_write_their_slot_witness :
  exists sym',
    symMap (stateAfter (addUndefined "_f" (Some dylibA) false)
              (oneSlot "_g" Blank))
    = <["_f" := sym']> (symMap (oneSlot "_g" Blank))
    /\ isUsedInRegularObj sym' = false.
Proof.
  destruct (@entry_points_write_their_slot plainCollaborators "_f"
              (Some dylibA) None 0 0 0 false false false false false false
              false false false)
    as (_ & _ & Hundefined & _).
  destruct (Hundefined (oneSlot "_g" Blank) "_f"
              (stateAfter (addUndefined "_f" (Some dylibA) false)
                 (oneSlot "_g" Blank)) eq_refl)
    as (sym' & Hmap & Hflag & _).
  exists sym'. split; [exact Hmap|exact Hflag].
Defined.

Lemma addDefined_records_duplicate_iff_witness :
  let st := oneSlot "_g" (IsDefined (strongIn "_g" objA)) in
  dupSymDiags
    (stateAfter (@addDefined plainCollaborators "_g" (Some objB) None 0 0
                   false false false false false false) st)
  = [{| src1 := ("", "a.o"); src2 := ("", "b.o"); dupSym := "_g" |}].
Proof.
  intros st.
  destruct (@addDefined_records_duplicate_iff plainCollaborators st "_g"
              (Some objB) None 0 0 false false false false false false
              (Some "_g")
              (stateAfter (@addDefined plainCollaborators "_g" (Some objB)
                             None 0 0 false false false false false false) st)
              eq_refl)
    as [Hdups _].
  rewrite Hdups. reflexivity.
Defined.

Lemma addDefined_over_reference_witness :
  exists st',
    @addDefined plainCollaborators "_foo" (Some objA) None 0 0 false false
      false false false false (oneSlot "_foo" (IsUndefined (undefinedIn "_foo")))
    = Ok (Some "_foo", st')
    /\ (body <$> symMap st' !! "_foo") = Some (IsDefined (strongIn "_foo" objA))
    /\ dupSymDiags st' = [].
Proof.
  destruct (@addDefined_over_reference plainCollaborators
              (oneSlot "_foo" (IsUndefined (undefinedIn "_foo"))) "_foo"
              (undefinedSlot "_foo") (Some objA) None 0 0 false false false
              false false false eq_refl eq_refl)
    as [Hundefined _].
  destruct (Hundefined (undefinedIn "_foo") eq_refl)
    as (st' & Hrun & Hslot & Hdups & _).
  exists st'. split; [exact Hrun|]. split; [rewrite Hslot; reflexivity|].
  exact Hdups.
Defined.

Lemma addDefined_weak_pair_either_order_witness :
  let addA := @addDefined plainCollaborators "_s" (Some objA) None 0 0 true
                false false false false false in
  let addB := @addDefined plainCollaborators "_s" (Some objB) None 0 0 true
                false false false false false in
  exists stAB stBA,
    (let* _ := addA in addB) emptyState = Ok (Some "_s", stAB)
    /\ (let* _ := addB in addA) emptyState = Ok (Some "_s", stBA)
    /\ (body <$> symMap stAB !! "_s") = Some (IsDefined weakInA)
    /\ (body <$> symMap stBA !! "_s") = Some (IsDefined weakInA).
Proof.
  intros addA addB.
  destruct (@addDefined_weak_pair_either_order plainCollaborators emptyState
              "_s" objA objB None 0 0 false false false false false
              None 0 0 false false false false false
              eq_refl eq_refl eq_refl eq_refl)
    as (stAB & stBA & HAB & HBA & HslotAB & HslotBA & _).
  exists stAB, stBA. split; [exact HAB|]. split; [exact HBA|].
  split; [rewrite HslotAB|rewrite HslotBA]; reflexivity.
Defined.

Lemma addDefined_weak_against_strong_witness :
  exists st',
    @addDefined plainCollaborators "_g" (Some objB) None 0 0 true false false
      false false false (oneSlot "_g" (IsDefined (strongIn "_g" objA)))
    = Ok (Some "_g", st')
    /\ (body <$> symMap st' !! "_g") = Some (IsDefined (strongIn "_g" objA))
    /\ dupSymDiags st' = [].
Proof.
  destruct (@addDefined_weak_against_strong plainCollaborators
              (oneSlot "_g" (IsDefined (strongIn "_g" objA))) "_g"
              {| isUsedInRegularObj := false;
                 body := IsDefined (strongIn "_g" objA) |}
              (strongIn "_g" objA) objB None 0 0 false false false false false
              eq_refl eq_refl eq_refl)
    as [Hstrong _].
  { cbv [objB mkFile priority]. lia. }
  destruct (Hstrong objA eq_refl eq_refl eq_refl eq_refl)
    as (st' & Hrun & Hslot & Hdups).
  { cbv [objA mkFile priority]. lia. }
  exists st'. split; [exact Hrun|]. split; [rewrite Hslot; reflexivity|].
  exact Hdups.
Defined.

Lemma addCommon_over_common_witness :
  exists st',
    addCommon "_c" (Some objA) 16 3 false (oneSlot "_c" (IsCommon commonInY))
    = Ok ("_c", st')
    /\ (body <$> symMap st' !! "_c")
       = Some (IsCommon {| commonName := "_c"; commonFile := Some objA;
                           commonSize := 16; commonAlign := 3;
                           commonPrivateExtern := false |}).
Proof.
  destruct (addCommon_over_common (oneSlot "_c" (IsCommon commonInY)) "_c"
              {| isUsedInRegularObj := false; body := IsCommon commonInY |}
              commonInY memberY objA 16 3 false eq_refl eq_refl eq_refl)
    as (st' & common' & Hrun & Hslot & Hcommon & _).
  exists st'. split; [exact Hrun|]. rewrite Hslot, Hcommon. reflexivity.
Defined.

Lemma addCommon_over_defined_witness :
  exists st',
    addCommon "_g" (Some objB) 8 3 false
      (oneSlot "_g" (IsDefined (strongIn "_g" objA)))
    = Ok ("_g", st')
    /\ (body <$> symMap st' !! "_g") = Some (IsDefined (strongIn "_g" objA)).
Proof.
  destruct (addCommon_over_defined
              (oneSlot "_g" (IsDefined (strongIn "_g" objA))) "_g"
              {| isUsedInRegularObj := false;
                 body := IsDefined (strongIn "_g" objA) |}
              (strongIn "_g" objA) 8 3 false eq_refl eq_refl (Some objB))
    as (st' & Hrun & Hslot).
  exists st'. split; [exact Hrun|]. rewrite Hslot. reflexivity.
Defined.

Lemma resolveDylib_over_reference_witness :
  exists st',
    resolveDylib "_foo" (Some dylibA) false false
      (oneSlot "_foo" (IsUndefined (undefinedIn "_foo")))
    = Ok ("_foo", st')
    /\ (body <$> symMap st' !! "_foo")
       = Some (IsDylib {| dylibFile := Some dylibA; dylibName := "_foo";
                          dylibWeakDef := false; dylibRefState := Strong;
                          dylibTlv := false |})
    /\ refCalls st' = [].
Proof.
  destruct (resolveDylib_over_reference
              (oneSlot "_foo" (IsUndefined (undefinedIn "_foo"))) "_foo"
              (undefinedSlot "_foo") (Some dylibA) false false eq_refl)
    as [Hundefined _].
  destruct (Hundefined (undefinedIn "_foo") eq_refl) as (st' & Hrun & Hslot & Hrefs).
  exists st'. split; [exact Hrun|]. split; [rewrite Hslot; reflexivity|].
  exact Hrefs.
Defined.

Lemma resolveDylib_keeps_definitions_witness :
  exists st',
    resolveDylib "_g" (Some dylibA) true false
      (oneSlot "_g" (IsDefined (strongIn "_g" objA)))
    = Ok ("_g", st')
    /\ (body <$> symMap st' !! "_g")
       = Some (IsDefined (setOverridesWeakDef true (strongIn "_g" objA))).
Proof.
  destruct (resolveDylib_keeps_definitions
              (oneSlot "_g" (IsDefined (strongIn "_g" objA))) "_g"
              {| isUsedInRegularObj := false;
                 body := IsDefined (strongIn "_g" objA) |}
              (Some dylibA) true false eq_refl eq_refl)
    as (st' & Hrun & Hslot & _).
  exists st'. split; [exact Hrun|]. rewrite Hslot. reflexivity.
Defined.

Lemma lazy_entry_points_demand_witness :
  let st := oneSlot "_h" (IsUndefined (undefinedIn "_h")) in
  fetched (stateAfter (@addLazyArchive idleLoader "_h" archiveL cookieH) st)
  = [(archiveL, cookieH)]
  /\ (body <$> symMap (stateAfter (@addLazyObject idleObjectLoader "_h" objA) st)
               !! "_h")
     = Some (IsUndefined (undefinedIn "_h")).
Proof.
  intros st.
  destruct (@lazy_entry_points_demand idleLoader
              idleObjectLoader st "_h" (undefinedSlot "_h") archiveL cookieH
              eq_refl)
    as [Hdemand _].
  destruct (@lazy_entry_points_demand idleLoader
              idleObjectLoader st "_h" (undefinedSlot "_h") objA cookieH
              eq_refl)
    as [Hobject _].
  destruct (Hdemand eq_refl) as [Harchive _].
  destruct (Hobject eq_refl) as [_ Hextract].
  unfold stateAfter. rewrite Harchive, Hextract. split; reflexivity.
Defined.

Lemma lazy_pull_after_reference_witness :
  exists st',
    (let* _ := addUndefined "_h" (Some objC) false in
     @addLazyArchive definingLoader "_h" archiveL cookieH) emptyState
    = Ok ("_h", st')
    /\ fetched st' = [(archiveL, cookieH)]
    /\ (body <$> symMap st' !! "_h") = Some (IsDefined (strongIn "_h" memberX))
    /\ dupSymDiags st' = [].
Proof.
  destruct (@lazy_pull_after_reference plainCollaborators definingLoader
              emptyState "_h" (Some objC) false archiveL cookieH memberX None
              0 0 false false false false false false eq_refl
              (fun st0 => eq_refl) eq_refl)
    as (st' & Hrun & Hfetched & Hslot & Hdups).
  exists st'. split; [exact Hrun|]. split; [exact Hfetched|].
  split; [rewrite Hslot; reflexivity|exact Hdups].
Defined.

Lemma aliasDefined_on_new_name_witness :
  exists st',
    @aliasDefined plainCollaborators weakInA "_t" (Some objB) true emptyState
    = Ok (Some "_t", st')
    /\ (body <$> symMap st' !! "_t")
       = Some (IsDefined
                 {| definedName := "_t"; definedFile := Some objB;
                    isec := None; value := 0; size := 0; weakDef := true;
                    isExternal := true; privateExtern := true;
                    includeInSymtab := true; thumb := false;
                    referencedDynamically := false; noDeadStrip := false;
                    overridesWeakDef := false; weakDefCanBeHidden := false;
                    interposable := false |}).
Proof.
  destruct (@aliasDefined_on_new_name plainCollaborators emptyState weakInA
              "_t" (Some objB) true eq_refl eq_refl)
    as (st' & Hrun & Hslot & _).
  exists st'. split; [exact Hrun|]. rewrite Hslot. reflexivity.
Defined.

Lemma getAlternativeSpelling_finds_one_edit_witness :
  symMap afterS6 !! "_prntf" = Some undefinedPrntf
  /\ exists r,
       @getAlternativeSpelling plainCollaborators afterS6 undefinedPrntf ": " ""
       = (Some r, ": ", "")
       /\ qualifies afterS6 r.
Proof.
  split; [reflexivity|].
  apply (@getAlternativeSpelling_finds_one_edit plainCollaborators afterS6
           undefinedPrntf ": " "" "_pr" "ntf" "i"%char "i"%char "i"%char
           "_printf"
           {| isUsedInRegularObj := true;
              body := IsDefined (strongIn "_printf" objA) |}).
  - reflexivity.
  - reflexivity.
  - split; apply Nat.leb_le; reflexivity.
  - left. split; reflexivity.
Defined.

Lemma treatUndefinedSymbol_policy_witness :
  exists st',
    @treatUndefinedSymbol (collaboratorsWith treat_warning true)
      noDynamicLookups listLayout "_foo" "c.o" []
      (oneSlot "_foo" (IsUndefined (undefinedIn "_foo")))
    = Ok ([], st')
    /\ symMap st' !! "_foo"
       = Some {| isUsedInRegularObj := true;
                 body := IsDylib {| dylibFile := None; dylibName := "_foo";
                                    dylibWeakDef := false;
                                    dylibRefState := Strong;
                                    dylibTlv := false |} |}
    /\ undefs st'
       = [("_foo", {| codeReferences := []; otherReferences := ["c.o"] |})].
Proof.
  destruct (@treatUndefinedSymbol_policy (collaboratorsWith treat_warning true)
              noDynamicLookups listLayout
              (oneSlot "_foo" (IsUndefined (undefinedIn "_foo"))) "_foo"
              (undefinedSlot "_foo") (undefinedIn "_foo") "c.o"
              {| isecFile := None; isecName := "__text" |} 0 []
              eq_refl eq_refl eq_refl eq_refl eq_refl eq_refl)
    as [(st' & Hrun & Hmap & Hundefs & _) _].
  exists st'. split; [exact Hrun|]. split.
  - rewrite Hmap. reflexivity.
  - rewrite Hundefs. reflexivity.
Defined.

Lemma treatUndefinedSymbol_dtrace_witness :
  let st := oneSlot "___dtrace_probe$p" (IsUndefined (undefinedIn "___dtrace_probe$p")) in
  @treatUndefinedSymbol plainCollaborators noDynamicLookups listLayout
    "___dtrace_probe$p" "c.o" [] st
  = Ok ([], st).
Proof.
  intros st.
  exact (proj1 (@treatUndefinedSymbol_dtrace plainCollaborators
                  noDynamicLookups listLayout st "___dtrace_probe$p"
                  (undefinedSlot "___dtrace_probe$p")
                  (undefinedIn "___dtrace_probe$p") "c.o"
                  {| isecFile := None; isecName := "__text" |} 0 []
                  eq_refl eq_refl eq_refl eq_refl)).
Defined.

Lemma treatUndefinedSymbol_boundary_witness :
  let name := "section$start$__DATA$__mine" in
  exists layout' st',
    @treatUndefinedSymbol plainCollaborators noDynamicLookups listLayout
      name "c.o" [] (oneSlot name (IsUndefined (undefinedIn name)))
    = Ok (layout', st')
    /\ (body <$> symMap st' !! name)
       = Some (IsDefined
                 {| definedName := name; definedFile := None; isec := None;
                    value := 18446744073709551615; size := 0;
                    weakDef := false; isExternal := true;
                    privateExtern := true; includeInSymtab := false;
                    thumb := false; referencedDynamically := false;
                    noDeadStrip := false; overridesWeakDef := false;
                    weakDefCanBeHidden := false; interposable := false |})
    /\ undefs st' = [].
Proof.
  intros name.
  destruct (@treatUndefinedSymbol_boundary plainCollaborators noDynamicLookups
              listLayout (oneSlot name (IsUndefined (undefinedIn name))) name
              (undefinedSlot name) (undefinedIn name) "c.o"
              {| isecFile := None; isecName := "__text" |} 0 []
              eq_refl eq_refl eq_refl eq_refl (fun _ => eq_refl))
    as [(layout' & st' & Hrun & Hmap & Hundefs & _) _].
  exists layout', st'. split; [exact Hrun|]. split.
  - rewrite Hmap. reflexivity.
  - exact Hundefs.
Defined.

Lemma treatUndefinedSymbol_section_of_dead_witness :
  let name := "section$end$__DATA$__mine" in
  @treatUndefinedSymbol (collaboratorsWith treat_error false) noDynamicLookups
    bareLayout name "c.o" [] (oneSlot name (IsUndefined (undefinedIn name)))
  = Crash AssertionFailure.
Proof.
  intros name.
  refine (proj1 (@treatUndefinedSymbol_section_of_dead
                   (collaboratorsWith treat_error false) noDynamicLookups
                   bareLayout (oneSlot name (IsUndefined (undefinedIn name)))
                   name (undefinedSlot name) (undefinedIn name) "c.o"
                   {| isecFile := None; isecName := "__text" |} 0 []
                   eq_refl eq_refl eq_refl _ eq_refl)).
  intros ssec [].
Defined.

Lemma reportPendingDuplicateSymbols_warns_witness :
  exists emitted,
    @reportPendingDuplicateSymbols plainCollaborators afterS2
    = Ok (tt, setDiagnostics (diagnostics afterS2 ++ emitted) afterS2)
    /\ forallb isWarn emitted = true
    /\ length emitted = 1%nat.
Proof.
  destruct (@reportPendingDuplicateSymbols_warns plainCollaborators afterS2)
    as (emitted & Hrun & Hwarn & _ & Hall).
  { intros d [<-|[]]. vm_compute. eexists. reflexivity. }
  exists emitted. split; [exact Hrun|]. split; [exact Hwarn|].
  rewrite (Hall eq_refl). reflexivity.
Defined.

Lemma reportPendingUndefinedSymbols_severity_witness :
  exists emitted,
    @reportPendingUndefinedSymbols (collaboratorsWith treat_warning true)
      twoUndefinedPending
    = Ok (tt, setUndefs []
                (setDiagnostics (diagnostics twoUndefinedPending ++ emitted)
                   twoUndefinedPending))
    /\ length emitted = 1%nat
    /\ forallb (severityOf treat_warning) emitted = true.
Proof.
  destruct (@reportPendingUndefinedSymbols_severity
              (collaboratorsWith treat_warning true) twoUndefinedPending)
    as (emitted & Hrun & Hlen & Hall).
  { right. reflexivity. }
  { intros u [<-|[]]. vm_compute. eexists. reflexivity. }
  exists emitted. split; [exact Hrun|]. split; [exact Hlen|].
  exact Hall.
Defined.

Lemma reportPendingUndefinedSymbols_asserts_witness :
  @reportPendingUndefinedSymbols (collaboratorsWith treat_suppress true)
    twoUndefinedPending
  = Crash AssertionFailure.
Proof.
  apply (@reportPendingUndefinedSymbols_asserts
           (collaboratorsWith treat_suppress true) twoUndefinedPending
           ("_foo", {| codeReferences := []; otherReferences := ["c.o"] |}) []).
  - discriminate.
  - discriminate.
  - reflexivity.
  - vm_compute. eexists. reflexivity.
Defined.
